(** * smart-quote: quote acquisition, colour science and text layout

    A shallow embedding of the core of the smart-quote application:

    - [ColorPalette]   : src/app/design/color_palette.py (hex/RGB, brightness,
                         contrast);
    - [ImageGenerator] : src/app/design/image_generator.py (word wrap, font
                         tiers, the three rendering styles);
    - [LocalQuotes]    : src/app/data/local_quotes.py (the static pool);
    - [QuoteFetcher]   : src/app/core/quote_fetcher.py (cache, rate limit,
                         remote attempts, fallback chain);
    - [CacheUtils]     : src/app/utils/cache_utils.py (the recent-set loop).

    Conventions.  A Python [str] is a [string] holding its UTF-8 bytes; [len]
    counts code points ([PyStr.len]).  Wall-clock time and durations are
    rationals ([Q]).  Everything the program reads from its surroundings (the
    clock, the network, the disk, [random.choice], the hash seed) is supplied
    by an explicit environment value, so every function below is executable. *)

From Stdlib Require Import ZArith QArith Lia Lqa String Ascii List HexString DecimalString.
From stdpp Require Import base gmap strings list.

Local Open Scope Z_scope.

(** ** Python built-ins used by the sources *)

Module PyStr.

(** [s.lstrip(c)] for a one-character strip set. *)
Fixpoint lstrip (c : ascii) (s : string) : string :=
  match s with
  | EmptyString => EmptyString
  | String a r => if Ascii.eqb a c then lstrip c r else s
  end.

(** [s[i:j]] for [0 <= i <= j]; like Python, the slice is clamped to the
    string. *)
Definition slice (i j : nat) (s : string) : string :=
  substring i (j - i) s.

(** [sep.join(parts)]. *)
Fixpoint join (sep : string) (parts : list string) : string :=
  match parts with
  | [] => EmptyString
  | [p] => p
  | p :: rest => p +:+ sep +:+ join sep rest
  end.

(** [c.lower()] on one character: A-Z are mapped to a-z.  Bytes of
    non-ASCII code points are left alone. *)
Definition lower_char (c : ascii) : ascii :=
  let n := nat_of_ascii c in
  if ((65 <=? n) && (n <=? 90))%nat then ascii_of_nat (n + 32) else c.

(** [s.lower()]. *)
Fixpoint lower (s : string) : string :=
  match s with
  | EmptyString => EmptyString
  | String c r => String (lower_char c) (lower r)
  end.

(** [s.startswith(p)]. *)
Fixpoint startswith (p s : string) : bool :=
  match p, s with
  | EmptyString, _ => true
  | String a p', String b s' => Ascii.eqb a b && startswith p' s'
  | String _ _, EmptyString => false
  end.

(** [p in s]: substring test. *)
Fixpoint contains (p s : string) : bool :=
  startswith p s ||
  match s with
  | EmptyString => false
  | String _ s' => contains p s'
  end.

(** [len(s)]: the number of code points, that is, of bytes that are not
    UTF-8 continuation bytes (10xxxxxx). *)
Definition is_continuation (c : ascii) : bool :=
  let n := nat_of_ascii c in ((128 <=? n) && (n <? 192))%nat.

Fixpoint len (s : string) : Z :=
  match s with
  | EmptyString => 0
  | String c r => (if is_continuation c then 0 else 1) + len r
  end.

(** [str.isspace] on one character, for the ASCII range: TAB, LF, VT, FF,
    CR, FS, GS, RS, US, space.  (Whitespace outside ASCII takes several
    bytes in UTF-8 and is not recognised here.) *)
Definition is_space (c : ascii) : bool :=
  let n := nat_of_ascii c in
  (((9 <=? n) && (n <=? 13)) || ((28 <=? n) && (n <=? 32)))%nat.

(** [s.split()]: split on runs of whitespace, dropping empty words.
    [cur] is the word being read. *)
Fixpoint split_from (cur : string) (s : string) : list string :=
  match s with
  | EmptyString => match cur with EmptyString => [] | _ => [cur] end
  | String c r =>
      if is_space c then
        match cur with
        | EmptyString => split_from EmptyString r
        | _ => cur :: split_from EmptyString r
        end
      else split_from (cur +:+ String c EmptyString) r
  end.

Definition split (s : string) : list string := split_from EmptyString s.

(** Value of one hexadecimal digit, either case. *)
Definition hex_digit_val (c : ascii) : option Z :=
  let n := Z.of_nat (nat_of_ascii c) in
  if (48 <=? n) && (n <=? 57) then Some (n - 48)
  else if (97 <=? n) && (n <=? 102) then Some (n - 87)
  else if (65 <=? n) && (n <=? 70) then Some (n - 55)
  else None.

Fixpoint int16_digits (acc : Z) (s : string) : option Z :=
  match s with
  | EmptyString => Some acc
  | String c r =>
      match hex_digit_val c with
      | Some d => int16_digits (16 * acc + d) r
      | None => None
      end
  end.

(** [int(s, 16)] on a digit string; [None] is [ValueError].  The empty
    string is an error.  (Python's [int] also reads a sign, blanks around
    the number, a 0x prefix and underscores; no colour field has those,
    and they are errors here.) *)
Definition int16 (s : string) : option Z :=
  match s with
  | EmptyString => None
  | _ => int16_digits 0 s
  end.

(** [format(v, 'x')] for [v >= 0]. *)
Definition hex_of_N (n : N) : string :=
  match n with
  | N0 => "0"
  | Npos p => HexString.Raw.of_pos p EmptyString
  end.

(** ['{:02x}'.format(v)]: lower-case digits, zero-padded to width 2; the
    sign of a negative number counts in the width. *)
Definition format_02x (v : Z) : string :=
  if v <? 0 then "-" +:+ hex_of_N (Z.to_N (- v))
  else
    let d := hex_of_N (Z.to_N v) in
    if (String.length d <? 2)%nat then "0" +:+ d else d.

(** [str(v)] for an integer. *)
Definition str_of_Z (v : Z) : string :=
  NilZero.string_of_int (Z.to_int v).

End PyStr.

(** ** src/app/design/color_palette.py *)

Module ColorPalette.

Definition rgb : Type := (Z * Z * Z)%type.

(** [ColorPalette.hex_to_rgb]:
    [hex_color.lstrip('#')], then [int(hex_color[i:i+2], 16)] for
    [i] in [(0, 2, 4)].  [None] is the [ValueError] of [int]. *)
Definition hex_to_rgb (hex_color : string) : option rgb :=
  let hex_color := PyStr.lstrip "#" hex_color in
  match PyStr.int16 (PyStr.slice 0 2 hex_color),
        PyStr.int16 (PyStr.slice 2 4 hex_color),
        PyStr.int16 (PyStr.slice 4 6 hex_color) with
  | Some r, Some g, Some b => Some (r, g, b)
  | _, _, _ => None
  end.

(** [ColorPalette.rgb_to_hex]: the format string '#{:02x}{:02x}{:02x}' applied
    to the three channels. *)
Definition rgb_to_hex (c : rgb) : string :=
  let '(r, g, b) := c in
  "#" +:+ PyStr.format_02x r +:+ PyStr.format_02x g +:+ PyStr.format_02x b.

(** [ColorPalette.calculate_brightness]:
    [rgb[0] * 0.299 + rgb[1] * 0.587 + rgb[2] * 0.114], in exact
    rational arithmetic.  (On each of the 2^24 channel triples the
    double-precision value is on the same side of 128 as the exact one.) *)
Definition calculate_brightness (hex_color : string) : option Q :=
  match hex_to_rgb hex_color with
  | Some (r, g, b) =>
      Some (inject_Z r * (299 # 1000) + inject_Z g * (587 # 1000)
            + inject_Z b * (114 # 1000))%Q
  | None => None
  end.

(** [ColorPalette.ensure_contrast]; [text_color] and
    [min_brightness_diff] are accepted and not used, as in the source. *)
Definition ensure_contrast (bg_color text_color : string)
    (min_brightness_diff : Q) : option string :=
  match calculate_brightness bg_color with
  | Some bg_brightness =>
      if negb (Qle_bool bg_brightness 128) then Some "#1A1A1A"%string
      else Some "#FAFAFA"%string
  | None => None
  end.

(** [ColorPalette.get_complementary_color]. *)
Definition get_complementary_color (hex_color : string) : option string :=
  match hex_to_rgb hex_color with
  | Some (r, g, b) => Some (rgb_to_hex (255 - r, 255 - g, 255 - b))
  | None => None
  end.

(** A colour written [#RRGGBB]: a hash sign and six hexadecimal digits. *)
Definition is_hex_digit (c : ascii) : bool :=
  match PyStr.hex_digit_val c with Some _ => true | None => false end.

Definition is_hex_color (s : string) : bool :=
  match s with
  | String "#" r =>
      (String.length r =? 6)%nat && forallb is_hex_digit (list_ascii_of_string r)
  | _ => false
  end.

End ColorPalette.

(** ** src/app/design/image_generator.py *)

Module ImageGenerator.

Definition rgb : Type := (Z * Z * Z)%type.
Definition point : Type := (Z * Z)%type.

(** What the generator uses of a PIL font: its bounding-box measure
    [(left, top, right, bottom)] and, for a TrueType font, its
    [(family, style)] name. *)
Record font : Type := {
  getbbox : string -> Z * Z * Z * Z;
  getname : option (string * string)
}.

(** The calls made on [ImageDraw.Draw(img)], in the order they are made. *)
Inductive draw_op : Type :=
| DrawText (xy : point) (text : string) (f : font) (fill : rgb)
| DrawRectangle (p0 p1 : point) (fill : option rgb) (outline : option rgb) (width : Z)
| DrawPolygon (pts : list point) (fill : rgb).

(** The image a canvas starts from: [Image.new('RGB', size, color)], or the
    result of [_create_gradient_background(color1, color2)], whose rows are
    interpolated in floating point and are kept symbolic here. *)
Inductive canvas : Type :=
| SolidFill (size : Z * Z) (color : rgb)
| GradientFill (size : Z * Z) (rgb1 rgb2 : rgb).

Record image : Type := { base : canvas; drawn : list draw_op }.

(** The generator object: [self.size] and the font resolution of
    [_get_font(size, weight, family)], which depends on the font files of
    the machine and always yields a font. *)
Record generator : Type := {
  size : Z * Z;
  _get_font : Z -> string -> string -> font
}.

Definition DEFAULT_SIZE : Z * Z := (1080, 1080).

Definition FONT_SIZES_quote : gmap string Z :=
  <["small" := 48]> (<["medium" := 42]> (<["large" := 36]> (<["xlarge" := 32]> ∅))).
Definition FONT_SIZES_author : Z := 32.
Definition FONT_SIZES_decorative : Z := 72.

Definition PADDING_BY_STYLE : gmap string Z :=
  <["minimal" := 80]> (<["moderne" := 100]> (<["elegant" := 120]> ∅)).

Definition text_width (f : font) (s : string) : Z :=
  let '(x0, _, x1, _) := getbbox f s in x1 - x0.

(** The [for word in words] loop of [_wrap_text]. *)
Fixpoint wrap_loop (f : font) (max_width : Z) (words lines current_line : list string)
    : list string * list string :=
  match words with
  | [] => (lines, current_line)
  | word :: words' =>
      let test_line := PyStr.join " " (current_line ++ [word]) in
      let width := text_width f test_line in
      if width <=? max_width then
        wrap_loop f max_width words' lines (current_line ++ [word])
      else
        let lines :=
          match current_line with
          | [] => lines
          | _ => lines ++ [PyStr.join " " current_line]
          end in
        wrap_loop f max_width words' lines [word]
  end.

(** [ImageGenerator._wrap_text]. *)
Definition _wrap_text (text : string) (f : font) (max_width : Z) : list string :=
  let words := PyStr.split text in
  let '(lines, current_line) := wrap_loop f max_width words [] [] in
  let lines :=
    match current_line with
    | [] => lines
    | _ => lines ++ [PyStr.join " " current_line]
    end in
  match lines with
  | [] => [text]
  | _ => lines
  end.

(** [ImageGenerator._hex_to_rgb]: the same body as
    [ColorPalette.hex_to_rgb]. *)
Definition _hex_to_rgb (hex_color : string) : option rgb :=
  let hex_color := PyStr.lstrip "#" hex_color in
  match PyStr.int16 (PyStr.slice 0 2 hex_color),
        PyStr.int16 (PyStr.slice 2 4 hex_color),
        PyStr.int16 (PyStr.slice 4 6 hex_color) with
  | Some r, Some g, Some b => Some (r, g, b)
  | _, _, _ => None
  end.

(** [ImageGenerator._create_gradient_background]. *)
Definition _create_gradient_background (self : generator) (color1 color2 : string)
    : option canvas :=
  rgb1 ← _hex_to_rgb color1;
  rgb2 ← _hex_to_rgb color2;
  Some (GradientFill (size self) rgb1 rgb2).

(** [ImageGenerator._calculate_font_size]. *)
Definition _calculate_font_size (text_length : Z) : Z :=
  if text_length <? 60 then default 0 (FONT_SIZES_quote !! "small")
  else if text_length <? 120 then default 0 (FONT_SIZES_quote !! "medium")
  else if text_length <? 180 then default 0 (FONT_SIZES_quote !! "large")
  else default 0 (FONT_SIZES_quote !! "xlarge").

(** The loop that draws the quote lines, shared by the three styles: each
    line is centred and [y_pos] advances by [line_spacing].  It yields the
    calls made and the final [y_pos]. *)
Fixpoint draw_lines (self : generator) (quote_lines : list string) (quote_font : font)
    (text_color : rgb) (line_spacing y_pos : Z) : list draw_op * Z :=
  match quote_lines with
  | [] => ([], y_pos)
  | line :: rest =>
      let line_width := text_width quote_font line in
      let x_pos := ((size self).1 - line_width) / 2 in
      let '(ops, y_end) :=
        draw_lines self rest quote_font text_color line_spacing (y_pos + line_spacing) in
      (DrawText (x_pos, y_pos) line quote_font text_color :: ops, y_end)
  end.

(** [ImageGenerator._render_minimal_style]: the calls it makes on the
    image. *)
Definition _render_minimal_style (self : generator) (quote_lines : list string)
    (author : string) (quote_font author_font : font) (text_color : rgb)
    (line_spacing : Z) : list draw_op :=
  let total_height := Z.of_nat (length quote_lines) * line_spacing + 80 in
  let start_y := ((size self).2 - total_height) / 2 in
  let '(ops, y_pos) :=
    draw_lines self quote_lines quote_font text_color line_spacing start_y in
  let author_text := "— " +:+ author in
  let author_width := text_width author_font author_text in
  let author_x := ((size self).1 - author_width) / 2 in
  ops ++ [DrawText (author_x, y_pos + 40) author_text author_font text_color].

(** The family passed for the decorative font:
    [quote_font.getname()[0] if hasattr(quote_font, 'getname') else 'DejaVu Sans']. *)
Definition decorative_family (quote_font : font) : string :=
  match getname quote_font with
  | Some (family, _) => family
  | None => "DejaVu Sans"
  end.

(** The decorative glyph: the one-character string holding a double
    quotation mark (code point 34). *)
Definition quote_glyph : string := String (ascii_of_nat 34) EmptyString.

(** [ImageGenerator._render_moderne_style]. *)
Definition _render_moderne_style (self : generator) (quote_lines : list string)
    (author : string) (quote_font author_font : font) (text_color accent_color : rgb)
    (line_spacing padding : Z) : list draw_op :=
  let decorative_font :=
    _get_font self FONT_SIZES_decorative "bold" (decorative_family quote_font) in
  let total_height := Z.of_nat (length quote_lines) * line_spacing + 80 in
  let start_y := ((size self).2 - total_height) / 2 in
  let opening := DrawText (padding - 10, start_y - 45) quote_glyph decorative_font accent_color in
  let '(ops, y_pos) :=
    draw_lines self quote_lines quote_font text_color line_spacing start_y in
  let closing :=
    DrawText ((size self).1 - padding - 25, y_pos - 50) quote_glyph decorative_font accent_color in
  let author_text := "— " +:+ author in
  let author_width := text_width author_font author_text in
  let author_x := ((size self).1 - author_width) / 2 in
  let line_y := y_pos + 85 in
  let line_start := (size self).1 / 2 - 70 in
  let line_end := (size self).1 / 2 + 70 in
  [opening] ++ ops ++
  [closing;
   DrawText (author_x, y_pos + 40) author_text author_font text_color;
   DrawRectangle (line_start, line_y) (line_end, line_y + 3) (Some accent_color) None 1].

(** [ImageGenerator._render_elegant_style]. *)
Definition _render_elegant_style (self : generator) (quote_lines : list string)
    (author : string) (quote_font author_font : font) (text_color accent_color : rgb)
    (line_spacing padding : Z) : list draw_op :=
  let margin := 45 in
  let border :=
    DrawRectangle (margin, margin) ((size self).1 - margin, (size self).2 - margin)
                  None (Some accent_color) 2 in
  let decorative_font := _get_font self 55 "bold" (decorative_family quote_font) in
  let total_height := Z.of_nat (length quote_lines) * line_spacing + 80 in
  let start_y := ((size self).2 - total_height) / 2 in
  let opening := DrawText (padding + 5, start_y - 35) quote_glyph decorative_font accent_color in
  let '(ops, y_pos) :=
    draw_lines self quote_lines quote_font text_color line_spacing start_y in
  let closing :=
    DrawText ((size self).1 - padding - 35, y_pos - 45) quote_glyph decorative_font accent_color in
  let author_text := "— " +:+ author +:+ " —" in
  let author_width := text_width author_font author_text in
  let author_x := ((size self).1 - author_width) / 2 in
  let diamond_y := y_pos + 85 in
  let diamond (offset : Z) :=
    let cx := (size self).1 / 2 + offset in
    DrawPolygon [(cx, diamond_y - 4); (cx + 4, diamond_y);
                 (cx, diamond_y + 4); (cx - 4, diamond_y)] accent_color in
  [border; opening] ++ ops ++
  [closing; DrawText (author_x, y_pos + 40) author_text author_font text_color] ++
  map diamond [-90; 0; 90].

(** [style in [...]] on strings. *)
Definition style_in (style : string) (styles : list string) : bool :=
  existsb (String.eqb style) styles.

(** [ImageGenerator.create_image].  [None] is an exception raised to the
    caller: [IndexError] from indexing [colors], [ValueError] from a
    colour that is not hexadecimal. *)
Definition create_image (self : generator) (quote_text author : string)
    (colors : list string) (style font_family : string) : option image :=
  img ←
    (if style_in style ["moderne"; "elegant"; "élégant"] && (2 <=? length colors)%nat then
       c0 ← colors !! 0%nat;
       _create_gradient_background self c0 c0
     else
       c0 ← colors !! 0%nat;
       fill ← _hex_to_rgb c0;
       Some (SolidFill (size self) fill));
  text_color ←
    (c ← (if (1 <? length colors)%nat then colors !! 1%nat else Some "#FFFFFF"%string);
     _hex_to_rgb c);
  accent_color ←
    (c ← (if (2 <? length colors)%nat then colors !! 2%nat else colors !! 1%nat);
     _hex_to_rgb c);
  let padding := default 100 (PADDING_BY_STYLE !! style) in
  let available_width := (size self).1 - 2 * padding in
  let font_size := _calculate_font_size (PyStr.len quote_text) in
  let quote_font := _get_font self font_size "bold" font_family in
  let author_font := _get_font self FONT_SIZES_author "regular" font_family in
  let quote_lines := _wrap_text quote_text quote_font available_width in
  let line_spacing := Z.quot (font_size * 3) 2 in
  let ops :=
    if String.eqb style "minimal" then
      _render_minimal_style self quote_lines author quote_font author_font
                            text_color line_spacing
    else if String.eqb style "moderne" then
      _render_moderne_style self quote_lines author quote_font author_font
                            text_color accent_color line_spacing padding
    else if style_in style ["elegant"; "élégant"] then
      _render_elegant_style self quote_lines author quote_font author_font
                            text_color accent_color line_spacing padding
    else [] in
  Some {| base := img; drawn := ops |}.

End ImageGenerator.

(** ** The quote record *)

Module QuoteRecord.

(** A JSON value, as [response.json()] returns it. *)
#[warnings="-register-all"]
Inductive json : Type :=
| JNull
| JBool (b : bool)
| JNum (n : Z)
| JStr (s : string)
| JList (items : list json)
| JObj (fields : list (string * json)).

(** A quote is a Python dict with the keys below.  [content], [author] and
    [tags] are present in every record the program creates; a key that
    may be absent is an [option].  [author] and [id] of a remote record
    are whatever JSON values the endpoint sent. *)
Record quote : Type := {
  content : string;
  author : json;
  tags : list string;
  theme : option string;
  length : option Z;
  id : option json;
  source : option string
}.

End QuoteRecord.

(** ** src/app/data/local_quotes.py *)

Module LocalQuotes.

Import QuoteRecord.

Definition pool_entry (c a : string) (tg : list string) (th : string) : quote :=
  {| content := c; author := JStr a; tags := tg; theme := Some th;
     length := None; id := None; source := None |}.

(** [FRENCH_QUOTES] as the module defines it.  The list holds dict
    objects: position [i] of the list is the reference to the [i]-th
    object, and a pool state is the list of their current values. *)
Definition FRENCH_QUOTES : list quote :=
  [
    pool_entry "Le succès n'est pas final, l'échec n'est pas fatal : c'est le courage de continuer qui compte."
      "Winston Churchill" ["motivation"] "motivation";
    pool_entry "La seule façon de faire du bon travail est d'aimer ce que vous faites."
      "Steve Jobs" ["succès"; "passion"] "succès";
    pool_entry "Croyez que vous pouvez le faire et vous êtes à mi-chemin."
      "Theodore Roosevelt" ["motivation"] "motivation";
    pool_entry "Le bonheur n'est pas quelque chose de prêt à l'emploi. Il vient de vos propres actions."
      "Dalaï Lama" ["bonheur"] "bonheur";
    pool_entry "Dans un an, vous regretterez de ne pas avoir commencé aujourd'hui."
      "Karen Lamb" ["motivation"] "motivation";
    pool_entry "La meilleure façon de prédire l'avenir est de le créer."
      "Peter Drucker" ["succès"] "succès";
    pool_entry "Soyez vous-même; tous les autres sont déjà pris."
      "Oscar Wilde" ["sagesse"] "sagesse";
    pool_entry "L'imagination est plus importante que le savoir."
      "Albert Einstein" ["sagesse"] "sagesse";
    pool_entry "Le courage n'est pas l'absence de peur, mais la capacité de la vaincre."
      "Nelson Mandela" ["courage"] "courage";
    pool_entry "La vie est ce qui arrive quand vous êtes occupé à faire d'autres plans."
      "John Lennon" ["sagesse"] "sagesse";
    pool_entry "Vous manquez 100% des coups que vous ne tentez pas."
      "Wayne Gretzky" ["motivation"] "motivation";
    pool_entry "Ce qui ne nous tue pas nous rend plus fort."
      "Friedrich Nietzsche" ["courage"] "courage";
    pool_entry "Soyez le changement que vous voulez voir dans le monde."
      "Mahatma Gandhi" ["inspiration"] "inspiration";
    pool_entry "La plus grande gloire n'est pas de ne jamais tomber, mais de se relever à chaque chute."
      "Confucius" ["courage"] "courage";
    pool_entry "Il n'y a qu'une façon d'échouer, c'est d'abandonner avant d'avoir réussi."
      "Olivier Lockert" ["motivation"] "motivation";
    pool_entry "L'avenir appartient à ceux qui croient en la beauté de leurs rêves."
      "Eleanor Roosevelt" ["inspiration"] "inspiration";
    pool_entry "Le meilleur moment pour planter un arbre était il y a 20 ans. Le deuxième meilleur moment est maintenant."
      "Proverbe chinois" ["motivation"] "motivation";
    pool_entry "Ne comptez pas les jours, faites que les jours comptent."
      "Muhammad Ali" ["motivation"] "motivation";
    pool_entry "La seule limite à notre réalisation de demain sera nos doutes d'aujourd'hui."
      "Franklin D. Roosevelt" ["motivation"] "motivation";
    pool_entry "Agissez comme s'il était impossible d'échouer."
      "Winston Churchill" ["motivation"] "motivation"
  ].

(** The filter of [get_random_quote]:
    [theme.lower() in [t.lower() for t in q.get('tags', [])]
     or q.get('theme', '').lower() == theme.lower()]. *)
Definition theme_filter (theme : string) (q : quote) : bool :=
  existsb (String.eqb (PyStr.lower theme)) (map PyStr.lower (tags q))
  || String.eqb (PyStr.lower (default EmptyString (QuoteRecord.theme q))) (PyStr.lower theme).

(** References (positions) of the pool entries that pass the filter. *)
Definition filtered_refs (theme : string) (pool : list quote) : list nat :=
  map fst (filter (fun iq => theme_filter theme iq.2) (imap pair pool)).

(** [random.choice(seq)] with the random draw [r]; [None] on an empty
    sequence ([IndexError]). *)
Definition choice {A : Type} (r : nat) (seq : list A) : option A :=
  seq !! (r mod List.length seq)%nat.

(** The three assignments [quote['length'] = ...], [quote['id'] = ...],
    [quote['source'] = 'local'] on the chosen dict. *)
Definition stamp (pyhash : string -> Z) (q : quote) : quote :=
  {| content := content q; author := author q; tags := tags q;
     theme := QuoteRecord.theme q;
     length := Some (PyStr.len (content q));
     id := Some (JStr ("local_" +:+ PyStr.str_of_Z (pyhash (content q))));
     source := Some "local"%string |}.

(** [get_random_quote(theme)].  [pyhash] is the built-in [hash] on
    strings (it depends on the hash seed of the process) and [r] the
    random draw.  The result is the reference of the chosen pool entry,
    which the function has assigned to in place, and the pool after the
    call; [None] is the [IndexError] of [random.choice] on an empty pool. *)
Definition get_random_quote (pyhash : string -> Z) (r : nat) (theme : option string)
    (pool : list quote) : option (nat * list quote) :=
  let all_refs := seq 0 (List.length pool) in
  ref ←
    match theme with
    | Some th =>
        if negb (String.eqb th EmptyString) && negb (String.eqb th "auto") then
          let filtered := filtered_refs th pool in
          match filtered with
          | [] => choice r all_refs
          | _ => choice r filtered
          end
        else choice r all_refs
    | None => choice r all_refs
    end;
  Some (ref, alter (stamp pyhash) ref pool).

End LocalQuotes.

(** ** src/app/core/quote_fetcher.py *)

Module QuoteFetcher.

Import QuoteRecord.

Definition CACHE_DURATION : Q := 3600.
Definition MIN_REQUEST_DELAY : Q := 2.

(** [THEME_KEYWORDS]; the value of ['auto'] is Python's [None]. *)
Definition THEME_KEYWORDS : gmap string (option (list string)) :=
  list_to_map
    [("motivation", Some ["motivate"; "inspire"; "success"; "achieve"; "goal"; "dream"; "action"]);
     ("sagesse", Some ["wisdom"; "knowledge"; "learn"; "understand"; "philosophy"; "truth"]);
     ("amour", Some ["love"; "heart"; "compassion"; "kindness"; "care"; "affection"]);
     ("courage", Some ["courage"; "brave"; "fear"; "strength"; "perseverance"; "resilience"]);
     ("succès", Some ["success"; "achievement"; "win"; "victory"; "accomplish"; "excel"]);
     ("bonheur", Some ["happiness"; "joy"; "smile"; "grateful"; "positive"; "delight"]);
     ("inspiration", Some ["inspire"; "creative"; "imagine"; "dream"; "vision"; "passion"]);
     ("auto", None)]%string.

(** [QuoteFetcher._matches_theme]. *)
Definition _matches_theme (q : quote) (theme : string) : bool :=
  if String.eqb theme "auto" then true
  else
    match default (Some []) (THEME_KEYWORDS !! theme) with
    | None | Some [] => true
    | Some keywords =>
        let content_lower := PyStr.lower (content q) in
        existsb (fun keyword => PyStr.contains keyword content_lower) keywords
    end.

(** [QuoteFetcher._get_fallback_quote]. *)
Definition _get_fallback_quote : quote :=
  {| content := "Le succès est la somme de petits efforts répétés jour après jour.";
     author := JStr "Robert Collier";
     tags := ["motivation"%string];
     theme := None;
     length := Some 68;
     id := Some (JStr "fallback");
     source := Some "fallback"%string |}.

(** *** The surroundings *)

(** [self.cache]: a dict whose keys ['quotes'] and ['timestamp'] may be
    absent. *)
Record cache_t : Type := {
  quotes : option (list quote);
  timestamp : option Q
}.

(** The cache file: absent, present but not loadable ([open] or
    [json.load] raises), or holding a cache. *)
Inductive file : Type :=
| Missing
| Unreadable
| Stored (c : cache_t).

(** What [requests.get] does: it raises (connection error, timeout), or
    answers with a status code and a body, [None] when the body is not
    JSON. *)
Inductive response : Type :=
| ConnectionFailed
| Http (status : Z) (body : option json).

(** What writing the cache file does after the directory exists. *)
Inductive write_outcome : Type :=
| Written
| OpenFails
| DumpFails.

(** Everything the fetcher does not decide itself.  Each call to the
    outside takes the next index [step] of these streams. *)
Record env : Type := {
  LOCAL_OK : bool;
  pyhash : string -> Z;
  net : nat -> Q * response;
  oversleep : nat -> Q;
  draw : nat -> nat;
  mkdir_fails : nat -> bool;
  write : nat -> write_outcome
}.

(** Calls observed from outside. *)
Inductive event : Type :=
| Requested (at_time : Q)
| Fetched (q : quote).

(** The fetcher object ([cache], [last_request_time]) and the world around
    it: the clock, the cache file, the local pool, the position in the
    streams of [env], and the log of remote calls. *)
Record state : Type := {
  cache : cache_t;
  last_request_time : Q;
  clock : Q;
  disk : file;
  pool : list quote;
  step : nat;
  trace : list event
}.

Inductive exn : Type :=
| OSError
| IndexError
| ValueError.

Inductive outcome (A : Type) : Type :=
| Return (a : A)
| Raise (e : exn).
Arguments Return {A} a.
Arguments Raise {A} e.

(** Computations over the state that may raise. *)
Definition M (A : Type) : Type := state -> outcome A * state.

Definition ret {A : Type} (a : A) : M A := fun s => (Return a, s).
Definition raise {A : Type} (e : exn) : M A := fun s => (Raise e, s).
Definition bind {A B : Type} (m : M A) (k : A -> M B) : M B :=
  fun s =>
    match m s with
    | (Return a, s') => k a s'
    | (Raise e, s') => (Raise e, s')
    end.
(** [try: m except Exception: h]. *)
Definition catch {A : Type} (m : M A) (h : exn -> M A) : M A :=
  fun s =>
    match m s with
    | (Return a, s') => (Return a, s')
    | (Raise e, s') => h e s'
    end.

Notation "x <- m ;; k" := (bind m (fun x => k))
  (at level 100, m at next level, right associativity).
Notation "m ;;; k" := (bind m (fun _ => k))
  (at level 100, k at level 200, right associativity).

Definition set_cache (c : cache_t) (s : state) : state :=
  {| cache := c; last_request_time := last_request_time s; clock := clock s;
     disk := disk s; pool := pool s; step := step s; trace := trace s |}.
Definition set_last_request_time (t : Q) (s : state) : state :=
  {| cache := cache s; last_request_time := t; clock := clock s;
     disk := disk s; pool := pool s; step := step s; trace := trace s |}.
Definition set_clock (t : Q) (s : state) : state :=
  {| cache := cache s; last_request_time := last_request_time s; clock := t;
     disk := disk s; pool := pool s; step := step s; trace := trace s |}.
Definition set_disk (d : file) (s : state) : state :=
  {| cache := cache s; last_request_time := last_request_time s; clock := clock s;
     disk := d; pool := pool s; step := step s; trace := trace s |}.
Definition set_pool (p : list quote) (s : state) : state :=
  {| cache := cache s; last_request_time := last_request_time s; clock := clock s;
     disk := disk s; pool := p; step := step s; trace := trace s |}.
Definition next_step (s : state) : state :=
  {| cache := cache s; last_request_time := last_request_time s; clock := clock s;
     disk := disk s; pool := pool s; step := S (step s); trace := trace s |}.
Definition log (e : event) (s : state) : state :=
  {| cache := cache s; last_request_time := last_request_time s; clock := clock s;
     disk := disk s; pool := pool s; step := step s; trace := trace s ++ [e] |}.

Definition get_state : M state := fun s => (Return s, s).
Definition modify (f : state -> state) : M unit := fun s => (Return tt, f s).

Section WithEnv.

Variable E : env.

(** [time.time()]. *)
Definition time_time : M Q := fun s => (Return (clock s), s).

(** [time.sleep(d)]: [ValueError] on a negative duration; otherwise the
    clock moves by [d] and by what the sleep overshoots. *)
Definition time_sleep (d : Q) : M unit :=
  fun s =>
    if Qle_bool 0 d then
      (Return tt, next_step (set_clock (clock s + d + oversleep E (step s))%Q s))
    else (Raise ValueError, s).

(** [random.choice(seq)]. *)
Definition random_choice {A : Type} (seq : list A) : M A :=
  fun s =>
    match LocalQuotes.choice (draw E (step s)) seq with
    | Some a => (Return a, next_step s)
    | None => (Raise IndexError, s)
    end.

(** [requests.get(url, timeout=...)]: the call is issued now and the
    clock moves by the time the exchange takes. *)
Definition requests_get : M response :=
  fun s =>
    let '(duration, r) := net E (step s) in
    (Return r, next_step (set_clock (clock s + duration)%Q (log (Requested (clock s)) s))).

(** [QuoteFetcher._load_cache]. *)
Definition _load_cache (d : file) : cache_t :=
  match d with
  | Stored c => c
  | Missing | Unreadable => {| quotes := Some []; timestamp := Some 0%Q |}
  end.

(** [QuoteFetcher.__init__] at time [now], with the cache file [d] and
    the module-level pool. *)
Definition init (now : Q) (d : file) : state :=
  {| cache := _load_cache d; last_request_time := 0%Q; clock := now;
     disk := d; pool := LocalQuotes.FRENCH_QUOTES; step := 0%nat; trace := [] |}.

(** [QuoteFetcher._save_cache]: [mkdir] is called before the [try]
    block; [open] and [json.dump] are inside it. *)
Definition _save_cache : M unit :=
  s <- get_state ;;
  modify next_step ;;;
  if mkdir_fails E (step s) then raise OSError
  else
    match write E (step s) with
    | Written => modify (set_disk (Stored (cache s)))
    | OpenFails => ret tt
    | DumpFails => modify (set_disk Unreadable)
    end.

(** [QuoteFetcher._wait_for_rate_limit]. *)
Definition _wait_for_rate_limit : M unit :=
  now <- time_time ;;
  s <- get_state ;;
  let elapsed := (now - last_request_time s)%Q in
  (if negb (Qle_bool MIN_REQUEST_DELAY elapsed) then
     let wait_time := (MIN_REQUEST_DELAY - elapsed)%Q in
     time_sleep wait_time
   else ret tt) ;;;
  now <- time_time ;;
  modify (set_last_request_time now).

(** [theme in self.THEME_KEYWORDS]. *)
Definition known_theme (theme : string) : bool :=
  match THEME_KEYWORDS !! theme with Some _ => true | None => false end.

(** [QuoteFetcher._get_from_cache]. *)
Definition _get_from_cache (theme : string) : M (option quote) :=
  s <- get_state ;;
  match quotes (cache s) with
  | None | Some [] => ret None
  | Some cached =>
      let matching :=
        if negb (String.eqb theme "auto") && known_theme theme
        then filter (fun q => _matches_theme q theme) cached
        else [] in
      match matching with
      | _ :: _ => q <- random_choice matching ;; ret (Some q)
      | [] => q <- random_choice cached ;; ret (Some q)
      end
  end.

(** [dict.get(key, default)] on a JSON value; [None] is the
    [AttributeError] of a value that is not an object. *)
Definition json_get (key : string) (dflt : json) (o : json) : option json :=
  match o with
  | JObj fields =>
      Some (default dflt (snd <$> List.find (fun kv => String.eqb key (fst kv)) fields))
  | _ => None
  end.

(** The body of the [try] block of [_fetch_single_quote] after the
    response is decoded.  [None] is the [return None] of the function,
    reached directly or through one of its handlers: [len] raises on a
    number, a boolean and null, [hash] on a list and an object, so a
    record is built only from a string under [q]. *)
Definition build_quote (data : json) : option quote :=
  match data with
  | JList (first :: _) =>
      q ← json_get "q" (JStr "") first;
      a ← json_get "a" (JStr "Unknown") first;
      match q with
      | JStr text =>
          h ← json_get "h" (JStr ("zen_" +:+ PyStr.str_of_Z (pyhash E text))) first;
          Some {| content := text; author := a; tags := []; theme := None;
                  length := Some (PyStr.len text); id := Some h;
                  source := Some "zenquotes"%string |}
      | _ => None
      end
  | _ => None
  end.

(** [QuoteFetcher._fetch_single_quote]: every exception is handled
    inside. *)
Definition _fetch_single_quote : M (option quote) :=
  r <- requests_get ;;
  let result :=
    match r with
    | ConnectionFailed => None
    | Http status body =>
        if (400 <=? status) && (status <? 600) then None
        else
          match body with
          | Some data => build_quote data
          | None => None
          end
    end in
  match result with
  | Some q => modify (log (Fetched q)) ;;; ret (Some q)
  | None => ret None
  end.

(** Lines 112-119: create the list if the key is absent, drop the first
    record when 50 are held, append. *)
Definition cache_append (held : option (list quote)) (q : quote) : list quote :=
  let held := default [] held in
  let held := if (50 <=? List.length held)%nat then tail held else held in
  held ++ [q].

(** The body of [if quote:] in the loop of [fetch_random_quote]: store the
    record, stamp and save the cache, then [return quote] when the theme is
    matched or is ['auto'].  [Some q] is that [return]. *)
Definition store_and_check (theme : string) (q : quote) : M (option quote) :=
s <- get_state ;;
now <- time_time ;;
modify (set_cache {| quotes := Some (cache_append (quotes (cache s)) q);
                     timestamp := Some now |}) ;;;
_save_cache ;;;
if negb (String.eqb theme "auto") && _matches_theme q theme then ret (Some q)
else if String.eqb theme "auto" then ret (Some q)
else ret None.

(** The [for attempt in range(3)] loop; [Some q] is a [return q] from
    inside the loop. *)
Fixpoint attempts (theme : string) (todo : list Z) : M (option quote) :=
match todo with
| [] => ret None
| attempt :: todo' =>
    fetched <- _fetch_single_quote ;;
    returned <-
      match fetched with
      | Some q => store_and_check theme q
      | None => ret None
      end ;;
    match returned with
    | Some q => ret (Some q)
    | None =>
        (if attempt <? 2 then time_sleep 1 else ret tt) ;;;
        attempts theme todo'
    end
end.

(** [get_local_quote(theme)] on the shared pool: the chosen entry is
    assigned to in place and its value returned. *)
Definition get_local_quote (theme : string) : M quote :=
  fun s =>
    match LocalQuotes.get_random_quote (pyhash E) (draw E (step s)) (Some theme) (pool s) with
    | Some (ref, pool') =>
        match pool' !! ref with
        | Some q => (Return q, next_step (set_pool pool' s))
        | None => (Raise IndexError, s)
        end
    | None => (Raise IndexError, s)
    end.

(** Steps 2 to 4 of [fetch_random_quote]: rate limit, remote attempts,
    fallbacks. *)
Definition remote_phase (theme : string) : M quote :=
  _wait_for_rate_limit ;;;
  returned <- attempts theme [0; 1; 2] ;;
  match returned with
  | Some q => ret q
  | None =>
      cached <- _get_from_cache theme ;;
      match cached with
      | Some q => ret q
      | None =>
          if LOCAL_OK E then get_local_quote theme
          else ret _get_fallback_quote
      end
  end.

(** [QuoteFetcher.fetch_random_quote]. *)
Definition fetch_random_quote (theme : string) : M quote :=
  now <- time_time ;;
  s <- get_state ;;
  let cache_age := (now - default 0%Q (timestamp (cache s)))%Q in
  cached <-
    (if negb (Qle_bool 300 cache_age) then _get_from_cache theme else ret None) ;;
  match cached with
  | Some q => ret q
  | None => remote_phase theme
  end.

End WithEnv.

End QuoteFetcher.

(** ** hashlib.md5 (RFC 1321), used by src/app/utils/cache_utils.py *)

Module MD5.

Definition word (x : Z) : Z := x mod 2 ^ 32.

Definition rotl (x c : Z) : Z :=
  word (Z.lor (Z.shiftl x c) (Z.shiftr x (32 - c))).

Definition lnot32 (x : Z) : Z := Z.lxor x 0xffffffff.

Definition shifts : list Z :=
  [7; 12; 17; 22; 7; 12; 17; 22; 7; 12; 17; 22; 7; 12; 17; 22;
   5; 9; 14; 20; 5; 9; 14; 20; 5; 9; 14; 20; 5; 9; 14; 20;
   4; 11; 16; 23; 4; 11; 16; 23; 4; 11; 16; 23; 4; 11; 16; 23;
   6; 10; 15; 21; 6; 10; 15; 21; 6; 10; 15; 21; 6; 10; 15; 21].

(** [K[i] = floor(2^32 * abs(sin(i + 1)))]. *)
Definition K : list Z :=
  [
     0xd76aa478; 0xe8c7b756; 0x242070db; 0xc1bdceee;
     0xf57c0faf; 0x4787c62a; 0xa8304613; 0xfd469501;
     0x698098d8; 0x8b44f7af; 0xffff5bb1; 0x895cd7be;
     0x6b901122; 0xfd987193; 0xa679438e; 0x49b40821;
     0xf61e2562; 0xc040b340; 0x265e5a51; 0xe9b6c7aa;
     0xd62f105d; 0x02441453; 0xd8a1e681; 0xe7d3fbc8;
     0x21e1cde6; 0xc33707d6; 0xf4d50d87; 0x455a14ed;
     0xa9e3e905; 0xfcefa3f8; 0x676f02d9; 0x8d2a4c8a;
     0xfffa3942; 0x8771f681; 0x6d9d6122; 0xfde5380c;
     0xa4beea44; 0x4bdecfa9; 0xf6bb4b60; 0xbebfbc70;
     0x289b7ec6; 0xeaa127fa; 0xd4ef3085; 0x04881d05;
     0xd9d4d039; 0xe6db99e5; 0x1fa27cf8; 0xc4ac5665;
     0xf4292244; 0x432aff97; 0xab9423a7; 0xfc93a039;
     0x655b59c3; 0x8f0ccc92; 0xffeff47d; 0x85845dd1;
     0x6fa87e4f; 0xfe2ce6e0; 0xa3014314; 0x4e0811a1;
     0xf7537e82; 0xbd3af235; 0x2ad7d2bb; 0xeb86d391
  ].

Definition bytes_of_string (s : string) : list Z :=
  map (fun c => Z.of_nat (nat_of_ascii c)) (list_ascii_of_string s).

(** [n] as [k] little-endian bytes. *)
Fixpoint le_bytes (k : nat) (n : Z) : list Z :=
  match k with
  | O => []
  | S k' => n mod 256 :: le_bytes k' (n / 256)
  end.

Fixpoint of_le_bytes (bs : list Z) : Z :=
  match bs with
  | [] => 0
  | b :: bs' => b + 256 * of_le_bytes bs'
  end.

(** The message, a 1 bit, zeros up to 56 modulo 64, and the bit length on
    eight bytes. *)
Definition pad (msg : list Z) : list Z :=
  let n := Z.of_nat (List.length msg) in
  let zeros := Z.to_nat ((55 - n) mod 64) in
  msg ++ [0x80] ++ repeat 0 zeros ++ le_bytes 8 ((8 * n) mod 2 ^ 64).

(** The sixteen words of one 64-byte block. *)
Fixpoint words (k : nat) (block : list Z) : list Z :=
  match k with
  | O => []
  | S k' => of_le_bytes (take 4 block) :: words k' (drop 4 block)
  end.

Definition regs : Type := (Z * Z * Z * Z)%type.

Definition round (m : list Z) (r : regs) (i : Z) : regs :=
  let '(a, b, c, d) := r in
  let '(f, g) :=
    if i <? 16 then (Z.lor (Z.land b c) (Z.land (lnot32 b) d), i)
    else if i <? 32 then (Z.lor (Z.land d b) (Z.land (lnot32 d) c), (5 * i + 1) mod 16)
    else if i <? 48 then (Z.lxor (Z.lxor b c) d, (3 * i + 5) mod 16)
    else (Z.lxor c (Z.lor b (lnot32 d)), (7 * i) mod 16) in
  let f := word (f + a + default 0 (K !! Z.to_nat i) + default 0 (m !! Z.to_nat g)) in
  (d, word (b + rotl f (default 0 (shifts !! Z.to_nat i))), b, c).

Definition compress (r : regs) (block : list Z) : regs :=
  let m := words 16 block in
  let '(a, b, c, d) := fold_left (round m) (map Z.of_nat (seq 0 64)) r in
  let '(a0, b0, c0, d0) := r in
  (word (a0 + a), word (b0 + b), word (c0 + c), word (d0 + d)).

Fixpoint blocks (k : nat) (r : regs) (bs : list Z) : regs :=
  match k with
  | O => r
  | S k' => blocks k' (compress r (take 64 bs)) (drop 64 bs)
  end.

Definition digest (msg : list Z) : list Z :=
  let padded := pad msg in
  let '(a, b, c, d) :=
    blocks (List.length padded / 64)%nat
           (0x67452301, 0xefcdab89, 0x98badcfe, 0x10325476) padded in
  le_bytes 4 a ++ le_bytes 4 b ++ le_bytes 4 c ++ le_bytes 4 d.

(** [hashlib.md5(data).hexdigest()]. *)
Definition hexdigest (data : string) : string :=
  fold_right (fun b acc => PyStr.format_02x b +:+ acc) EmptyString
             (digest (bytes_of_string data)).

End MD5.

(** ** src/app/utils/cache_utils.py *)

Module CacheUtils.

Import QuoteRecord.

(** [get_quote_hash]: [hashlib.md5(quote_content.encode()).hexdigest()]. *)
Definition get_quote_hash (quote_content : string) : string :=
  MD5.hexdigest quote_content.

(** [st.session_state.quote_cache] is a Python [set] of strings
    (session.py creates it with [set()]).  A set is given here by the
    sequence in which it is iterated, without repetition.  Python does not
    fix where a new element appears in that sequence: it follows from the
    element's hash and the table, which [place] stands for. *)
Definition pyset : Type := list string.

Section RecentSet.

Variable place : string -> list string -> nat.

(** [x in s]. *)
Definition set_mem (x : string) (s : pyset) : bool :=
  existsb (String.eqb x) s.

(** [s.add(x)]. *)
Definition set_add (x : string) (s : pyset) : pyset :=
  if set_mem x s then s
  else take (place x s) s ++ x :: drop (place x s) s.

(** [list(s)]. *)
Definition list_of_set (s : pyset) : list string := s.

(** [set(l)]. *)
Definition set_of_list (l : list string) : pyset :=
  fold_left (fun s x => set_add x s) l [].

(** The fetcher passed in: an object with a method
    [fetch_random_quote(theme)] acting on its own state [F], which may
    raise and may return [None]. *)
Context {F : Type}.
Variable fetch_random_quote :
  string -> F -> QuoteFetcher.outcome (option quote) * F.

(** The [for attempt in range(max_attempts)] loop.  [Some q] is the
    [return quote_data] inside the loop, [None] its exhaustion. *)
Fixpoint unique_loop (theme : string) (attempts_left : nat) (fetcher : F)
    (quote_cache : pyset) : option quote * F * pyset :=
  match attempts_left with
  | O => (None, fetcher, quote_cache)
  | S attempts_left' =>
      match fetch_random_quote theme fetcher with
      | (QuoteFetcher.Raise _, fetcher') =>
          unique_loop theme attempts_left' fetcher' quote_cache
      | (QuoteFetcher.Return None, fetcher') =>
          unique_loop theme attempts_left' fetcher' quote_cache
      | (QuoteFetcher.Return (Some quote_data), fetcher') =>
          let quote_hash := get_quote_hash (content quote_data) in
          if negb (set_mem quote_hash quote_cache) then
            let quote_cache := set_add quote_hash quote_cache in
            let quote_cache :=
              if (30 <? List.length quote_cache)%nat then
                let cache_list := list_of_set quote_cache in
                let cache_list := tail cache_list in
                set_of_list cache_list
              else quote_cache in
            (Some quote_data, fetcher', quote_cache)
          else unique_loop theme attempts_left' fetcher' quote_cache
      end
  end.

(** [fetch_unique_quote(fetcher, theme, max_attempts)]; the result is
    the returned value ([None] is Python's [None]), the fetcher and the
    recent-set after the call. *)
Definition fetch_unique_quote (fetcher : F) (theme : string) (max_attempts : Z)
    (quote_cache : pyset) : option quote * F * pyset :=
  match unique_loop theme (Z.to_nat max_attempts) fetcher quote_cache with
  | (Some quote_data, fetcher', quote_cache') =>
      (Some quote_data, fetcher', quote_cache')
  | (None, fetcher', _) =>
      match fetch_random_quote theme fetcher' with
      | (QuoteFetcher.Return r, fetcher'') => (r, fetcher'', [])
      | (QuoteFetcher.Raise _, fetcher'') => (None, fetcher'', [])
      end
  end.

End RecentSet.

(** The default of the parameter [max_attempts]. *)
Definition default_max_attempts : Z := 10.

End CacheUtils.


(** ** src/app/design/color_palette.py: the scheme tables and their selection *)

Module ColorSchemes.

(** [class TimeOfDay(Enum)] and [class Emotion(Enum)]. *)
Inductive TimeOfDay : Type := MORNING | AFTERNOON | EVENING | NIGHT.

Inductive Emotion : Type :=
| JOY | MOTIVATION | WISDOM | LOVE | SADNESS | ANGER | FEAR
| POSITIVE | NEUTRAL | NEGATIVE.

(** [[e.value for e in Emotion]], in the order of the class. *)
Definition Emotion_members : list (Emotion * string) :=
[(JOY, "joy"); (MOTIVATION, "motivation"); (WISDOM, "wisdom"); (LOVE, "love");
 (SADNESS, "sadness"); (ANGER, "anger"); (FEAR, "fear"); (POSITIVE, "positive");
 (NEUTRAL, "neutral"); (NEGATIVE, "negative")]%string.

Definition TimeOfDay_members : list (TimeOfDay * string) :=
[(MORNING, "morning"); (AFTERNOON, "afternoon"); (EVENING, "evening");
 (NIGHT, "night")]%string.

(** [Emotion(value)] and [TimeOfDay(value)]: the member with that value;
    [None] is [ValueError]. *)
Definition Emotion_of_value (value : string) : option Emotion :=
fst <$> List.find (fun m => String.eqb value (snd m)) Emotion_members.

Definition TimeOfDay_of_value (value : string) : option TimeOfDay :=
fst <$> List.find (fun m => String.eqb value (snd m)) TimeOfDay_members.

(** [@dataclass class ColorScheme]. *)
Record ColorScheme : Type := {
  background : string;
  text : string;
  accent : string;
  name : option string
}.

Definition mk (bg tx ac nm : string) : ColorScheme :=
{| background := bg; text := tx; accent := ac; name := Some nm |}.

(** [ColorScheme.to_list]. *)
Definition to_list (c : ColorScheme) : list string :=
[background c; text c; accent c].

(** [ColorPalette.EMOTION_SCHEMES], a dict keyed by the enumeration. *)
Definition EMOTION_SCHEMES (e : Emotion) : list ColorScheme :=
match e with
| JOY =>
    [mk "#FFD93D" "#2C2C2C" "#FF6B6B" "Sunshine";
     mk "#F9A825" "#FFFFFF" "#EF5350" "Golden Hour";
     mk "#FFC107" "#1A1A1A" "#FF7043" "Radiant"]
| MOTIVATION =>
    [mk "#E63946" "#FFFFFF" "#457B9D" "Power";
     mk "#D62828" "#F8F9FA" "#023E8A" "Drive";
     mk "#C9184A" "#FFFFFF" "#0077B6" "Ambition"]
| WISDOM =>
    [mk "#2C3E50" "#ECF0F1" "#95A5A6" "Sage";
     mk "#34495E" "#FDFEFE" "#7F8C8D" "Philosopher";
     mk "#283747" "#EAECEE" "#85929E" "Scholar"]
| LOVE =>
    [mk "#E91E63" "#FFFFFF" "#F06292" "Passion";
     mk "#AD1457" "#FAFAFA" "#EC407A" "Romance";
     mk "#C2185B" "#FFFFFF" "#F48FB1" "Affection"]
| SADNESS =>
    [mk "#546E7A" "#ECEFF1" "#90A4AE" "Melancholy";
     mk "#455A64" "#F5F5F5" "#78909C" "Contemplation";
     mk "#37474F" "#FAFAFA" "#607D8B" "Reflection"]
| ANGER =>
    [mk "#B71C1C" "#FFFFFF" "#E53935" "Fury";
     mk "#C62828" "#FAFAFA" "#EF5350" "Rage";
     mk "#D32F2F" "#F5F5F5" "#F44336" "Intensity"]
| FEAR =>
    [mk "#263238" "#ECEFF1" "#546E7A" "Shadow";
     mk "#37474F" "#E0E0E0" "#607D8B" "Unease";
     mk "#455A64" "#CFD8DC" "#78909C" "Anxiety"]
| POSITIVE =>
    [mk "#00BCD4" "#FFFFFF" "#0097A7" "Optimism";
     mk "#00ACC1" "#FAFAFA" "#00838F" "Hope";
     mk "#0097A7" "#F5F5F5" "#006064" "Brightness"]
| NEUTRAL =>
    [mk "#607D8B" "#FFFFFF" "#455A64" "Balance";
     mk "#78909C" "#FAFAFA" "#546E7A" "Equilibrium";
     mk "#90A4AE" "#F5F5F5" "#37474F" "Calm"]
| NEGATIVE =>
    [mk "#5D4037" "#EFEBE9" "#8D6E63" "Somber";
     mk "#4E342E" "#F5F5F5" "#795548" "Grave";
     mk "#3E2723" "#FAFAFA" "#6D4C41" "Heavy"]
end.

(** [ColorPalette.TIME_SCHEMES]. *)
Definition TIME_SCHEMES (t : TimeOfDay) : list ColorScheme :=
match t with
| MORNING =>
    [mk "#FFB74D" "#FFFFFF" "#FF9800" "Sunrise";
     mk "#FFA726" "#FAFAFA" "#FB8C00" "Dawn";
     mk "#FF9800" "#F5F5F5" "#F57C00" "Morning Light"]
| AFTERNOON =>
    [mk "#42A5F5" "#FFFFFF" "#1E88E5" "Blue Sky";
     mk "#2196F3" "#FAFAFA" "#1976D2" "Clear Day";
     mk "#1E88E5" "#F5F5F5" "#1565C0" "Daylight"]
| EVENING =>
    [mk "#7E57C2" "#FFFFFF" "#5E35B1" "Dusk";
     mk "#673AB7" "#FAFAFA" "#512DA8" "Twilight";
     mk "#5E35B1" "#F5F5F5" "#4527A0" "Sunset"]
| NIGHT =>
    [mk "#1A237E" "#E8EAF6" "#283593" "Midnight";
     mk "#0D47A1" "#E3F2FD" "#1565C0" "Deep Night";
     mk "#01579B" "#E1F5FE" "#0277BD" "Starry"]
end.

(** [ColorPalette.DARK_SCHEMES]. *)
Definition DARK_SCHEMES : list ColorScheme :=
[mk "#0F172A" "#F1F5F9" "#06B6D4" "Slate Dark";
 mk "#1E293B" "#E2E8F0" "#8B5CF6" "Navy Dark";
 mk "#18181B" "#FAFAFA" "#A855F7" "Zinc Dark";
 mk "#0A0A0A" "#F5F5F5" "#EC4899" "Black Dark"].

(** The enumeration member of an emotion name:
    [try: Emotion(emotion.lower()) except ValueError: Emotion.NEUTRAL]. *)
Definition emotion_enum (emotion : string) : Emotion :=
default NEUTRAL (Emotion_of_value (PyStr.lower emotion)).

(** [ColorPalette.get_scheme_for_emotion]: [schemes[variant % len(schemes)]];
    [None] is an exception ([ZeroDivisionError] or [IndexError]). *)
Definition get_scheme_for_emotion (emotion : string) (variant : Z) : option ColorScheme :=
let schemes := EMOTION_SCHEMES (emotion_enum emotion) in
match schemes with
| [] => None
| _ =>
    let variant_index := variant mod Z.of_nat (List.length schemes) in
    schemes !! Z.to_nat variant_index
end.

(** [ColorPalette.get_random_scheme_for_emotion], with the random draw
    [r]. *)
Definition get_random_scheme_for_emotion (r : nat) (emotion : string) : option ColorScheme :=
LocalQuotes.choice r (EMOTION_SCHEMES (emotion_enum emotion)).

(** [ColorPalette.get_scheme_for_time]: an unknown period is the
    afternoon. *)
Definition get_scheme_for_time (r : nat) (period : string) : option ColorScheme :=
let time_enum := default AFTERNOON (TimeOfDay_of_value (PyStr.lower period)) in
LocalQuotes.choice r (TIME_SCHEMES time_enum).

(** [ColorPalette.get_dark_scheme]. *)
Definition get_dark_scheme (r : nat) : option ColorScheme :=
LocalQuotes.choice r DARK_SCHEMES.

(** [str(x)] inside an f-string, for an optional string and a boolean. *)
Definition str_of_optional (o : option string) : string :=
match o with Some s => s | None => "None" end.

Definition str_of_bool (b : bool) : string :=
if b then "True" else "False".

(** The key of the memo table: [f"{emotion}_{time_period}_{prefer_dark}"]. *)
Definition cache_key (emotion : string) (time_period : option string) (prefer_dark : bool)
    : string :=
emotion +:+ "_" +:+ str_of_optional time_period +:+ "_" +:+ str_of_bool prefer_dark.

(** [ColorPalette.get_intelligent_palette] on the memo table [_cache]:
    the palette returned and the table after the call. *)
Definition get_intelligent_palette (r : nat) (emotion : string)
    (time_period : option string) (prefer_dark : bool)
    (_cache : gmap string (list string))
    : option (list string * gmap string (list string)) :=
let key := cache_key emotion time_period prefer_dark in
match _cache !! key with
| Some palette => Some (palette, _cache)
| None =>
    scheme ←
      (if prefer_dark then get_dark_scheme r
       else if bool_decide (time_period = Some "night"%string)
            then get_scheme_for_time r "night"
            else get_random_scheme_for_emotion r emotion);
    let palette := to_list scheme in
    Some (palette, <[key := palette]> _cache)
end.

(** [ColorPalette.get_all_variants]. *)
Definition get_all_variants (emotion : string) : list ColorScheme :=
EMOTION_SCHEMES (emotion_enum emotion).

(** [ColorPalette.get_available_emotions]. *)
Definition get_available_emotions : list string := map snd Emotion_members.

(** [ColorPalette.create_custom_scheme]; [None] is the [ValueError] of a
    background that is not hexadecimal. *)
Definition create_custom_scheme (bg tx ac : string) (nm : option string)
    : option ColorScheme :=
adjusted_text ← ColorPalette.ensure_contrast bg tx 125;
Some {| background := bg; text := adjusted_text; accent := ac;
        name := Some (match nm with
                      | Some n => if String.eqb n EmptyString then "Custom" else n
                      | None => "Custom"
                      end)%string |}.

(** [ColorPalette.get_scheme_preview]: a dict comprehension keyed by
    [f"{scheme.name}"]; a later scheme replaces an earlier one of the same
    name. *)
Definition get_scheme_preview (emotion : string) : gmap string ColorScheme :=
fold_left (fun d scheme => <[str_of_optional (name scheme) := scheme]> d)
          (get_all_variants emotion) ∅.

End ColorSchemes.

(** ** src/app/design/image_generator.py: font discovery and loading *)

Module FontLoader.

Import ImageGenerator.

(** [c.upper()] on one character (a-z) and [s.capitalize()]. *)
Definition upper_char (c : ascii) : ascii :=
let n := nat_of_ascii c in
if ((97 <=? n) && (n <=? 122))%nat then ascii_of_nat (n - 32) else c.

Definition capitalize (s : string) : string :=
match s with
| EmptyString => EmptyString
| String c r => String (upper_char c) (PyStr.lower r)
end.

(** The font files of the machine: which paths exist, what
    [ImageFont.truetype(path, size)] loads ([None] when it raises), and the
    built-in font of [ImageFont.load_default()]. *)
Record font_files : Type := {
  path_exists : string -> bool;
  truetype : string -> Z -> option font;
  load_default : font
}.

(** The list [font_paths] of [_discover_system_fonts]: path, family,
    weight. *)
Definition font_paths : list (string * string * string) :=
[("/usr/share/fonts/truetype/dejavu/DejaVuSans.ttf",
  "DejaVu Sans", "regular");
 ("/usr/share/fonts/truetype/dejavu/DejaVuSans-Bold.ttf",
  "DejaVu Sans", "bold");
 ("/usr/share/fonts/truetype/dejavu/DejaVuSerif.ttf",
  "DejaVu Serif", "regular");
 ("/usr/share/fonts/truetype/dejavu/DejaVuSerif-Bold.ttf",
  "DejaVu Serif", "bold");
 ("/usr/share/fonts/truetype/liberation/LiberationSans-Regular.ttf",
  "Liberation Sans", "regular");
 ("/usr/share/fonts/truetype/liberation/LiberationSans-Bold.ttf",
  "Liberation Sans", "bold");
 ("/usr/share/fonts/truetype/liberation/LiberationSerif-Regular.ttf",
  "Liberation Serif", "regular");
 ("/usr/share/fonts/truetype/liberation/LiberationSerif-Bold.ttf",
  "Liberation Serif", "bold");
 ("/usr/share/fonts/truetype/ubuntu/Ubuntu-R.ttf",
  "Ubuntu", "regular");
 ("/usr/share/fonts/truetype/ubuntu/Ubuntu-B.ttf",
  "Ubuntu", "bold");
 ("/usr/share/fonts/truetype/noto/NotoSans-Regular.ttf",
  "Noto Sans", "regular");
 ("/usr/share/fonts/truetype/noto/NotoSans-Bold.ttf",
  "Noto Sans", "bold")]%string.

(** [ImageGenerator._discover_system_fonts]: family to weight to path. *)
Definition _discover_system_fonts (fs : font_files)
    : gmap string (gmap string (option string)) :=
let fonts :=
  fold_left
    (fun (fonts : gmap string (gmap string (option string))) '(path, family, weight) =>
       if path_exists fs path then
         <[family := <[weight := Some path]> (default ∅ (fonts !! family))]> fonts
       else fonts)
    font_paths ∅ in
if decide (fonts = ∅) then
  {[ "DejaVu Sans"%string :=
       <["regular"%string := None]> (<["bold"%string := None]> ∅) ]}
else fonts.

(** [if font_path and Path(font_path).exists()]. *)
Definition usable (fs : font_files) (font_path : option string) : option string :=
match font_path with
| Some p =>
    if negb (String.eqb p EmptyString) && path_exists fs p then Some p else None
| None => None
end.

(** The two paths of [fallback_paths]. *)
Definition fallback_paths (weight : string) : list string :=
["/usr/share/fonts/truetype/dejavu/DejaVuSans-" +:+ capitalize weight +:+ ".ttf";
 "/usr/share/fonts/truetype/dejavu/DejaVuSans.ttf"]%string.

(** [ImageGenerator._get_font] on [self.available_fonts] and
    [self.fonts_cache]: the font returned and the cache after the call.  A
    [truetype] that raises leaves the [try] block for its handler, which
    returns the built-in font. *)
Definition _get_font (fs : font_files)
    (available_fonts : gmap string (gmap string (option string)))
    (fonts_cache : gmap string font) (size : Z) (weight family : string)
    : font * gmap string font :=
let cache_key := family +:+ "_" +:+ weight +:+ "_" +:+ PyStr.str_of_Z size in
let load (path : string) :=
  match truetype fs path size with
  | Some f => (f, <[cache_key := f]> fonts_cache)
  | None => (load_default fs, fonts_cache)
  end in
match fonts_cache !! cache_key with
| Some f => (f, fonts_cache)
| None =>
    match usable fs (w ← available_fonts !! family; mjoin (w !! weight)) with
    | Some path => load path
    | None =>
        match
          (if String.eqb weight "bold" then
             usable fs (w ← available_fonts !! family; mjoin (w !! "regular"%string))
           else None)
        with
        | Some path => load path
        | None =>
            match List.find (path_exists fs) (fallback_paths weight) with
            | Some path => load path
            | None => (load_default fs, fonts_cache)
            end
        end
    end
end.

End FontLoader.

(** ** Vocabulary of the statements and sample surroundings *)

Module ColorAux.

Import ColorPalette.

Definition hex_chars : list ascii :=
  list_ascii_of_string "0123456789abcdefABCDEF".

(** Two digits read by [int] and written back by the format give the
    same two digits in lower case. *)
Definition pair_ok (a b : ascii) : bool :=
  match PyStr.int16 (String a (String b EmptyString)) with
  | Some v =>
      String.eqb (PyStr.format_02x v)
                 (String (PyStr.lower_char a) (String (PyStr.lower_char b) EmptyString))
      && (0 <=? v) && (v <=? 255)
  | None => false
  end.

End ColorAux.

Module StrAux.

Import PyStr.

(** A string without any whitespace character. *)
Fixpoint nospace (s : string) : Prop :=
  match s with
  | EmptyString => True
  | String c r => is_space c = false /\ nospace r
  end.

(** A word: not empty and free of whitespace. *)
Definition is_word (w : string) : Prop := w <> EmptyString /\ nospace w.

End StrAux.

Module LayoutAux.

Import ImageGenerator.

(** Closing the last line, as [_wrap_text] does after its loop. *)
Definition close_line (lines current_line : list string) : list string :=
match current_line with
| [] => lines
| _ => lines ++ [PyStr.join " " current_line]
end.

(** The lines computed from the words alone, before the fallback to the
    text itself. *)
Definition lines_of (f : font) (max_width : Z) (words : list string) : list string :=
let '(lines, current_line) := wrap_loop f max_width words [] [] in
close_line lines current_line.

End LayoutAux.

Module ThemeAux.


End ThemeAux.

Module FetcherAux.

Import QuoteRecord QuoteFetcher.

(** The events a run added to the log, the times of the remote calls among
    them, and the records fetched. *)
Definition new_events (s s' : state) : list event :=
drop (List.length (trace s)) (trace s').

Definition requests_in (evs : list event) : list Q :=
flat_map (fun e => match e with Requested t => [t] | Fetched _ => [] end) evs.

Definition fetched_in (evs : list event) : list quote :=
flat_map (fun e => match e with Requested _ => [] | Fetched q => [q] end) evs.

(** Storing a sequence of fetched records, one after the other. *)
Definition store_all (held : option (list quote)) (qs : list quote) : option (list quote) :=
fold_left (fun c q => Some (cache_append c q)) qs held.

(** Neither a sleep returns early nor an exchange takes negative time. *)
Definition well_timed (E : env) : Prop :=
(forall i, 0 <= oversleep E i)%Q /\ (forall i, 0 <= (net E i).1)%Q.

(** A step that leaves the fetcher, the clock and the log alone. *)
Definition quiet (s s' : state) : Prop :=
cache s' = cache s /\ last_request_time s' = last_request_time s
/\ clock s' = clock s /\ trace s' = trace s /\ pool s' = pool s.

(** What a part of a fetch may do: extend the log, store the records it
    fetched in the order it fetched them, keep the stamp and the pool, and,
    when the clock behaves, move forward in time with every remote call
    issued no earlier than its start. *)
Definition progress (E : env) (s s' : state) (evs : list event) : Prop :=
trace s' = trace s ++ evs
/\ last_request_time s' = last_request_time s
/\ pool s' = pool s
/\ quotes (cache s') = store_all (quotes (cache s)) (fetched_in evs)
/\ (well_timed E ->
    (clock s <= clock s')%Q /\ forall t, In t (requests_in evs) -> (clock s <= t)%Q).

(** The shape of a run that reached the remote phase: the stamp is taken
    at least the minimum delay after the previous one, the first event is
    a remote call at the time of the stamp, and no remote call of the run
    is earlier. *)
Definition remote_shape (s s' : state) (evs : list event) : Prop :=
(last_request_time s + MIN_REQUEST_DELAY <= last_request_time s')%Q
/\ (clock s <= last_request_time s')%Q
/\ (exists rest, evs = Requested (last_request_time s') :: rest)
/\ forall t, In t (requests_in evs) -> (last_request_time s' <= t)%Q.

Definition cache_size (c : cache_t) : nat := List.length (default [] (quotes c)).

End FetcherAux.

Module Samples.

Import QuoteRecord ImageGenerator QuoteFetcher CacheUtils.

(** A fixed-pitch font, ten pixels a code point, and a generator of the
    default size that resolves every request to it. *)
Definition fixed_pitch : font :=
{| getbbox := fun s => (0, 0, 10 * PyStr.len s, 12); getname := None |}.

Definition sample_generator : generator :=
{| size := DEFAULT_SIZE; _get_font := fun _ _ _ => fixed_pitch |}.

(** A hash function for the examples. *)
Definition sample_hash (s : string) : Z := 7 * PyStr.len s - 300.

(** A surrounding in which every remote call fails after half a time unit,
    sleeps are exact, and the disk works. *)
Definition offline_env : env :=
{| LOCAL_OK := true;
   pyhash := sample_hash;
   net := fun _ => (1 # 2, ConnectionFailed)%Q;
   oversleep := fun _ => 0%Q;
   draw := fun i => i;
   mkdir_fails := fun _ => false;
   write := fun _ => Written |}.

(** A surrounding in which the remote source answers with a quote and the
    directory of the cache file cannot be created. *)
Definition mkdir_denied_env : env :=
{| LOCAL_OK := true;
   pyhash := sample_hash;
   net := fun _ =>
     (1 # 2,
      Http 200 (Some (JList [JObj [("q", JStr "You can do it and achieve success");
                                   ("a", JStr "X"); ("h", JStr "abc")]])))%Q;
   oversleep := fun _ => 0%Q;
   draw := fun i => i;
   mkdir_fails := fun _ => true;
   write := fun _ => Written |}.

(** An iteration order that follows the elements themselves, as the slots
    of a hash table do, and not the time they were added: the elements
    come in increasing order. *)
Definition sorted_place (x : string) (s : list string) : nat :=
List.length (filter (fun y => String.ltb y x) s).

(** A fetcher that returns a new quote at every call; its state is the
    number of calls made. *)
Definition numbered_quote (n : nat) : quote :=
let text := "citation " +:+ PyStr.str_of_Z (Z.of_nat n) in
{| content := text; author := JStr "Unknown"; tags := []; theme := None;
   length := Some (PyStr.len text); id := Some (JStr text);
   source := Some "zenquotes"%string |}.

Definition numbered_fetcher (theme : string) (calls : nat)
    : QuoteFetcher.outcome (option quote) * nat :=
(QuoteFetcher.Return (Some (numbered_quote calls)), S calls).

(** [k] calls of [fetch_unique_quote] in a row with the default number of
    attempts, and the recent-set they leave. *)
Fixpoint session (place : string -> list string -> nat) (k : nat) (calls : nat)
    (quote_cache : pyset) : nat * pyset :=
match k with
| O => (calls, quote_cache)
| S k' =>
    let '(_, calls', quote_cache') :=
      fetch_unique_quote place numbered_fetcher calls "auto" default_max_attempts
                         quote_cache in
    session place k' calls' quote_cache'
end.

Definition hash_of (n : nat) : string := get_quote_hash (content (numbered_quote n)).

End Samples.

Module MoreAux.

Import QuoteRecord QuoteFetcher.

(** The record one exchange yields, as [_fetch_single_quote] reads it. *)
Definition response_record (E : env) (r : response) : option quote :=
match r with
| ConnectionFailed => None
| Http status body =>
    if (400 <=? status) && (status <? 600) then None
    else match body with
         | Some data => build_quote E data
         | None => None
         end
end.

(** No exchange yields a record. *)
Definition remote_down (E : env) : Prop :=
forall i, response_record E (net E i).2 = None.

(** The cache directory can be created and the file written. *)
Definition disk_works (E : env) : Prop :=
(forall i, mkdir_fails E i = false) /\ (forall i, write E i = Written).

(** The records held by a cache. *)
Definition held (c : cache_t) : list quote := default [] (quotes c).

(** A palette of three colours written [#RRGGBB]. *)
Definition valid_palette (p : list string) : Prop :=
exists bg tx ac,
  p = [bg; tx; ac]
  /\ ColorPalette.is_hex_color bg = true
  /\ ColorPalette.is_hex_color tx = true
  /\ ColorPalette.is_hex_color ac = true.

(** The candidate paths of [_get_font], in the order they are tried. *)
Definition font_candidates (available_fonts : gmap string (gmap string (option string)))
    (weight family : string) : list string :=
let of_weight (w : string) : list string :=
  match (m ← available_fonts !! family; mjoin (m !! w)) with
  | Some p => if String.eqb p EmptyString then [] else [p]
  | None => []
  end in
of_weight weight
++ (if String.eqb weight "bold" then of_weight "regular"%string else [])
++ FontLoader.fallback_paths weight.

(** A surrounding in which the remote source answers every call with the
    same quote after half a time unit and the disk works. *)
Definition online_env : env :=
{| LOCAL_OK := true;
   pyhash := Samples.sample_hash;
   net := fun _ =>
     (1 # 2,
      Http 200 (Some (JList [JObj [("q", JStr "You can do it and achieve success");
                                   ("a", JStr "X"); ("h", JStr "abc")]])))%Q;
   oversleep := fun _ => 0%Q;
   draw := fun i => i;
   mkdir_fails := fun _ => false;
   write := fun _ => Written |}.

(** A fetcher that returns the same quote at every call. *)
Definition constant_fetcher (theme : string) (calls : nat)
    : QuoteFetcher.outcome (option quote) * nat :=
(QuoteFetcher.Return (Some (Samples.numbered_quote 0)), S calls).

(** Font files with the two DejaVu Sans faces only. *)
Definition dejavu_only : FontLoader.font_files :=
{| FontLoader.path_exists := fun p =>
     String.eqb p "/usr/share/fonts/truetype/dejavu/DejaVuSans.ttf"
     || String.eqb p "/usr/share/fonts/truetype/dejavu/DejaVuSans-Bold.ttf";
   FontLoader.truetype := fun _ _ => Some Samples.fixed_pitch;
   FontLoader.load_default := Samples.fixed_pitch |}.

End MoreAux.

(** Vocabulary of the further properties. *)

Module MoreVocabulary.

Import QuoteRecord ColorPalette ColorSchemes ImageGenerator QuoteFetcher CacheUtils MoreAux.

(** A channel value written by the format and read back. *)
Definition byte_ok (v : Z) : bool :=
match PyStr.format_02x v with
| String a (String b EmptyString) =>
    is_hex_digit a && is_hex_digit b
    && bool_decide (PyStr.int16 (String a (String b EmptyString)) = Some v)
| _ => false
end.

(** Every scheme of the three tables has three valid colours. *)
Definition scheme_ok (sc : ColorScheme) : bool :=
is_hex_color (background sc) && is_hex_color (text sc) && is_hex_color (accent sc).

(** Every entry of the memo table is a valid palette. *)
Definition cache_ok (c : gmap string (list string)) : Prop :=
forall k p, c !! k = Some p -> valid_palette p.

(** The font, the width and the lines [create_image] computes before it
    draws, for a generator, a text, a style and a font family. *)
Definition layout_font (self : generator) (quote_text font_family : string) : font :=
_get_font self (_calculate_font_size (PyStr.len quote_text)) "bold" font_family.

Definition layout_lines (self : generator) (quote_text style font_family : string)
    : list string :=
let padding := default 100 (PADDING_BY_STYLE !! style) in
_wrap_text quote_text (layout_font self quote_text font_family)
           ((size self).1 - 2 * padding).

(** The strings passed to [draw.text], in the order of the calls. *)
Definition texts_of (ops : list draw_op) : list string :=
flat_map (fun op => match op with DrawText _ t _ _ => [t] | _ => [] end) ops.

(** A line fits the width, or is a single word of the text. *)
Definition fits_or_word (f : font) (max_width : Z) (words : list string) (line : string)
    : Prop :=
text_width f line <= max_width \/ In line words.

(** The key of [fonts_cache]: [f"{family}_{weight}_{size}"]. *)
Definition font_cache_key (size : Z) (weight family : string) : string :=
family +:+ "_" +:+ weight +:+ "_" +:+ PyStr.str_of_Z size.

(** The font [_get_font] returns when [path] is the first candidate that
    exists: the loaded font, memoised, or the built-in font when loading
    raises. *)
Definition font_from (fs : FontLoader.font_files) (fonts_cache : gmap string font)
    (size : Z) (weight family : string) (path : option string)
    : font * gmap string font :=
match path with
| Some p =>
    match FontLoader.truetype fs p size with
    | Some f => (f, <[font_cache_key size weight family := f]> fonts_cache)
    | None => (FontLoader.load_default fs, fonts_cache)
    end
| None => (FontLoader.load_default fs, fonts_cache)
end.

(** The table being built holds only paths that exist and come from the
    list. *)
Definition sound_table (fs : FontLoader.font_files) (fonts : gmap string (gmap string (option string)))
    : Prop :=
forall family weight (m : gmap string (option string)) (p : string),
  fonts !! family = Some m -> m !! weight = Some (Some p) ->
  FontLoader.path_exists fs p = true /\ In (p, family, weight) FontLoader.font_paths.

(** Every result of the fetcher is a quote whose hash is in the set. *)
Definition always_seen {F : Type}
    (fetch : string -> F -> QuoteFetcher.outcome (option quote) * F)
    (theme : string) (quote_cache : pyset) : Prop :=
forall fetcher,
  exists q fetcher',
    fetch theme fetcher = (QuoteFetcher.Return (Some q), fetcher')
    /\ existsb (String.eqb (get_quote_hash (content q))) quote_cache = true.

(** Two lower-case hexadecimal digits for every byte. *)
Definition byte_hex_ok (v : Z) : bool :=
match PyStr.format_02x v with
| String a (String b EmptyString) =>
    ColorPalette.is_hex_digit a && ColorPalette.is_hex_digit b
    && Ascii.eqb (PyStr.lower_char a) a && Ascii.eqb (PyStr.lower_char b) b
| _ => false
end.

(** A record as [_fetch_single_quote] builds it. *)
Definition remote_record (q : quote) : Prop :=
source q = Some "zenquotes"%string /\ tags q = []
/\ QuoteRecord.length q = Some (PyStr.len (content q)).

(** The cache is consulted first and answers: it is less than 300 time
    units old and holds a record. *)
Definition fresh (s : state) : Prop :=
(clock s - default 0 (timestamp (cache s)) < 300)%Q /\ held (cache s) <> [].

(** A step that leaves the fetcher, the cache file, the clock, the pool
    and the log as they are. *)
Definition untouched (s s' : state) : Prop :=
cache s' = cache s /\ disk s' = disk s /\ trace s' = trace s /\ pool s' = pool s
/\ last_request_time s' = last_request_time s /\ clock s' = clock s.

(** Where the last resort of a fetch takes its record: the local pool,
    whose entry is assigned to, or the built-in record. *)
Definition from_pool_or_fallback (E : env) (s : state) (q : quote) : Prop :=
if LOCAL_OK E
then exists i entry, pool s !! i = Some entry /\ q = LocalQuotes.stamp (pyhash E) entry
else q = _get_fallback_quote.

(** What at most [k] remote attempts leave behind. *)
Definition attempts_summary (E : env) (theme : string) (k : nat) (s : state)
    (o : outcome (option quote)) (s' : state) : Prop :=
exists evs,
  trace s' = trace s ++ evs
  /\ pool s' = pool s
  /\ last_request_time s' = last_request_time s
  /\ (List.length (FetcherAux.requests_in evs) <= k)%nat
  /\ (List.length (FetcherAux.fetched_in evs)
      <= List.length (FetcherAux.requests_in evs))%nat
  /\ Forall remote_record (FetcherAux.fetched_in evs)
  /\ (FetcherAux.fetched_in evs = [] -> cache s' = cache s /\ disk s' = disk s)
  /\ (FetcherAux.fetched_in evs <> [] ->
      held (cache s') <> []
      /\ exists t, timestamp (cache s') = Some t
                   /\ (FetcherAux.well_timed E -> (clock s <= t)%Q))
  /\ (disk_works E -> FetcherAux.fetched_in evs <> [] -> disk s' = Stored (cache s'))
  /\ (o = Return None -> List.length (FetcherAux.requests_in evs) = k)
  /\ (forall q, o = Return (Some q) ->
        _matches_theme q theme = true /\ In q (held (cache s')))
  /\ (remote_down E -> o = Return None /\ FetcherAux.fetched_in evs = [])
  /\ (FetcherAux.well_timed E -> (clock s <= clock s')%Q).

(** What one call of [fetch_random_quote] leaves behind. *)
Definition fetch_summary (E : env) (theme : string) (s : state)
    (o : outcome quote) (s' : state) : Prop :=
exists evs,
  trace s' = trace s ++ evs
  /\ (List.length (FetcherAux.requests_in evs) <= 3)%nat
  /\ (List.length (FetcherAux.fetched_in evs)
      <= List.length (FetcherAux.requests_in evs))%nat
  /\ Forall remote_record (FetcherAux.fetched_in evs)
  /\ (FetcherAux.fetched_in evs = [] -> cache s' = cache s /\ disk s' = disk s)
  /\ (FetcherAux.fetched_in evs <> [] ->
      held (cache s') <> []
      /\ exists t, timestamp (cache s') = Some t
                   /\ (FetcherAux.well_timed E -> (clock s <= t)%Q))
  /\ (disk_works E -> FetcherAux.fetched_in evs <> [] -> disk s' = Stored (cache s'))
  /\ (forall q, o = Return q ->
        In q (held (cache s'))
        \/ (held (cache s') = []
            /\ List.length (FetcherAux.requests_in evs) = 3%nat
            /\ from_pool_or_fallback E s q))
  /\ (remote_down E -> (LOCAL_OK E = true -> pool s <> []) ->
      (exists q, o = Return q)
      /\ FetcherAux.fetched_in evs = []
      /\ (fresh s -> FetcherAux.requests_in evs = [])
      /\ (~ fresh s -> List.length (FetcherAux.requests_in evs) = 3%nat)).

(** A fetcher at time 100 whose cache file holds one record stored at
    time 50. *)
Definition warm_state : state :=
init 100 (Stored {| quotes := Some [Samples.numbered_quote 0]; timestamp := Some 50%Q |}).

End MoreVocabulary.

(** * Properties *)

(** ** Colour conversions *)

Module ColorFacts.

Import ColorPalette ColorAux.

Lemma hex_digit_listed (c : ascii) :
  is_hex_digit c = true -> In c hex_chars.
Proof.
  destruct c as [[|] [|] [|] [|] [|] [|] [|] [|]];
    intros H; vm_compute in H; try discriminate H;
    vm_compute; repeat (first [left; reflexivity | right]).
Qed.

Lemma all_pairs_ok :
  forallb (fun a => forallb (pair_ok a) hex_chars) hex_chars = true.
Proof. vm_compute. reflexivity. Qed.

Lemma hex_pair (a b : ascii) :
  is_hex_digit a = true -> is_hex_digit b = true ->
  exists v,
    PyStr.int16 (String a (String b EmptyString)) = Some v
    /\ PyStr.format_02x v
       = String (PyStr.lower_char a) (String (PyStr.lower_char b) EmptyString)
    /\ 0 <= v <= 255.
Proof.
  intros Ha Hb.
  pose proof all_pairs_ok as Hall.
  rewrite forallb_forall in Hall.
  specialize (Hall a (hex_digit_listed a Ha)).
  rewrite forallb_forall in Hall.
  specialize (Hall b (hex_digit_listed b Hb)).
  unfold pair_ok in Hall.
  destruct (PyStr.int16 (String a (String b EmptyString))) as [v|]; [|discriminate].
  apply andb_prop in Hall as [Hall Hhi].
  apply andb_prop in Hall as [Hfmt Hlo].
  exists v. split; [reflexivity|]. split.
  - apply String.eqb_eq; exact Hfmt.
  - lia.
Qed.

Lemma hex_digit_not_hash (c : ascii) :
  is_hex_digit c = true -> Ascii.eqb c "#" = false.
Proof.
  intros H. apply hex_digit_listed in H.
  vm_compute in H.
  repeat (destruct H as [H|H]; [subst c; reflexivity|]).
  destruct H.
Qed.

(** The shape of a [#RRGGBB] colour. *)
Lemma hex_color_shape (c : string) :
  is_hex_color c = true ->
  exists d1 d2 d3 d4 d5 d6,
    c = String "#" (String d1 (String d2 (String d3 (String d4
          (String d5 (String d6 EmptyString))))))
    /\ is_hex_digit d1 = true /\ is_hex_digit d2 = true
    /\ is_hex_digit d3 = true /\ is_hex_digit d4 = true
    /\ is_hex_digit d5 = true /\ is_hex_digit d6 = true.
Proof.
  unfold is_hex_color.
  destruct c as [|h r]; [discriminate|].
  destruct (Ascii.eqb_spec h "#") as [->|Hne].
  2:{ intros H. exfalso.
      destruct h as [[|] [|] [|] [|] [|] [|] [|] [|]];
        first [discriminate H | apply Hne; reflexivity]. }
  intros H.
  assert (H' : (String.length r =? 6)%nat
               && forallb is_hex_digit (list_ascii_of_string r) = true) by exact H.
  clear H. apply andb_prop in H' as [Hlen Hall].
  apply Nat.eqb_eq in Hlen.
  destruct r as [|d1 [|d2 [|d3 [|d4 [|d5 [|d6 [|d7 r]]]]]]]; try discriminate Hlen.
  cbn [list_ascii_of_string forallb] in Hall.
  repeat (apply andb_prop in Hall as [? Hall]).
  exists d1, d2, d3, d4, d5, d6. repeat split; assumption.
Qed.

(** On a [#RRGGBB] colour [hex_to_rgb] succeeds, with channels in
    0..255, and [rgb_to_hex] writes the digits back in lower case. *)
Lemma hex_to_rgb_valid (c : string) :
  is_hex_color c = true ->
  exists r g b,
    hex_to_rgb c = Some (r, g, b)
    /\ 0 <= r <= 255 /\ 0 <= g <= 255 /\ 0 <= b <= 255
    /\ rgb_to_hex (r, g, b) = PyStr.lower c.
Proof.
  intros H.
  destruct (hex_color_shape c H)
    as (d1 & d2 & d3 & d4 & d5 & d6 & -> & H1 & H2 & H3 & H4 & H5 & H6).
  destruct (hex_pair d1 d2 H1 H2) as (r & Er & Fr & Br).
  destruct (hex_pair d3 d4 H3 H4) as (g & Eg & Fg & Bg).
  destruct (hex_pair d5 d6 H5 H6) as (b & Eb & Fb & Bb).
  exists r, g, b.
  unfold hex_to_rgb.
  cbn [PyStr.lstrip].
  change (Ascii.eqb "#" "#") with true. cbv iota.
  cbn [PyStr.lstrip]. rewrite (hex_digit_not_hash d1 H1).
  change (PyStr.slice 0 2 (String d1 (String d2 (String d3 (String d4
            (String d5 (String d6 EmptyString)))))))
    with (String d1 (String d2 EmptyString)).
  change (PyStr.slice 2 4 (String d1 (String d2 (String d3 (String d4
            (String d5 (String d6 EmptyString)))))))
    with (String d3 (String d4 EmptyString)).
  change (PyStr.slice 4 6 (String d1 (String d2 (String d3 (String d4
            (String d5 (String d6 EmptyString)))))))
    with (String d5 (String d6 EmptyString)).
  rewrite Er, Eg, Eb.
  repeat split; try lia.
  unfold rgb_to_hex. rewrite Fr, Fg, Fb. reflexivity.
Qed.

(** C5 (as stated, refuted): the palette colour [#FFD700] is a valid
    six-digit colour, and converting it to RGB and back yields [#ffd700],
    which is a different string. *)
Lemma C5_roundtrip_upper_case_differs :
  is_hex_color "#FFD700" = true
  /\ rgb_to_hex <$> hex_to_rgb "#FFD700" = Some "#ffd700"%string
  /\ rgb_to_hex <$> hex_to_rgb "#FFD700" <> Some "#FFD700"%string.
Proof. repeat split. vm_compute. discriminate. Qed.

(** C5 (amended): for every colour [c] written as a hash sign and six
    hexadecimal digits, [rgb_to_hex(hex_to_rgb(c))] is [c.lower()]; hence
    the round trip returns [c] itself exactly when [c] has no upper-case
    digit. *)
Theorem C5_roundtrip_lower (c : string) :
  is_hex_color c = true ->
  rgb_to_hex <$> hex_to_rgb c = Some (PyStr.lower c)
  /\ (rgb_to_hex <$> hex_to_rgb c = Some c <-> PyStr.lower c = c).
Proof.
  intros H.
  destruct (hex_to_rgb_valid c H) as (r & g & b & E & _ & _ & _ & Hhex).
  rewrite E. cbn [fmap option_fmap option_map]. rewrite Hhex.
  split; [reflexivity|].
  split; [intros [= ->]; reflexivity | intros ->; reflexivity].
Qed.

Lemma C5_roundtrip_lower_witness :
  is_hex_color "#ffd93d" = true
  /\ rgb_to_hex <$> hex_to_rgb "#ffd93d" = Some "#ffd93d"%string.
Proof.
  split; [reflexivity|].
  apply (proj2 (C5_roundtrip_lower "#ffd93d" eq_refl)). reflexivity.
Defined.

(** C6: for every background written [#RRGGBB], [ensure_contrast]
    returns a text colour whose perceived brightness is on the other side
    of 128 from the background's: the near-black [#1A1A1A] (brightness
    below 128) when the background's brightness is above 128, the
    near-white [#FAFAFA] (brightness above 128) otherwise. *)
Theorem C6_ensure_contrast_opposite (bg text : string) (min_diff : Q) :
  is_hex_color bg = true ->
  exists t bb tb,
    ensure_contrast bg text min_diff = Some t
    /\ calculate_brightness bg = Some bb
    /\ calculate_brightness t = Some tb
    /\ ((128 < bb /\ t = "#1A1A1A"%string /\ tb < 128)
        \/ (bb <= 128 /\ t = "#FAFAFA"%string /\ 128 < tb))%Q.
Proof.
  intros H.
  destruct (hex_to_rgb_valid bg H) as (r & g & b & E & _).
  unfold ensure_contrast, calculate_brightness at 1 2. rewrite E.
  set (bb := (inject_Z r * (299 # 1000) + inject_Z g * (587 # 1000)
              + inject_Z b * (114 # 1000))%Q).
  destruct (Qle_bool bb 128) eqn:Hle; cbn [negb].
  - exists "#FAFAFA"%string, bb. eexists. split; [reflexivity|].
    split; [reflexivity|]. split; [vm_compute; reflexivity|].
    right. split; [apply Qle_bool_iff; exact Hle|].
    split; [reflexivity|]. vm_compute. reflexivity.
  - exists "#1A1A1A"%string, bb. eexists. split; [reflexivity|].
    split; [reflexivity|]. split; [vm_compute; reflexivity|].
    left. split.
    + apply Qnot_le_lt. intros Hc. apply Qle_bool_iff in Hc. congruence.
    + split; [reflexivity|]. vm_compute. reflexivity.
Qed.

Lemma C6_ensure_contrast_opposite_witness :
  is_hex_color "#FFD700" = true
  /\ exists t bb tb,
       ensure_contrast "#FFD700" "#FFFFFF" 125 = Some t
       /\ calculate_brightness "#FFD700" = Some bb
       /\ calculate_brightness t = Some tb
       /\ ((128 < bb /\ t = "#1A1A1A"%string /\ tb < 128)
           \/ (bb <= 128 /\ t = "#FAFAFA"%string /\ 128 < tb))%Q.
Proof.
  split; [reflexivity|].
  apply (C6_ensure_contrast_opposite "#FFD700" "#FFFFFF" 125). reflexivity.
Defined.

End ColorFacts.

(** ** Strings: words, split and join *)

Module StrFacts.

Import PyStr StrAux.

Lemma append_cons (c : ascii) (s t : string) :
  String c s +:+ t = String c (s +:+ t).
Proof. reflexivity. Qed.

Lemma append_nil_l (t : string) : EmptyString +:+ t = t.
Proof. reflexivity. Qed.

Lemma append_nil_r (s : string) : s +:+ EmptyString = s.
Proof.
  induction s as [|c s IH]; [reflexivity|].
  rewrite append_cons, IH. reflexivity.
Qed.

Lemma append_assoc (a b c : string) : (a +:+ b) +:+ c = a +:+ (b +:+ c).
Proof.
  induction a as [|x a IH]; [reflexivity|].
  rewrite !append_cons, IH. reflexivity.
Qed.

Lemma nospace_snoc (s : string) (c : ascii) :
  nospace s -> is_space c = false -> nospace (s +:+ String c EmptyString).
Proof.
  induction s as [|x s IH]; intros Hs Hc.
  - split; [exact Hc|exact I].
  - destruct Hs as [Hx Hs]. rewrite append_cons.
    split; [exact Hx|apply IH; assumption].
Qed.

Lemma snoc_not_empty (s : string) (c : ascii) :
  s +:+ String c EmptyString <> EmptyString.
Proof. destruct s; discriminate. Qed.

(** Every string returned by [split] is a word. *)
Lemma split_from_words (s cur : string) :
  nospace cur -> Forall is_word (split_from cur s).
Proof.
  revert cur. induction s as [|c r IH]; intros cur Hcur; cbn.
  - destruct cur as [|x cur']; [constructor|].
    constructor; [|constructor]. split; [discriminate|exact Hcur].
  - destruct (is_space c) eqn:Hc.
    + destruct cur as [|x cur'].
      * apply IH. exact I.
      * constructor.
        -- split; [discriminate|exact Hcur].
        -- apply IH. exact I.
    + apply IH. apply nospace_snoc; assumption.
Qed.

Lemma split_words (s : string) : Forall is_word (split s).
Proof. apply split_from_words. exact I. Qed.

(** Reading a whitespace-free string extends the word being read. *)
Lemma split_from_nospace (w cur rest : string) :
  nospace w -> split_from cur (w +:+ rest) = split_from (cur +:+ w) rest.
Proof.
  revert cur. induction w as [|c w IH]; intros cur Hw.
  - rewrite append_nil_r. reflexivity.
  - destruct Hw as [Hc Hw].
    rewrite append_cons. cbn [split_from]. rewrite Hc. rewrite IH by exact Hw.
    rewrite append_assoc. reflexivity.
Qed.

Lemma join_cons (sep p q : string) (rest : list string) :
  join sep (p :: q :: rest) = p +:+ sep +:+ join sep (q :: rest).
Proof. reflexivity. Qed.

(** Splitting the words joined by single spaces gives the words back. *)
Lemma split_join (ws : list string) :
  Forall is_word ws -> split (join " " ws) = ws.
Proof.
  unfold split.
  induction ws as [|w ws IH]; intros Hws; [reflexivity|].
  inversion Hws as [|? ? [Hne Hns] Hrest]; subst.
  destruct ws as [|w' ws].
  - cbn [join]. rewrite <- (append_nil_r w) at 1.
    rewrite split_from_nospace by exact Hns. cbn.
    destruct w; [contradiction|reflexivity].
  - rewrite join_cons. rewrite split_from_nospace by exact Hns.
    rewrite append_nil_l, append_cons, append_nil_l.
    cbn [split_from].
    change (is_space " ") with true. cbv iota.
    destruct w as [|x w]; [contradiction|].
    f_equal. apply IH. exact Hrest.
Qed.

(** Joining lines that are themselves joined groups of words is joining
    all the words. *)
Lemma join_app (sep : string) (a b : list string) :
  a <> [] -> b <> [] ->
  join sep (a ++ b) = join sep a +:+ sep +:+ join sep b.
Proof.
  induction a as [|x a IH]; intros Ha Hb; [contradiction|].
  destruct a as [|y a].
  - destruct b as [|z b]; [contradiction|]. reflexivity.
  - change ((x :: y :: a) ++ b) with (x :: (y :: a ++ b)).
    rewrite !join_cons.
    change (y :: a ++ b) with ((y :: a) ++ b).
    rewrite IH by (discriminate || assumption).
    rewrite !append_assoc. reflexivity.
Qed.

Lemma join_concat (sep : string) (groups : list (list string)) :
  Forall (fun g => g <> []) groups ->
  join sep (map (join sep) groups) = join sep (concat groups).
Proof.
  induction groups as [|g groups IH]; intros Hg; [reflexivity|].
  inversion Hg as [|? ? Hne Hrest]; subst.
  destruct groups as [|g' groups].
  - cbn. now rewrite app_nil_r.
  - cbn [map]. rewrite join_cons.
    change (join sep (join sep g' :: map (join sep) groups))
      with (join sep (map (join sep) (g' :: groups))).
    rewrite IH by exact Hrest.
    change (concat (g :: g' :: groups)) with (g ++ concat (g' :: groups)).
    rewrite join_app; [reflexivity|exact Hne|].
    inversion Hrest as [|? ? Hne' _]; subst.
    cbn [concat]. destruct g'; [contradiction|discriminate].
Qed.

End StrFacts.


(** ** Text layout and rendering *)

Module LayoutFacts.

Import ImageGenerator LayoutAux.

Lemma close_line_groups (groups : list (list string)) (cur : list string) :
  close_line (map (PyStr.join " ") groups) cur
  = map (PyStr.join " ") (groups ++ match cur with [] => [] | _ => [cur] end).
Proof.
  destruct cur as [|w cur]; cbn [close_line].
  - now rewrite app_nil_r.
  - now rewrite map_app.
Qed.

(** The loop keeps the words in order: the lines are the joined groups of a
    partition of the words read so far, no group being empty. *)
Lemma wrap_loop_groups (f : font) (max_width : Z) (words : list string) :
  forall (groups : list (list string)) (cur : list string),
    Forall (fun g => g <> []) groups ->
    exists groups' cur',
      wrap_loop f max_width words (map (PyStr.join " ") groups) cur
      = (map (PyStr.join " ") groups', cur')
      /\ Forall (fun g => g <> []) groups'
      /\ concat groups' ++ cur' = concat groups ++ cur ++ words.
Proof.
  induction words as [|word words IH]; intros groups cur Hg.
  - exists groups, cur. split; [reflexivity|]. split; [exact Hg|].
    now rewrite app_nil_r.
  - cbn [wrap_loop].
    destruct (text_width f (PyStr.join " " (cur ++ [word])) <=? max_width).
    + destruct (IH groups (cur ++ [word]) Hg) as (g' & c' & E & Hg' & Hc).
      exists g', c'. split; [exact E|]. split; [exact Hg'|].
      rewrite Hc. now rewrite <- !app_assoc.
    + destruct cur as [|w cur].
      * destruct (IH groups [word] Hg) as (g' & c' & E & Hg' & Hc).
        exists g', c'. split; [exact E|]. split; [exact Hg'|]. exact Hc.
      * assert (Hg2 : Forall (fun g => g <> []) (groups ++ [w :: cur])).
        { apply Forall_app. split; [exact Hg|]. constructor; [discriminate|constructor]. }
        destruct (IH (groups ++ [w :: cur]) [word] Hg2) as (g' & c' & E & Hg' & Hc).
        exists g', c'. rewrite map_app in E. split; [exact E|]. split; [exact Hg'|].
        rewrite Hc, concat_app. cbn [concat]. rewrite app_nil_r.
        now rewrite <- !app_assoc.
Qed.

Lemma wrap_text_lines_of (text : string) (f : font) (max_width : Z) :
  _wrap_text text f max_width
  = match lines_of f max_width (PyStr.split text) with
    | [] => [text]
    | l => l
    end.
Proof.
  unfold _wrap_text, lines_of.
  destruct (wrap_loop f max_width (PyStr.split text) [] []) as [lines cur].
  unfold close_line. destruct cur; destruct lines; reflexivity.
Qed.

(** Joining the lines with spaces gives the words joined with spaces. *)
Lemma join_lines_of (f : font) (max_width : Z) (words : list string) :
  PyStr.join " " (lines_of f max_width words) = PyStr.join " " words.
Proof.
  unfold lines_of.
  destruct (wrap_loop_groups f max_width words [] [] (List.Forall_nil _))
    as (g' & c' & E & Hg' & Hc).
  cbn [map] in E. rewrite E. rewrite close_line_groups.
  rewrite StrFacts.join_concat.
  - f_equal. rewrite concat_app. cbn [concat app] in Hc. rewrite <- Hc.
    f_equal. destruct c'; cbn; [reflexivity|now rewrite app_nil_r].
  - apply Forall_app. split; [exact Hg'|].
    destruct c'; constructor; [discriminate|constructor].
Qed.

(** C7: for every text, font and maximum width, wrapping the lines of a
    first wrap, joined again with single spaces, with the same font and
    width yields exactly the lines of the first wrap. *)
Theorem C7_wrap_text_idempotent (text : string) (f : font) (max_width : Z) :
  _wrap_text (PyStr.join " " (_wrap_text text f max_width)) f max_width
  = _wrap_text text f max_width.
Proof.
  rewrite (wrap_text_lines_of text).
  destruct (lines_of f max_width (PyStr.split text)) as [|l ls] eqn:El.
  - change (PyStr.join " " [text]) with text.
    rewrite wrap_text_lines_of, El. reflexivity.
  - rewrite <- El. rewrite wrap_text_lines_of.
    rewrite join_lines_of.
    rewrite StrFacts.split_join by apply StrFacts.split_words.
    rewrite El. reflexivity.
Qed.

End LayoutFacts.


Module RenderFacts.

Import ImageGenerator Samples.

Lemma hex_to_rgb_same (c : string) : _hex_to_rgb c = ColorPalette.hex_to_rgb c.
Proof. reflexivity. Qed.

Lemma hex_color_parses (c : string) :
  ColorPalette.is_hex_color c = true -> exists v, _hex_to_rgb c = Some v.
Proof.
  intros H. destruct (ColorFacts.hex_to_rgb_valid c H) as (r & g & b & E & _).
  exists (r, g, b). rewrite hex_to_rgb_same. exact E.
Qed.

Lemma eqb_other (style name : string) : style <> name -> String.eqb style name = false.
Proof. intros H. apply String.eqb_neq. exact H. Qed.

(** The three known styles give the padding of the table; the accented
    spelling of the third one is not a key of the table. *)
Lemma padding_of_known_styles :
  PADDING_BY_STYLE !! "minimal" = Some 80
  /\ PADDING_BY_STYLE !! "moderne" = Some 100
  /\ PADDING_BY_STYLE !! "elegant" = Some 120
  /\ PADDING_BY_STYLE !! "élégant" = None.
Proof. repeat split. Qed.

(** C10: for every style string other than minimal, moderne, elegant and
    its accented spelling, and every palette whose colours are valid,
    [create_image] raises nothing and returns the canvas filled with the
    background colour on which nothing has been drawn (no quote line, no
    author line, no decoration); the padding it looks up is the default,
    100. *)
Theorem C10_unknown_style_blank_image
    (self : generator) (quote_text author bg text style font_family : string)
    (rest : list string) :
  style <> "minimal"%string -> style <> "moderne"%string ->
  style <> "elegant"%string -> style <> "élégant"%string ->
  Forall (fun c => ColorPalette.is_hex_color c = true) (take 3 (bg :: text :: rest)) ->
  exists fill,
    _hex_to_rgb bg = Some fill
    /\ create_image self quote_text author (bg :: text :: rest) style font_family
       = Some {| base := SolidFill (size self) fill; drawn := [] |}
    /\ default 100 (PADDING_BY_STYLE !! style) = 100.
Proof.
  intros Hmin Hmod Hele Hacc Hcols.
  cbn [take] in Hcols.
  inversion Hcols as [|? ? Hbg Hcols']; subst.
  inversion Hcols' as [|? ? Htext Hrest]; subst.
  destruct (hex_color_parses bg Hbg) as (fill & Efill).
  destruct (hex_color_parses text Htext) as (tc & Etc).
  exists fill. split; [exact Efill|].
  split.
  - unfold create_image, style_in. cbn [existsb].
    rewrite (eqb_other _ _ Hmin), (eqb_other _ _ Hmod),
            (eqb_other _ _ Hele), (eqb_other _ _ Hacc).
    cbn [orb andb]. cbn [lookup list_lookup]. cbn [mbind option_bind].
    rewrite Efill. cbn [mbind option_bind].
    change (1 <? length (bg :: text :: rest))%nat with true. cbv iota.
    cbn [lookup list_lookup mbind option_bind]. rewrite Etc.
    cbn [mbind option_bind].
    destruct rest as [|accent rest].
    + change (2 <? length [bg; text])%nat with false. cbv iota.
      cbn [lookup list_lookup mbind option_bind]. rewrite Etc.
      reflexivity.
    + cbn [take] in Hrest. inversion Hrest as [|? ? Hacc' _]; subst.
      destruct (hex_color_parses accent Hacc') as (ac & Eac).
      change (2 <? length (bg :: text :: accent :: rest))%nat with true. cbv iota.
      cbn [lookup list_lookup mbind option_bind]. rewrite Eac.
      reflexivity.
  - unfold PADDING_BY_STYLE.
    rewrite !lookup_insert_ne by congruence.
    rewrite lookup_empty. reflexivity.
Qed.

Lemma C10_unknown_style_blank_image_witness :
  create_image sample_generator "Soyez le changement" "Gandhi"
               ["#FFD93D"; "#2C2C2C"; "#FF6B6B"] "vintage" "DejaVu Sans"
  = Some {| base := SolidFill (1080, 1080) (255, 217, 61); drawn := [] |}.
Proof.
  destruct (C10_unknown_style_blank_image sample_generator
              "Soyez le changement" "Gandhi" "#FFD93D" "#2C2C2C" "vintage"
              "DejaVu Sans" ["#FF6B6B"%string])
    as (fill & Efill & Eimg & _);
    [discriminate | discriminate | discriminate | discriminate
    | repeat constructor |].
  rewrite Eimg. vm_compute in Efill. injection Efill as <-. reflexivity.
Defined.

End RenderFacts.


(** ** Theme matching *)

Module ThemeFacts.

Import QuoteRecord QuoteFetcher ThemeAux.








End ThemeFacts.


(** ** The local pool *)

Module PoolFacts.

Import QuoteRecord LocalQuotes Samples.

(** The assignments keep the four keys the pool was written with. *)
Lemma stamp_keeps (pyhash : string -> Z) (q : quote) :
  content (stamp pyhash q) = content q
  /\ author (stamp pyhash q) = author q
  /\ tags (stamp pyhash q) = tags q
  /\ theme (stamp pyhash q) = theme q.
Proof. repeat split. Qed.

(** Assigning a second time changes nothing. *)
Lemma stamp_idempotent (pyhash : string -> Z) (q : quote) :
  stamp pyhash (stamp pyhash q) = stamp pyhash q.
Proof. reflexivity. Qed.

Lemma get_random_quote_alter (pyhash : string -> Z) (r : nat) (th : option string)
    (pool pool' : list quote) (ref : nat) :
  get_random_quote pyhash r th pool = Some (ref, pool') ->
  pool' = alter (stamp pyhash) ref pool.
Proof.
  unfold get_random_quote. intros H.
  match type of H with
  | mbind _ ?c = _ => destruct c as [ref0|]; [|discriminate H]
  end.
  cbn [mbind option_bind] in H. injection H as <- <-. reflexivity.
Qed.

Lemma choice_elem {A : Type} (r : nat) (l : list A) (a : A) :
  choice r l = Some a -> a ∈ l.
Proof. unfold choice. intros H. eapply list_elem_of_lookup_2. exact H. Qed.

Lemma choice_total {A : Type} (r : nat) (l : list A) :
  l <> [] -> exists a, choice r l = Some a.
Proof.
  intros Hl. unfold choice. apply lookup_lt_is_Some_2.
  apply Nat.mod_upper_bound. destruct l; [contradiction|discriminate].
Qed.

Lemma filtered_refs_lt (t : string) (pool : list quote) (ref : nat) :
  ref ∈ filtered_refs t pool -> (ref < List.length pool)%nat.
Proof.
  intros Hf. unfold filtered_refs in Hf.
  apply list_elem_of_fmap in Hf as ([i q] & -> & Hf).
  apply list_elem_of_filter in Hf as [_ Hf].
  apply list_elem_of_lookup in Hf as [j Hj].
  rewrite list_lookup_imap in Hj.
  destruct (pool !! j) as [qj|] eqn:Ej; [|discriminate Hj].
  cbn in Hj. injection Hj as <- <-.
  eapply lookup_lt_Some. exact Ej.
Qed.

(** The reference returned is a position of the pool. *)
Lemma get_random_quote_ref_lt (pyhash : string -> Z) (r : nat) (th : option string)
    (pool pool' : list quote) (ref : nat) :
  get_random_quote pyhash r th pool = Some (ref, pool') ->
  (ref < List.length pool)%nat.
Proof.
  unfold get_random_quote. intros H.
  match type of H with
  | mbind _ ?c = _ => destruct c as [ref0|] eqn:Ec; [|discriminate H]
  end.
  cbn [mbind option_bind] in H. injection H as -> _.
  assert (Hseq : ref ∈ seq 0 (List.length pool) -> (ref < List.length pool)%nat).
  { intros Hs. apply elem_of_seq in Hs. lia. }
  destruct th as [t|]; [|apply Hseq, (choice_elem r), Ec].
  destruct (negb (String.eqb t EmptyString) && negb (String.eqb t "auto")).
  - destruct (filtered_refs t pool) as [|x l] eqn:Ef.
    + apply Hseq, (choice_elem r), Ec.
    + apply (filtered_refs_lt t). rewrite Ef. apply (choice_elem r), Ec.
  - apply Hseq, (choice_elem r), Ec.
Qed.

(** On a pool that is not empty the fetch returns. *)
Lemma get_random_quote_total (pyhash : string -> Z) (r : nat) (th : option string)
    (pool : list quote) :
  pool <> [] ->
  exists ref q,
    get_random_quote pyhash r th pool = Some (ref, alter (stamp pyhash) ref pool)
    /\ alter (stamp pyhash) ref pool !! ref = Some q.
Proof.
  intros Hp.
  assert (Hall : seq 0 (List.length pool) <> []).
  { destruct pool; [contradiction|discriminate]. }
  assert (Hc : exists ref,
             match th with
             | Some t =>
                 if negb (String.eqb t EmptyString) && negb (String.eqb t "auto") then
                   match filtered_refs t pool with
                   | [] => choice r (seq 0 (List.length pool))
                   | _ => choice r (filtered_refs t pool)
                   end
                 else choice r (seq 0 (List.length pool))
             | None => choice r (seq 0 (List.length pool))
             end = Some ref).
  { destruct th as [t|]; [|apply choice_total, Hall].
    destruct (negb (String.eqb t EmptyString) && negb (String.eqb t "auto"));
      [|apply choice_total, Hall].
    destruct (filtered_refs t pool) eqn:Ef; [apply choice_total, Hall|].
    apply choice_total. discriminate. }
  destruct Hc as [ref Hc].
  assert (E : get_random_quote pyhash r th pool
              = Some (ref, alter (stamp pyhash) ref pool)).
  { unfold get_random_quote.
    destruct th as [t|]; [|rewrite Hc; reflexivity].
    destruct (negb (String.eqb t EmptyString) && negb (String.eqb t "auto"));
      [|rewrite Hc; reflexivity].
    destruct (filtered_refs t pool) eqn:Ef; rewrite Hc; reflexivity. }
  pose proof (get_random_quote_ref_lt _ _ _ _ _ _ E) as Hlt.
  destruct (lookup_lt_is_Some_2 (alter (stamp pyhash) ref pool) ref) as [q Eq].
  { rewrite length_alter. exact Hlt. }
  exists ref, q. split; [exact E|exact Eq].
Qed.

(** C9 (as stated, refuted): the first fetch from the pool as the module
    defines it returns entry 0 and leaves that entry of the pool with three
    keys it did not have: the pool's own entry has been modified. *)
Lemma C9_pool_entry_modified :
  exists pool',
    get_random_quote sample_hash 0 None FRENCH_QUOTES = Some (0%nat, pool')
    /\ FRENCH_QUOTES !! 0%nat
       = Some (pool_entry
           "Le succès n'est pas final, l'échec n'est pas fatal : c'est le courage de continuer qui compte."
           "Winston Churchill" ["motivation"] "motivation")
    /\ pool' !! 0%nat <> FRENCH_QUOTES !! 0%nat
    /\ (q ← pool' !! 0%nat; source q) = Some "local"%string.
Proof.
  eexists. split; [reflexivity|]. split; [reflexivity|].
  split; [discriminate|reflexivity].
Qed.

(** C9 (amended): a fetch from the local pool returns a reference to one
    pool entry and assigns [length], [id] and [source] on that entry in
    place.  Every entry keeps its [content], [author], [tags] and [theme];
    an entry other than the returned one is left as it was, and so is a
    returned entry that already carries the three keys for its content
    (one returned by an earlier fetch). *)
Theorem C9_pool_fetch_effect (pyhash : string -> Z) (r : nat) (th : option string)
    (pool pool' : list quote) (ref : nat) :
  get_random_quote pyhash r th pool = Some (ref, pool') ->
  List.length pool' = List.length pool
  /\ (exists q, pool !! ref = Some q /\ pool' !! ref = Some (stamp pyhash q))
  /\ forall (i : nat) (q : quote),
       pool !! i = Some q ->
       exists q',
         pool' !! i = Some q'
         /\ content q' = content q /\ author q' = author q
         /\ tags q' = tags q /\ theme q' = theme q
         /\ (i <> ref -> q' = q)
         /\ (stamp pyhash q = q -> q' = q).
Proof.
  intros H.
  pose proof (get_random_quote_alter _ _ _ _ _ _ H) as ->.
  split; [apply length_alter|].
  split.
  - pose proof (get_random_quote_ref_lt _ _ _ _ _ _ H) as Hlt.
    destruct (lookup_lt_is_Some_2 pool ref Hlt) as [q Eq].
    exists q. split; [exact Eq|].
    rewrite list_lookup_alter_eq, Eq. reflexivity.
  - intros i q Hi.
    destruct (decide (i = ref)) as [->|Hne].
    + exists (stamp pyhash q).
      rewrite list_lookup_alter_eq, Hi.
      repeat split; [contradiction|intros ->; reflexivity].
    + exists q. rewrite list_lookup_alter_ne by congruence.
      repeat split; [exact Hi|reflexivity..].
Qed.

Lemma C9_pool_fetch_effect_witness :
  exists pool',
    get_random_quote sample_hash 21 (Some "sagesse"%string) FRENCH_QUOTES
    = Some (6%nat, pool')
    /\ List.length pool' = 20%nat
    /\ pool' !! 7%nat = FRENCH_QUOTES !! 7%nat.
Proof.
  eexists. split; [reflexivity|].
  destruct (C9_pool_fetch_effect sample_hash 21 (Some "sagesse"%string)
              FRENCH_QUOTES _ 6%nat eq_refl) as (Hlen & _ & Hall).
  split; [exact Hlen|].
  destruct (Hall 7%nat _ eq_refl) as (q' & -> & _ & _ & _ & _ & Hne & _).
  rewrite (Hne ltac:(discriminate)). reflexivity.
Defined.

End PoolFacts.


(** ** The fetcher: rate limit, cache, failures *)

Module FetcherFacts.

Import QuoteRecord QuoteFetcher FetcherAux Samples.

Lemma new_events_app (s s' : state) (evs : list event) :
  trace s' = trace s ++ evs -> new_events s s' = evs.
Proof. intros H. unfold new_events. rewrite H. apply drop_app_length. Qed.

Lemma bind_return {A B : Type} (m : M A) (k : A -> M B) (s s' : state) (a : A) :
  m s = (Return a, s') -> bind m k s = k a s'.
Proof. intros H. unfold bind. rewrite H. reflexivity. Qed.

Lemma bind_raise {A B : Type} (m : M A) (k : A -> M B) (s s' : state) (e : exn) :
  m s = (Raise e, s') -> bind m k s = (Raise e, s').
Proof. intros H. unfold bind. rewrite H. reflexivity. Qed.

Section Steps.

Variable E : env.

(** [_wait_for_rate_limit] returns and issues no remote call; afterwards
    the stamp is the current time; it does not sleep when the delay has
    already elapsed; and when no sleep returns early the stamp is at least
    the minimum delay after the previous one. *)
Lemma wait_spec (s : state) :
  exists s',
    _wait_for_rate_limit E s = (Return tt, s')
    /\ last_request_time s' = clock s'
    /\ trace s' = trace s /\ cache s' = cache s /\ pool s' = pool s
    /\ ((MIN_REQUEST_DELAY <= clock s - last_request_time s)%Q ->
        clock s' = clock s /\ step s' = step s)
    /\ ((forall i, 0 <= oversleep E i)%Q ->
        (last_request_time s + MIN_REQUEST_DELAY <= clock s')%Q
        /\ (clock s <= clock s')%Q).
Proof.
  unfold _wait_for_rate_limit, bind, time_time, get_state, modify, ret.
  destruct (Qle_bool MIN_REQUEST_DELAY (clock s - last_request_time s)) eqn:Hel;
    cbn [negb].
  - eexists. split; [reflexivity|]. cbn.
    apply Qle_bool_iff in Hel. unfold MIN_REQUEST_DELAY in *.
    repeat split; try reflexivity; lra.
  - assert (Hlt : ~ (MIN_REQUEST_DELAY <= clock s - last_request_time s)%Q).
    { intros Hc. apply Qle_bool_iff in Hc. congruence. }
    unfold time_sleep.
    assert (Hpos : Qle_bool 0 (MIN_REQUEST_DELAY - (clock s - last_request_time s)) = true).
    { apply Qle_bool_iff. unfold MIN_REQUEST_DELAY in *. lra. }
    rewrite Hpos. eexists. split; [reflexivity|]. cbn.
    unfold MIN_REQUEST_DELAY in *.
    repeat split; try reflexivity; try contradiction;
      match goal with H : forall i, (0 <= oversleep E i)%Q |- _ =>
        specialize (H (step s)); lra end.
Qed.

Lemma random_choice_cons {A : Type} (x : A) (l : list A) (s : state) :
  exists a, random_choice E (x :: l) s = (Return a, next_step s).
Proof.
  unfold random_choice.
  destruct (PoolFacts.choice_total (draw E (step s)) (x :: l)) as [a Ha];
    [discriminate|].
  rewrite Ha. exists a. reflexivity.
Qed.

(** [_get_from_cache] returns and only draws a random number. *)
Lemma get_from_cache_spec (theme : string) (s : state) :
  exists o s', _get_from_cache E theme s = (Return o, s') /\ quiet s s'.
Proof.
  unfold _get_from_cache, bind, get_state, ret.
  destruct (quotes (cache s)) as [[|q l]|].
  - exists None, s. repeat split.
  - destruct (if negb (String.eqb theme "auto") && known_theme theme
              then filter (fun q0 => _matches_theme q0 theme) (q :: l) else [])
      as [|m ms].
    + destruct (random_choice_cons q l s) as [a Ha]. rewrite Ha.
      exists (Some a), (next_step s). repeat split.
    + destruct (random_choice_cons m ms s) as [a Ha]. rewrite Ha.
      exists (Some a), (next_step s). repeat split.
  - exists None, s. repeat split.
Qed.

(** [_fetch_single_quote] returns: one remote call is issued at the
    current time, and the record it yields, if any, is logged. *)
Lemma fetch_single_spec (s : state) :
  exists o s',
    _fetch_single_quote E s = (Return o, s')
    /\ clock s' = (clock s + (net E (step s)).1)%Q
    /\ trace s' = trace s ++ Requested (clock s)
                           :: match o with Some q => [Fetched q] | None => [] end
    /\ cache s' = cache s /\ last_request_time s' = last_request_time s
    /\ pool s' = pool s.
Proof.
  unfold _fetch_single_quote, bind, requests_get, modify, ret.
  destruct (net E (step s)) as [duration r]. cbn [fst].
  match goal with
  | |- context [match ?res with Some q => _ | None => _ end] =>
      destruct res as [q|]
  end.
  - exists (Some q). eexists. split; [reflexivity|]. cbn.
    rewrite <- app_assoc. repeat split.
  - exists None. eexists. split; [reflexivity|]. cbn. repeat split.
Qed.

(** [_save_cache] touches the disk only; it raises when, and only when,
    the directory cannot be created. *)
Lemma save_cache_spec (s : state) :
  exists o s',
    _save_cache E s = (o, s') /\ quiet s s'
    /\ o = (if mkdir_fails E (step s) then Raise OSError else Return tt).
Proof.
  unfold _save_cache, bind, get_state, modify, raise, ret.
  destruct (mkdir_fails E (step s)).
  - eexists _, _. split; [reflexivity|]. repeat split.
  - destruct (write E (step s)); eexists _, _; (split; [reflexivity|]); repeat split.
Qed.

(** Storing a fetched record: the cache holds it afterwards, also when the
    save raises. *)
Lemma store_and_check_spec (theme : string) (q : quote) (s : state) :
  exists o s',
    store_and_check E theme q s = (o, s')
    /\ quotes (cache s') = Some (cache_append (quotes (cache s)) q)
    /\ timestamp (cache s') = Some (clock s)
    /\ last_request_time s' = last_request_time s
    /\ clock s' = clock s /\ trace s' = trace s /\ pool s' = pool s
    /\ ((forall i, mkdir_fails E i = false) -> exists r, o = Return r)
    /\ (forall r, o = Return r ->
        r = if negb (String.eqb theme "auto") && _matches_theme q theme then Some q
            else if String.eqb theme "auto" then Some q else None).
Proof.
  unfold store_and_check.
  unfold bind at 1. unfold get_state at 1.
  unfold bind at 1. unfold time_time at 1.
  unfold bind at 1. unfold modify at 1.
  set (s1 := set_cache _ s).
  destruct (save_cache_spec s1) as (o & s2 & Es & (Hc & Hl & Hk & Ht & Hp) & Ho).
  unfold bind. rewrite Es.
  destruct o as [[]|e].
  - set (r := if negb (String.eqb theme "auto") && _matches_theme q theme then Some q
              else if String.eqb theme "auto" then Some q else None).
    exists (Return r), s2. split.
    { subst r. destruct (negb (String.eqb theme "auto") && _matches_theme q theme);
        [reflexivity|]. destruct (String.eqb theme "auto"); reflexivity. }
    rewrite Hc, Hl, Hk, Ht, Hp. subst s1. cbn.
    repeat split; [eexists; reflexivity|]. intros r' [= <-]. reflexivity.
  - exists (Raise e), s2. split; [reflexivity|].
    rewrite Hc, Hl, Hk, Ht, Hp. subst s1. cbn.
    repeat split.
    + intros Hm. rewrite Hm in Ho. discriminate Ho.
    + intros r' Hr. discriminate Hr.
Qed.

Lemma progress_quiet (s s' : state) : quiet s s' -> progress E s s' [].
Proof.
  intros (Hc & Hl & Hk & Ht & Hp). unfold progress.
  rewrite Hc, Hl, Hk, Ht, Hp, app_nil_r. repeat split.
  - apply Qle_refl.
  - intros t [].
Qed.

Lemma progress_trans (s s1 s2 : state) (e1 e2 : list event) :
  progress E s s1 e1 -> progress E s1 s2 e2 -> progress E s s2 (e1 ++ e2).
Proof.
  intros (Ht1 & Hl1 & Hp1 & Hq1 & Hw1) (Ht2 & Hl2 & Hp2 & Hq2 & Hw2).
  unfold progress. rewrite Ht2, Ht1, Hl2, Hl1, Hp2, Hp1, Hq2, Hq1.
  repeat split.
  - now rewrite app_assoc.
  - unfold store_all, fetched_in. rewrite flat_map_app, fold_left_app. reflexivity.
  - destruct (Hw1 H) as [Ha _]. destruct (Hw2 H) as [Hb _].
    eapply Qle_trans; eassumption.
  - intros t Hin. unfold requests_in in Hin. rewrite flat_map_app in Hin.
    destruct (Hw1 H) as [Ha Hr1]. destruct (Hw2 H) as [Hb Hr2].
    apply in_app_or in Hin as [Hin|Hin].
    + apply Hr1. exact Hin.
    + eapply Qle_trans; [exact Ha|]. apply Hr2. exact Hin.
Qed.

Lemma sleep_one_spec (s : state) :
  exists s', time_sleep E 1 s = (Return tt, s') /\ progress E s s' [].
Proof.
  unfold time_sleep. change (Qle_bool 0 1) with true. cbv iota.
  eexists. split; [reflexivity|]. unfold progress. cbn.
  rewrite app_nil_r. repeat split.
  - destruct H as [Hs _]. specialize (Hs (step s)). lra.
  - intros t [].
Qed.

(** One remote attempt together with the storing of its record. *)
Lemma attempt_spec (theme : string) (s : state) :
  exists o s' evs,
    bind (_fetch_single_quote E)
         (fun fetched =>
            match fetched with
            | Some q => store_and_check E theme q
            | None => ret None
            end) s = (o, s')
    /\ progress E s s' (Requested (clock s) :: evs)
    /\ ((forall i, mkdir_fails E i = false) -> exists r, o = Return r).
Proof.
  destruct (fetch_single_spec s) as (f & s1 & E1 & Hk1 & Ht1 & Hc1 & Hl1 & Hp1).
  rewrite (bind_return _ _ _ _ _ E1).
  destruct f as [q|].
  - destruct (store_and_check_spec theme q s1)
      as (o & s2 & E2 & Hq2 & _ & Hl2 & Hk2 & Ht2 & Hp2 & Hnr & _).
    exists o, s2, [Fetched q]. split; [exact E2|]. split; [|exact Hnr].
    unfold progress. rewrite Ht2, Ht1, Hl2, Hl1, Hp2, Hp1, Hq2, Hc1, Hk2, Hk1.
    repeat split.
    + destruct H as [_ Hn]. specialize (Hn (step s)). lra.
    + intros t [<-|[]]. apply Qle_refl.
  - exists (Return None), s1, []. split; [reflexivity|].
    split; [|intros _; eexists; reflexivity].
    unfold progress. rewrite Ht1, Hl1, Hp1, Hc1, Hk1.
    repeat split.
    + destruct H as [_ Hn]. specialize (Hn (step s)). lra.
    + intros t [<-|[]]. apply Qle_refl.
Qed.

(** The loop of remote attempts. *)
Lemma attempts_spec (theme : string) (todo : list Z) :
  forall s,
    exists o s' evs,
      attempts E theme todo s = (o, s')
      /\ progress E s s' evs
      /\ (todo <> [] -> exists rest, evs = Requested (clock s) :: rest)
      /\ ((forall i, mkdir_fails E i = false) -> exists r, o = Return r).
Proof.
  induction todo as [|attempt todo IH]; intros s.
  - exists (Return None), s, []. split; [reflexivity|].
    split; [apply progress_quiet; repeat split|].
    split; [intros Hc; contradiction|intros _; eexists; reflexivity].
  - destruct (attempt_spec theme s) as (o1 & s1 & ev1 & E1 & Hp1 & Hn1).
    cbn [attempts]. unfold bind at 1.
    unfold bind in E1. 
    destruct (_fetch_single_quote E s) as [[f|e] sf].
    2:{ injection E1 as <- <-.
        exists (Raise e), sf, (Requested (clock s) :: ev1).
        split; [reflexivity|]. split; [exact Hp1|].
        split; [intros _; eexists; reflexivity|exact Hn1]. }
    unfold bind at 1. rewrite E1.
    destruct o1 as [[q|]|e].
    + exists (Return (Some q)), s1, (Requested (clock s) :: ev1).
      split; [reflexivity|]. split; [exact Hp1|].
      split; [intros _; eexists; reflexivity|intros _; eexists; reflexivity].
    + assert (Hpause : exists s2,
                 (if attempt <? 2 then time_sleep E 1 else ret tt) s1 = (Return tt, s2)
                 /\ progress E s1 s2 []).
      { destruct (attempt <? 2).
        - apply sleep_one_spec.
        - exists s1. split; [reflexivity|]. apply progress_quiet. repeat split. }
      destruct Hpause as (s2 & E2 & Hp2).
      rewrite (bind_return _ _ _ _ _ E2).
      destruct (IH s2) as (o3 & s3 & ev3 & E3 & Hp3 & _ & Hn3).
      exists o3, s3, ((Requested (clock s) :: ev1) ++ [] ++ ev3).
      split; [exact E3|].
      split; [eapply progress_trans; [exact Hp1|eapply progress_trans; eassumption]|].
      split; [intros _; eexists; reflexivity|exact Hn3].
    + exists (Raise e), s1, (Requested (clock s) :: ev1).
      split; [reflexivity|]. split; [exact Hp1|].
      split; [intros _; eexists; reflexivity|exact Hn1].
Qed.

(** The local fallback: it touches the pool only, and returns when the
    pool is not empty. *)
Lemma get_local_quote_spec (theme : string) (s : state) :
  exists o s',
    get_local_quote E theme s = (o, s')
    /\ cache s' = cache s /\ last_request_time s' = last_request_time s
    /\ clock s' = clock s /\ trace s' = trace s
    /\ (pool s <> [] -> exists q, o = Return q).
Proof.
  unfold get_local_quote.
  destruct (pool s) as [|p ps] eqn:Ep.
  - destruct (LocalQuotes.get_random_quote _ _ _ []) as [[ref pool']|].
    + destruct (pool' !! ref); eexists _, _; (split; [reflexivity|]);
        repeat split; intros Hc; contradiction.
    + eexists _, _. split; [reflexivity|]. repeat split. intros Hc; contradiction.
  - destruct (PoolFacts.get_random_quote_total (pyhash E) (draw E (step s))
                (Some theme) (p :: ps)) as (ref & q & Eg & Eq); [discriminate|].
    rewrite Eg, Eq. eexists _, _. split; [reflexivity|].
    repeat split. intros _. eexists. reflexivity.
Qed.

Lemma remote_phase_spec (theme : string) (s : state) :
  exists o s' evs,
    remote_phase E theme s = (o, s')
    /\ trace s' = trace s ++ evs
    /\ quotes (cache s') = store_all (quotes (cache s)) (fetched_in evs)
    /\ ((forall i, mkdir_fails E i = false) -> pool s <> [] -> exists q, o = Return q)
    /\ (well_timed E -> remote_shape s s' evs).
Proof.
  unfold remote_phase.
  destruct (wait_spec s) as (s1 & E1 & Hst1 & Ht1 & Hc1 & Hp1 & _ & Hw1).
  rewrite (bind_return _ _ _ _ _ E1).
  destruct (attempts_spec theme [0; 1; 2] s1)
    as (o2 & s2 & evs & E2 & (Ht2 & Hl2 & Hp2 & Hq2 & Hw2) & Hfirst & Hn2).
  destruct Hfirst as [rest Hrest]; [discriminate|].
  assert (Hshape : forall s', last_request_time s' = last_request_time s2 ->
                     well_timed E -> remote_shape s s' evs).
  { intros s' Hl' Hwt. unfold remote_shape. rewrite Hl', Hl2, Hst1.
    destruct (Hw1 (proj1 Hwt)) as [Ha Hb]. destruct (Hw2 Hwt) as [_ Hr].
    repeat split; [exact Ha|exact Hb|exists rest; exact Hrest|exact Hr]. }
  destruct o2 as [[q|]|e].
  - rewrite (bind_return _ _ _ _ _ E2).
    exists (Return q), s2, evs. split; [reflexivity|].
    rewrite Ht2, Ht1, Hq2, Hc1. split; [reflexivity|]. split; [reflexivity|]. split.
    + intros _ _. eexists. reflexivity.
    + intros Hwt. apply Hshape; [reflexivity|exact Hwt].
  - rewrite (bind_return _ _ _ _ _ E2).
    destruct (get_from_cache_spec theme s2)
      as (c & s3 & E3 & (Hc3 & Hl3 & Hk3 & Ht3 & Hp3)).
    rewrite (bind_return _ _ _ _ _ E3).
    destruct c as [q|].
    + exists (Return q), s3, evs. split; [reflexivity|].
      rewrite Ht3, Ht2, Ht1, Hc3, Hq2, Hc1. split; [reflexivity|]. split; [reflexivity|]. split.
      * intros _ _. eexists. reflexivity.
      * intros Hwt. apply Hshape; [exact Hl3|exact Hwt].
    + destruct (LOCAL_OK E).
      * destruct (get_local_quote_spec theme s3)
          as (o4 & s4 & E4 & Hc4 & Hl4 & Hk4 & Ht4 & Hr4).
        exists o4, s4, evs. split; [exact E4|].
        rewrite Ht4, Ht3, Ht2, Ht1, Hc4, Hc3, Hq2, Hc1. split; [reflexivity|]. split; [reflexivity|]. split.
        -- intros _ Hpool. apply Hr4. rewrite Hp3, Hp2, Hp1. exact Hpool.
        -- intros Hwt. apply Hshape; [rewrite Hl4; exact Hl3|exact Hwt].
      * exists (Return _get_fallback_quote), s3, evs. split; [reflexivity|].
        rewrite Ht3, Ht2, Ht1, Hc3, Hq2, Hc1. split; [reflexivity|]. split; [reflexivity|]. split.
        -- intros _ _. eexists. reflexivity.
        -- intros Hwt. apply Hshape; [exact Hl3|exact Hwt].
  - rewrite (bind_raise _ _ _ _ _ E2).
    exists (Raise e), s2, evs. split; [reflexivity|].
    rewrite Ht2, Ht1, Hq2, Hc1. split; [reflexivity|]. split; [reflexivity|]. split.
    + intros Hm _. destruct (Hn2 Hm) as [r Hr]. discriminate Hr.
    + intros Hwt. apply Hshape; [reflexivity|exact Hwt].
Qed.

(** A whole fetch: either it is served from the cache, with no event and
    the stamp untouched, or it went through the remote phase. *)
Lemma fetch_spec (theme : string) (s : state) :
  exists o s' evs,
    fetch_random_quote E theme s = (o, s')
    /\ trace s' = trace s ++ evs
    /\ quotes (cache s') = store_all (quotes (cache s)) (fetched_in evs)
    /\ ((forall i, mkdir_fails E i = false) -> pool s <> [] -> exists q, o = Return q)
    /\ (well_timed E ->
        (evs = [] /\ last_request_time s' = last_request_time s)
        \/ remote_shape s s' evs).
Proof.
  unfold fetch_random_quote.
  unfold bind at 1. unfold time_time at 1.
  unfold bind at 1. unfold get_state at 1.
  assert (Hc : exists c s1,
             (if negb (Qle_bool 300 (clock s - default 0%Q (timestamp (cache s))))
              then _get_from_cache E theme else ret None) s = (Return c, s1)
             /\ quiet s s1).
  { destruct (negb _).
    - apply get_from_cache_spec.
    - exists None, s. split; [reflexivity|]. repeat split. }
  destruct Hc as (c & s1 & E1 & (Hc1 & Hl1 & Hk1 & Ht1 & Hp1)).
  rewrite (bind_return _ _ _ _ _ E1).
  destruct c as [q|].
  - exists (Return q), s1, []. split; [reflexivity|].
    rewrite Ht1, Hc1, app_nil_r. split; [reflexivity|]. split; [reflexivity|]. split.
    + intros _ _. eexists. reflexivity.
    + intros _. left. split; [reflexivity|exact Hl1].
  - destruct (remote_phase_spec theme s1) as (o & s2 & evs & E2 & Ht2 & Hq2 & Hn2 & Hs2).
    exists o, s2, evs. split; [exact E2|].
    rewrite Ht2, Ht1, Hq2, Hc1. split; [reflexivity|]. split; [reflexivity|]. split.
    + intros Hm Hpool. apply Hn2; [exact Hm|]. rewrite Hp1. exact Hpool.
    + intros Hwt. right. specialize (Hs2 Hwt).
      unfold remote_shape in *. rewrite Hl1, Hk1 in Hs2. exact Hs2.
Qed.

End Steps.

(** *** The rate limit *)





(** What the separation does not cover: the stamp is taken once per call,
    so the attempts inside one call follow each other after the one-unit
    pause only, and the first remote call of the next fetch may come right
    after the last attempt of the previous one.  Here the remote calls are
    issued at 1000, 1001.5 and 1003, and the next fetch issues its first
    one at 1003.5. *)
Lemma attempts_are_paced_by_the_pause_only :
  let s := init 1000 Missing in
  let s1 := (fetch_random_quote offline_env "motivation" s).2 in
  let s2 := (fetch_random_quote offline_env "motivation" s1).2 in
  requests_in (new_events s s1) = [1000; 2003 # 2; 4012 # 4]%Q
  /\ last_request_time s1 = 1000%Q
  /\ head (requests_in (new_events s1 s2)) = Some (8028 # 8)%Q.
Proof. vm_compute. repeat split. Qed.

(** *** The cache bound *)






(** *** Failures *)

(** A failed exchange and an error status, 429 among them, give an empty
    attempt: nothing is raised and nothing is stored. *)
Lemma failed_exchange_is_empty_attempt (E : env) (s : state) (status : Z)
    (body : option json) (duration : Q) :
  net E (step s) = (duration, ConnectionFailed)
  \/ (net E (step s) = (duration, Http status body) /\ 400 <= status < 600) ->
  exists s',
    _fetch_single_quote E s = (Return None, s')
    /\ cache s' = cache s /\ disk s' = disk s.
Proof.
  intros H. unfold _fetch_single_quote, bind, requests_get, ret.
  destruct H as [->|[-> Hst]].
  - eexists. split; [reflexivity|]. split; reflexivity.
  - destruct (Z.leb_spec 400 status); [|lia].
    destruct (Z.ltb_spec status 600); [|lia].
    cbn [andb]. eexists. split; [reflexivity|]. split; reflexivity.
Qed.

(** A cache file that is absent or cannot be loaded gives the empty
    cache. *)
Lemma load_failure_is_empty_cache :
  _load_cache Missing = {| quotes := Some []; timestamp := Some 0%Q |}
  /\ _load_cache Unreadable = {| quotes := Some []; timestamp := Some 0%Q |}.
Proof. split; reflexivity. Qed.

(** As long as the cache directory can be created, a fetch returns a
    record, whatever the remote source answers and whatever writing the
    file does. *)
Lemma fetch_returns_when_mkdir_succeeds (E : env) (theme : string) (s : state) :
  (forall i, mkdir_fails E i = false) -> pool s <> [] ->
  exists q, (fetch_random_quote E theme s).1 = Return q.
Proof.
  intros Hm Hp.
  destruct (fetch_spec E theme s) as (o & s' & evs & Ef & _ & _ & Hr & _).
  rewrite Ef. apply Hr; assumption.
Qed.

(** C3 (the code departs from the claim): with an empty cache, a remote
    source that answers with a quote, and a cache directory that cannot be
    created, [fetch_random_quote('auto')] raises [OSError] to its caller:
    the record has been put into the in-memory cache, and [mkdir], which
    [_save_cache] calls outside its [try] block, raises. *)
Theorem C3_fetch_raises_when_mkdir_fails :
  let r := fetch_random_quote mkdir_denied_env "auto" (init 1000 Missing) in
  r.1 = Raise OSError
  /\ (content <$> (quotes (cache r.2) ≫= head))
     = Some "You can do it and achieve success"%string
  /\ disk r.2 = Missing.
Proof. vm_compute. repeat split. Qed.

End FetcherFacts.


(** ** The recent-set of the deduplication loop *)

Module RecentSetFacts.

Import QuoteRecord CacheUtils Samples.

(** The digests are those of hashlib (RFC 1321 test suite). *)
Lemma md5_test_suite :
  MD5.hexdigest "" = "d41d8cd98f00b204e9800998ecf8427e"%string
  /\ MD5.hexdigest "a" = "0cc175b9c0f1b6a831c399e269772661"%string
  /\ MD5.hexdigest "abc" = "900150983cd24fb0d6963f7d28e17f72"%string
  /\ MD5.hexdigest "message digest" = "f96b697d7cb7938d525a2f31aaf161d0"%string
  /\ MD5.hexdigest
       "12345678901234567890123456789012345678901234567890123456789012345678901234567890"
     = "57edf4a22be3c955ac49da2e2107b67a"%string.
Proof. vm_compute. repeat split. Qed.

Section AnyOrder.

Variable place : string -> list string -> nat.

Lemma set_add_length (x : string) (s : pyset) :
  (List.length (set_add place x s) <= S (List.length s))%nat.
Proof.
  unfold set_add. destruct (set_mem x s); [lia|].
  rewrite length_app, length_take. cbn [List.length]. rewrite length_drop. lia.
Qed.

Lemma set_of_list_length (l : list string) :
  (List.length (set_of_list place l) <= List.length l)%nat.
Proof.
  unfold set_of_list.
  assert (H : forall acc,
             (List.length (fold_left (fun s x => set_add place x s) l acc)
              <= List.length acc + List.length l)%nat).
  { induction l as [|x l IH]; intros acc; cbn [fold_left List.length]; [lia|].
    specialize (IH (set_add place x acc)).
    pose proof (set_add_length x acc). lia. }
  apply (H []).
Qed.

Context {F : Type}.
Variable fetch : string -> F -> QuoteFetcher.outcome (option quote) * F.

(** Whatever the iteration order of the set, the loop keeps it within 30
    hashes, and a record returned from inside the loop had a hash that
    was not in the set. *)
Lemma unique_loop_bounded (theme : string) (n : nat) :
  forall (fetcher : F) (quote_cache : pyset),
    (List.length quote_cache <= 30)%nat ->
    let '(r, _, quote_cache') := unique_loop place fetch theme n fetcher quote_cache in
    (List.length quote_cache' <= 30)%nat
    /\ forall q, r = Some q ->
         set_mem (get_quote_hash (content q)) quote_cache = false.
Proof.
  induction n as [|n IH]; intros fetcher qc Hlen; cbn [unique_loop].
  - split; [exact Hlen|discriminate].
  - destruct (fetch theme fetcher) as [[[q|]|e] fetcher'].
    + destruct (set_mem (get_quote_hash (content q)) qc) eqn:Hmem; cbn [negb].
      * apply IH. exact Hlen.
      * split.
        -- pose proof (set_add_length (get_quote_hash (content q)) qc) as Hadd.
           destruct (Nat.ltb_spec 30
                       (List.length (set_add place (get_quote_hash (content q)) qc)))
             as [Hover|Hfit]; [|exact Hfit].
           unfold list_of_set.
           pose proof (set_of_list_length
                         (tail (set_add place (get_quote_hash (content q)) qc))) as Hl.
           destruct (set_add place (get_quote_hash (content q)) qc) as [|h t];
             cbn [tail List.length] in *; lia.
        -- intros q' [= <-]. exact Hmem.
    + apply IH. exact Hlen.
    + apply IH. exact Hlen.
Qed.

(** The whole call keeps the set within 30 hashes; when the attempts are
    exhausted the set is emptied and the next result of the fetcher is
    returned whatever its hash. *)
Lemma fetch_unique_quote_bounded (fetcher : F) (theme : string) (max_attempts : Z)
    (quote_cache : pyset) :
  (List.length quote_cache <= 30)%nat ->
  let '(_, _, quote_cache') :=
    fetch_unique_quote place fetch fetcher theme max_attempts quote_cache in
  (List.length quote_cache' <= 30)%nat.
Proof.
  intros Hlen. unfold fetch_unique_quote.
  pose proof (unique_loop_bounded theme (Z.to_nat max_attempts) fetcher quote_cache Hlen)
    as Hloop.
  destruct (unique_loop place fetch theme (Z.to_nat max_attempts) fetcher quote_cache)
    as [[[q|] fetcher'] qc'].
  - apply Hloop.
  - destruct (fetch theme fetcher') as [[r|e] fetcher'']; cbn; lia.
Qed.

Lemma fetch_unique_quote_exhausted (fetcher fetcher' : F) (theme : string)
    (max_attempts : Z) (quote_cache quote_cache' : pyset) :
  unique_loop place fetch theme (Z.to_nat max_attempts) fetcher quote_cache
  = (None, fetcher', quote_cache') ->
  fetch_unique_quote place fetch fetcher theme max_attempts quote_cache
  = match fetch theme fetcher' with
    | (QuoteFetcher.Return r, fetcher'') => (r, fetcher'', [])
    | (QuoteFetcher.Raise _, fetcher'') => (None, fetcher'', [])
    end.
Proof. intros H. unfold fetch_unique_quote. rewrite H. reflexivity. Qed.

End AnyOrder.

(** Were a set iterated in the order of insertion, the hash dropped after
    31 new quotes would be the oldest one. *)
Lemma insertion_order_drops_oldest :
  let quote_cache := (session (fun _ s => List.length s) 31 0 []).2 in
  List.filter (fun n => negb (set_mem (hash_of n) quote_cache)) (seq 0 31) = [0%nat].
Proof. vm_compute. reflexivity. Qed.

(** C4 (the code departs from the claim): 31 calls in a row, each fetching
    a new quote, starting from an empty recent-set that is iterated in
    increasing order of its elements.  The set ends with 30 hashes, but the
    hash dropped is the one that comes first in the iteration, that of
    quote number 7; the oldest hash, that of quote number 0, is still
    held. *)
Theorem C4_eviction_is_not_fifo :
  let quote_cache := (session sorted_place 31 0 []).2 in
  List.length quote_cache = 30%nat
  /\ set_mem (hash_of 0) quote_cache = true
  /\ set_mem (hash_of 7) quote_cache = false
  /\ List.filter (fun n => negb (set_mem (hash_of n) quote_cache)) (seq 0 31) = [7%nat].
Proof. vm_compute. repeat split. Qed.

End RecentSetFacts.

(** ** Colour conversions, continued; the scheme tables *)

Module PaletteFacts.

Import ColorPalette ColorSchemes MoreAux MoreVocabulary.

Lemma all_bytes_ok : forallb byte_ok (map Z.of_nat (seq 0 256)) = true.
Proof. vm_compute. reflexivity. Qed.

Lemma byte_written (v : Z) :
  0 <= v <= 255 ->
  exists a b,
    PyStr.format_02x v = String a (String b EmptyString)
    /\ is_hex_digit a = true /\ is_hex_digit b = true
    /\ PyStr.int16 (String a (String b EmptyString)) = Some v.
Proof.
  intros Hv. pose proof all_bytes_ok as Hall.
  rewrite forallb_forall in Hall.
  assert (Hin : In v (map Z.of_nat (seq 0 256))).
  { apply in_map_iff. exists (Z.to_nat v). split; [lia|]. apply in_seq. lia. }
  specialize (Hall v Hin). unfold byte_ok in Hall.
  destruct (PyStr.format_02x v) as [|a [|b [|c r]]]; try discriminate Hall.
  apply andb_prop in Hall as [Hall Hint].
  apply andb_prop in Hall as [Ha Hb].
  apply bool_decide_eq_true in Hint.
  exists a, b. repeat split; assumption.
Qed.

(** Channels in 0..255 written by [rgb_to_hex] form a colour that
    [hex_to_rgb] reads back. *)
Lemma rgb_to_hex_parses (r g b : Z) :
  0 <= r <= 255 -> 0 <= g <= 255 -> 0 <= b <= 255 ->
  is_hex_color (rgb_to_hex (r, g, b)) = true
  /\ hex_to_rgb (rgb_to_hex (r, g, b)) = Some (r, g, b).
Proof.
  intros Hr Hg Hb.
  destruct (byte_written r Hr) as (r1 & r2 & Fr & Hr1 & Hr2 & Er).
  destruct (byte_written g Hg) as (g1 & g2 & Fg & Hg1 & Hg2 & Eg).
  destruct (byte_written b Hb) as (b1 & b2 & Fb & Hb1 & Hb2 & Eb).
  unfold rgb_to_hex. rewrite Fr, Fg, Fb.
  change ("#" +:+ String r1 (String r2 EmptyString) +:+ String g1 (String g2 EmptyString)
          +:+ String b1 (String b2 EmptyString))
    with (String "#" (String r1 (String r2 (String g1 (String g2
            (String b1 (String b2 EmptyString))))))).
  split.
  - unfold is_hex_color. cbn [String.length list_ascii_of_string forallb].
    rewrite Hr1, Hr2, Hg1, Hg2, Hb1, Hb2. reflexivity.
  - unfold hex_to_rgb. cbn [PyStr.lstrip].
    change (Ascii.eqb "#" "#") with true. cbv iota.
    cbn [PyStr.lstrip]. rewrite (ColorFacts.hex_digit_not_hash r1 Hr1).
    change (PyStr.slice 0 2 (String r1 (String r2 (String g1 (String g2
              (String b1 (String b2 EmptyString)))))))
      with (String r1 (String r2 EmptyString)).
    change (PyStr.slice 2 4 (String r1 (String r2 (String g1 (String g2
              (String b1 (String b2 EmptyString)))))))
      with (String g1 (String g2 EmptyString)).
    change (PyStr.slice 4 6 (String r1 (String r2 (String g1 (String g2
              (String b1 (String b2 EmptyString)))))))
      with (String b1 (String b2 EmptyString)).
    rewrite Er, Eg, Eb. reflexivity.
Qed.

(** X1: for channels between 0 and 255, [rgb_to_hex] writes a valid
    [#RRGGBB] colour and [hex_to_rgb] reads the same three channels back. *)
Theorem X1_rgb_hex_rgb_roundtrip (r g b : Z) :
  0 <= r <= 255 -> 0 <= g <= 255 -> 0 <= b <= 255 ->
  is_hex_color (rgb_to_hex (r, g, b)) = true
  /\ hex_to_rgb (rgb_to_hex (r, g, b)) = Some (r, g, b).
Proof. apply rgb_to_hex_parses. Qed.

Lemma X1_rgb_hex_rgb_roundtrip_witness :
  hex_to_rgb (rgb_to_hex (255, 215, 0)) = Some (255, 215, 0).
Proof.
  apply (X1_rgb_hex_rgb_roundtrip 255 215 0); lia.
Defined.

(** X2: on a valid colour [get_complementary_color] raises nothing and
    returns a valid colour whose channels are 255 minus the channels of
    its argument; applied twice it gives the colour back in lower case. *)
Theorem X2_complement_involution (c : string) :
  is_hex_color c = true ->
  exists c' r g b,
    hex_to_rgb c = Some (r, g, b)
    /\ get_complementary_color c = Some c'
    /\ is_hex_color c' = true
    /\ hex_to_rgb c' = Some (255 - r, 255 - g, 255 - b)
    /\ get_complementary_color c' = Some (PyStr.lower c).
Proof.
  intros H.
  destruct (ColorFacts.hex_to_rgb_valid c H) as (r & g & b & E & Hr & Hg & Hb & Hlow).
  destruct (rgb_to_hex_parses (255 - r) (255 - g) (255 - b)) as [Hv Hp]; try lia.
  exists (rgb_to_hex (255 - r, 255 - g, 255 - b)), r, g, b.
  split; [exact E|].
  split; [unfold get_complementary_color; rewrite E; reflexivity|].
  split; [exact Hv|]. split; [exact Hp|].
  unfold get_complementary_color. rewrite Hp.
  replace (255 - (255 - r)) with r by lia.
  replace (255 - (255 - g)) with g by lia.
  replace (255 - (255 - b)) with b by lia.
  rewrite Hlow. reflexivity.
Qed.

Lemma X2_complement_involution_witness :
  exists c',
    get_complementary_color "#FFD700" = Some c'
    /\ get_complementary_color c' = Some "#ffd700"%string.
Proof.
  destruct (X2_complement_involution "#FFD700" eq_refl)
    as (c' & r & g & b & _ & E1 & _ & _ & E2).
  exists c'. split; [exact E1|exact E2].
Defined.

Lemma scheme_ok_valid (sc : ColorScheme) :
  scheme_ok sc = true -> valid_palette (to_list sc).
Proof.
  unfold scheme_ok. intros H.
  apply andb_prop in H as [H Ha]. apply andb_prop in H as [Hb Ht].
  exists (background sc), (text sc), (accent sc). repeat split; assumption.
Qed.

Lemma emotion_schemes_ok (e : Emotion) :
  forallb scheme_ok (EMOTION_SCHEMES e) = true
  /\ List.length (EMOTION_SCHEMES e) = 3%nat.
Proof. destruct e; split; vm_compute; reflexivity. Qed.

Lemma time_schemes_ok (t : TimeOfDay) :
  forallb scheme_ok (TIME_SCHEMES t) = true.
Proof. destruct t; vm_compute; reflexivity. Qed.

Lemma dark_schemes_ok : forallb scheme_ok DARK_SCHEMES = true.
Proof. vm_compute. reflexivity. Qed.

Lemma choice_of_ok (r : nat) (l : list ColorScheme) :
  l <> [] -> forallb scheme_ok l = true ->
  exists sc, LocalQuotes.choice r l = Some sc /\ In sc l /\ scheme_ok sc = true.
Proof.
  intros Hne Hall.
  destruct (PoolFacts.choice_total r l Hne) as [sc Hsc].
  exists sc. split; [exact Hsc|].
  pose proof (PoolFacts.choice_elem r l sc Hsc) as Hin.
  apply list_elem_of_In in Hin. split; [exact Hin|].
  rewrite forallb_forall in Hall. apply Hall. exact Hin.
Qed.

(** X3: [get_scheme_for_emotion] returns a scheme of the emotion's table
    for every emotion name and every integer variant, negative ones
    included, and variants that differ by a multiple of 3 select the same
    scheme. *)
Theorem X3_scheme_for_emotion_any_variant (emotion : string) (variant k : Z) :
  exists sc,
    get_scheme_for_emotion emotion variant = Some sc
    /\ In sc (EMOTION_SCHEMES (emotion_enum emotion))
    /\ get_scheme_for_emotion emotion (variant + 3 * k) = Some sc.
Proof.
  unfold get_scheme_for_emotion.
  destruct (emotion_schemes_ok (emotion_enum emotion)) as [_ Hlen].
  destruct (EMOTION_SCHEMES (emotion_enum emotion)) as [|s0 [|s1 [|s2 [|s3 l]]]];
    try discriminate Hlen.
  cbn [List.length]. change (Z.of_nat 3) with 3.
  replace ((variant + 3 * k) mod 3) with (variant mod 3)
    by (rewrite Z.mul_comm, Z_mod_plus_full; reflexivity).
  pose proof (Z.mod_pos_bound variant 3 ltac:(lia)) as Hm.
  assert (Hcases : variant mod 3 = 0 \/ variant mod 3 = 1 \/ variant mod 3 = 2) by lia.
  destruct Hcases as [ -> | [ -> | -> ] ].
  - exists s0. repeat split. left. reflexivity.
  - exists s1. repeat split. right. left. reflexivity.
  - exists s2. repeat split. right. right. left. reflexivity.
Qed.

Lemma fresh_scheme (r : nat) (emotion : string) (time_period : option string)
    (prefer_dark : bool) :
  exists sc,
    (if prefer_dark then get_dark_scheme r
     else if bool_decide (time_period = Some "night"%string)
          then get_scheme_for_time r "night"
          else get_random_scheme_for_emotion r emotion) = Some sc
    /\ scheme_ok sc = true
    /\ In sc (if prefer_dark then DARK_SCHEMES
              else if bool_decide (time_period = Some "night"%string)
                   then TIME_SCHEMES NIGHT
                   else EMOTION_SCHEMES (emotion_enum emotion)).
Proof.
  destruct prefer_dark.
  - destruct (choice_of_ok r DARK_SCHEMES ltac:(discriminate) dark_schemes_ok)
      as (sc & E & Hin & Hok).
    exists sc. repeat split; assumption.
  - destruct (bool_decide (time_period = Some "night"%string)).
    + destruct (choice_of_ok r (TIME_SCHEMES NIGHT) ltac:(discriminate)
                  (time_schemes_ok NIGHT)) as (sc & E & Hin & Hok).
      exists sc. repeat split; assumption.
    + destruct (emotion_schemes_ok (emotion_enum emotion)) as [Hall Hlen].
      destruct (choice_of_ok r (EMOTION_SCHEMES (emotion_enum emotion)))
        as (sc & E & Hin & Hok); [|exact Hall|].
      { intros Hnil. rewrite Hnil in Hlen. discriminate Hlen. }
      exists sc. repeat split; assumption.
Qed.

(** The palette selection on a memo table whose entries are valid. *)
Lemma palette_selected (r : nat) (emotion : string) (time_period : option string)
    (prefer_dark : bool) (c : gmap string (list string)) :
  cache_ok c ->
  exists p c',
    get_intelligent_palette r emotion time_period prefer_dark c = Some (p, c')
    /\ valid_palette p /\ cache_ok c'
    /\ c' !! cache_key emotion time_period prefer_dark = Some p
    /\ (c !! cache_key emotion time_period prefer_dark = None ->
        exists sc,
          p = to_list sc
          /\ In sc (if prefer_dark then DARK_SCHEMES
                    else if bool_decide (time_period = Some "night"%string)
                         then TIME_SCHEMES NIGHT
                         else EMOTION_SCHEMES (emotion_enum emotion))).
Proof.
  intros Hc. unfold get_intelligent_palette.
  destruct (c !! cache_key emotion time_period prefer_dark) as [p|] eqn:Ek.
  - exists p, c. split; [reflexivity|]. split; [eapply Hc; exact Ek|].
    split; [exact Hc|]. split; [exact Ek|discriminate].
  - destruct (fresh_scheme r emotion time_period prefer_dark) as (sc & E & Hok & Hin).
    rewrite E. cbn [mbind option_bind].
    exists (to_list sc), (<[cache_key emotion time_period prefer_dark := to_list sc]> c).
    split; [reflexivity|]. split; [apply scheme_ok_valid, Hok|].
    split.
    + intros k p Hk. apply lookup_insert_Some in Hk as [[_ <-]|[_ Hk]].
      * apply scheme_ok_valid, Hok.
      * eapply Hc. exact Hk.
    + split; [apply lookup_insert_eq|]. intros _. exists sc. split; [reflexivity|exact Hin].
Qed.

(** X4: on a memo table whose entries are valid palettes,
    [get_intelligent_palette] returns, for every emotion name, period,
    flag and random draw, a palette of three valid colours and stores it
    under the key of the request; when the key was absent the palette is a
    scheme of the dark table if [prefer_dark] is set, else of the night
    table if the period is exactly ['night'], else of the table of the
    emotion (the neutral one for an unknown name). *)
Theorem X4_intelligent_palette_valid (r : nat) (emotion : string)
    (time_period : option string) (prefer_dark : bool) (c : gmap string (list string)) :
  cache_ok c ->
  exists p c',
    get_intelligent_palette r emotion time_period prefer_dark c = Some (p, c')
    /\ valid_palette p /\ cache_ok c'
    /\ c' !! cache_key emotion time_period prefer_dark = Some p
    /\ (c !! cache_key emotion time_period prefer_dark = None ->
        exists sc,
          p = to_list sc
          /\ In sc (if prefer_dark then DARK_SCHEMES
                    else if bool_decide (time_period = Some "night"%string)
                         then TIME_SCHEMES NIGHT
                         else EMOTION_SCHEMES (emotion_enum emotion))).
Proof. apply palette_selected. Qed.

Lemma cache_ok_empty : cache_ok ∅.
Proof. intros k p Hk. rewrite lookup_empty in Hk. discriminate Hk. Qed.

Lemma X4_intelligent_palette_valid_witness :
  exists p c',
    get_intelligent_palette 4 "Wisdom" (Some "Night"%string) false ∅ = Some (p, c')
    /\ valid_palette p
    /\ p = ["#34495E"; "#FDFEFE"; "#7F8C8D"]%string.
Proof.
  destruct (X4_intelligent_palette_valid 4 "Wisdom" (Some "Night"%string) false ∅
              cache_ok_empty) as (p & c' & E & Hv & _ & _ & _).
  exists p, c'. split; [exact E|]. split; [exact Hv|].
  vm_compute in E. injection E as <- _. reflexivity.
Defined.

(** X5: the memo table answers by key: once a request has been served,
    any request whose formatted key is the same, whatever its random draw,
    returns the same palette and leaves the table as it is, also when its
    emotion and period are different strings. *)
Theorem X5_palette_memo_by_key (r r' : nat) (emotion emotion' : string)
    (time_period time_period' : option string) (prefer_dark prefer_dark' : bool)
    (c c' : gmap string (list string)) (p : list string) :
  get_intelligent_palette r emotion time_period prefer_dark c = Some (p, c') ->
  cache_key emotion' time_period' prefer_dark' = cache_key emotion time_period prefer_dark ->
  get_intelligent_palette r' emotion' time_period' prefer_dark' c' = Some (p, c').
Proof.
  intros H Hkey.
  assert (Hk : c' !! cache_key emotion time_period prefer_dark = Some p).
  { unfold get_intelligent_palette in H.
    destruct (c !! cache_key emotion time_period prefer_dark) as [p0|] eqn:Ek.
    - injection H as <- <-. exact Ek.
    - match type of H with
      | mbind _ ?m = _ => destruct m as [sc|]; [|discriminate H]
      end.
      cbn [mbind option_bind] in H. injection H as <- <-. apply lookup_insert_eq. }
  unfold get_intelligent_palette. rewrite Hkey, Hk. reflexivity.
Qed.

Lemma X5_palette_memo_by_key_witness :
  exists p c',
    get_intelligent_palette 0 "joy_night" (Some "x"%string) false ∅ = Some (p, c')
    /\ get_intelligent_palette 1 "joy" (Some "night_x"%string) false c' = Some (p, c')
    /\ p = ["#607D8B"; "#FFFFFF"; "#455A64"]%string.
Proof.
  eexists. eexists. split; [reflexivity|]. split; [|reflexivity].
  apply (X5_palette_memo_by_key 0 1 "joy_night" "joy" (Some "x"%string)
           (Some "night_x"%string) false false ∅); reflexivity.
Defined.

(** X26: for a background written [#RRGGBB], [create_custom_scheme]
    keeps the background and the accent and replaces the requested text
    colour, whatever it is, by a colour whose perceived brightness differs
    from the background's by more than 102. *)
Theorem X26_custom_scheme_contrast (bg tx ac : string) (nm : option string) :
  is_hex_color bg = true ->
  exists sc bb tb,
    create_custom_scheme bg tx ac nm = Some sc
    /\ background sc = bg /\ accent sc = ac
    /\ calculate_brightness bg = Some bb
    /\ calculate_brightness (text sc) = Some tb
    /\ (102 < bb - tb \/ 102 < tb - bb)%Q.
Proof.
  intros H.
  destruct (ColorFacts.hex_to_rgb_valid bg H) as (r & g & b & E & _).
  unfold create_custom_scheme, ensure_contrast, calculate_brightness at 1 2. rewrite E.
  set (bb := (inject_Z r * (299 # 1000) + inject_Z g * (587 # 1000)
              + inject_Z b * (114 # 1000))%Q).
  destruct (Qle_bool bb 128) eqn:Hle; cbn [negb mbind option_bind].
  - eexists _, bb, _. split; [reflexivity|]. cbn [background accent text].
    split; [reflexivity|]. split; [reflexivity|]. split; [reflexivity|].
    split; [vm_compute; reflexivity|].
    right. apply Qle_bool_iff in Hle. lra.
  - eexists _, bb, _. split; [reflexivity|]. cbn [background accent text].
    split; [reflexivity|]. split; [reflexivity|]. split; [reflexivity|].
    split; [vm_compute; reflexivity|].
    left. assert (Hgt : (128 < bb)%Q).
    { apply Qnot_le_lt. intros Hc. apply Qle_bool_iff in Hc. congruence. }
    lra.
Qed.

Lemma X26_custom_scheme_contrast_witness :
  exists sc,
    create_custom_scheme "#808080" "#000000" "#FF0000" None = Some sc
    /\ text sc = "#FAFAFA"%string
    /\ name sc = Some "Custom"%string.
Proof.
  destruct (X26_custom_scheme_contrast "#808080" "#000000" "#FF0000" None eq_refl)
    as (sc & bb & tb & Esc & _).
  exists sc. split; [exact Esc|].
  vm_compute in Esc. injection Esc as <-. split; reflexivity.
Defined.

Lemma preview_of_table (e : Emotion) :
  let l := EMOTION_SCHEMES e in
  let d := fold_left (fun d scheme => <[str_of_optional (name scheme) := scheme]> d) l
                     (∅ : gmap string ColorScheme) in
  size d = 3%nat
  /\ List.length l = 3%nat
  /\ map (fun sc => d !! str_of_optional (name sc)) l = map Some l.
Proof. destruct e; vm_compute; repeat split. Qed.

Lemma map_pointwise {A B : Type} (f g : A -> B) (l : list A) (x : A) :
  map f l = map g l -> In x l -> f x = g x.
Proof.
  induction l as [|y l IH]; intros Hm Hin; [destruct Hin|].
  cbn [map] in Hm. injection Hm as Hy Hl.
  destruct Hin as [ <- | Hin]; [exact Hy|exact (IH Hl Hin)].
Qed.

(** X27: for every emotion name, [get_scheme_preview] loses no variant:
    the preview has as many entries as [get_all_variants] has schemes,
    three, and every variant is found under its own name (the names of
    the variants of one emotion are pairwise distinct). *)
Theorem X27_scheme_preview_complete (emotion : string) :
  size (get_scheme_preview emotion) = List.length (get_all_variants emotion)
  /\ List.length (get_all_variants emotion) = 3%nat
  /\ forall sc,
       In sc (get_all_variants emotion) ->
       get_scheme_preview emotion !! str_of_optional (name sc) = Some sc.
Proof.
  unfold get_scheme_preview, get_all_variants.
  destruct (preview_of_table (emotion_enum emotion)) as (Hsize & Hlen & Hmap).
  cbv zeta in Hsize, Hmap.
  split; [rewrite Hsize, Hlen; reflexivity|]. split; [exact Hlen|].
  intros sc Hin.
  exact (map_pointwise _ _ _ sc Hmap Hin).
Qed.

End PaletteFacts.

(** ** Text layout and rendering, continued *)

Module LayoutMoreFacts.

Import ImageGenerator LayoutAux MoreAux MoreVocabulary.

(** X6: the font size is one of the four tiers 48, 42, 36, 32, and a
    longer text never gets a larger size. *)
Theorem X6_font_size_antitone (a b : Z) :
  a <= b ->
  _calculate_font_size b <= _calculate_font_size a
  /\ In (_calculate_font_size a) [48; 42; 36; 32].
Proof.
  intros Hab. unfold _calculate_font_size.
  change (default 0 (FONT_SIZES_quote !! "small")) with 48.
  change (default 0 (FONT_SIZES_quote !! "medium")) with 42.
  change (default 0 (FONT_SIZES_quote !! "large")) with 36.
  change (default 0 (FONT_SIZES_quote !! "xlarge")) with 32.
  destruct (Z.ltb_spec a 60); destruct (Z.ltb_spec a 120);
    destruct (Z.ltb_spec a 180); destruct (Z.ltb_spec b 60);
    destruct (Z.ltb_spec b 120); destruct (Z.ltb_spec b 180);
    split; try lia; cbn; tauto.
Qed.

Lemma X6_font_size_antitone_witness :
  _calculate_font_size 200 <= _calculate_font_size 59
  /\ In (_calculate_font_size 59) [48; 42; 36; 32].
Proof. apply (X6_font_size_antitone 59 200). lia. Defined.

(** X7: [_wrap_text] never returns an empty list, and its lines, joined
    with spaces, split into exactly the words of the text: no word is
    lost, added, cut or moved. *)
Theorem X7_wrap_text_keeps_words (text : string) (f : font) (max_width : Z) :
  _wrap_text text f max_width <> []
  /\ PyStr.split (PyStr.join " " (_wrap_text text f max_width)) = PyStr.split text.
Proof.
  rewrite LayoutFacts.wrap_text_lines_of.
  destruct (lines_of f max_width (PyStr.split text)) as [|l ls] eqn:El.
  - split; [discriminate|reflexivity].
  - split; [discriminate|].
    rewrite <- El, LayoutFacts.join_lines_of.
    apply StrFacts.split_join, StrFacts.split_words.
Qed.

(** The loop keeps every closed line, and the open one, within the width
    unless it is a single word. *)
Lemma wrap_loop_fits (f : font) (max_width : Z) (all : list string) (words : list string) :
  forall (lines cur : list string),
    (forall w, In w words -> In w all) ->
    Forall (fits_or_word f max_width all) lines ->
    (cur = [] \/ fits_or_word f max_width all (PyStr.join " " cur)) ->
    let '(lines', cur') := wrap_loop f max_width words lines cur in
    Forall (fits_or_word f max_width all) lines'
    /\ (cur' = [] \/ fits_or_word f max_width all (PyStr.join " " cur')).
Proof.
  induction words as [|word words IH]; intros lines cur Hsub Hlines Hcur.
  - split; assumption.
  - cbn [wrap_loop].
    assert (Hsub' : forall w, In w words -> In w all).
    { intros w Hw. apply Hsub. right. exact Hw. }
    destruct (Z.leb_spec (text_width f (PyStr.join " " (cur ++ [word]))) max_width)
      as [Hfit|Hover].
    + apply IH; [exact Hsub'|exact Hlines|]. right. left. exact Hfit.
    + apply IH; [exact Hsub'| |].
      * destruct cur as [|c cur]; [exact Hlines|].
        apply Forall_app. split; [exact Hlines|].
        constructor; [|constructor].
        destruct Hcur as [Hnil|Hok]; [discriminate Hnil|exact Hok].
      * right. right. apply Hsub. left. reflexivity.
Qed.

(** X8: in the lines of a text that has at least one word, a line wider
    than the maximum width is a single word of the text: a line made of
    several words always fits. *)
Theorem X8_wrap_text_lines_fit (text : string) (f : font) (max_width : Z) :
  PyStr.split text <> [] ->
  Forall (fits_or_word f max_width (PyStr.split text)) (_wrap_text text f max_width).
Proof.
  intros Hwords. unfold _wrap_text.
  pose proof (wrap_loop_fits f max_width (PyStr.split text) (PyStr.split text) [] []
                (fun w H => H) (List.Forall_nil _) (or_introl eq_refl)) as Hloop.
  pose proof (LayoutFacts.wrap_loop_groups f max_width (PyStr.split text) [] []
                (List.Forall_nil _)) as (g' & c' & Eg & _ & Hcat).
  cbn [map] in Eg. rewrite Eg in Hloop |- *.
  destruct Hloop as [Hl Hc].
  destruct c' as [|w c'].
  - destruct (map (PyStr.join " ") g') as [|l ls] eqn:Em; [|exact Hl].
    exfalso. destruct g'; [|discriminate Em].
    cbn in Hcat. apply Hwords. symmetry. exact Hcat.
  - assert (Hall : Forall (fits_or_word f max_width (PyStr.split text))
                     (map (PyStr.join " ") g' ++ [PyStr.join " " (w :: c')])).
    { apply Forall_app. split; [exact Hl|]. constructor; [|constructor].
      destruct Hc as [Hnil|Hok]; [discriminate Hnil|exact Hok]. }
    destruct (map (PyStr.join " ") g' ++ [PyStr.join " " (w :: c')]) eqn:Em;
      [|exact Hall].
    destruct (map (PyStr.join " ") g'); discriminate Em.
Qed.

Lemma X8_wrap_text_lines_fit_witness :
  _wrap_text "aaa bb cccccccc d e f" Samples.fixed_pitch 60
  = ["aaa bb"; "cccccccc"; "d e f"]%string
  /\ Forall (fits_or_word Samples.fixed_pitch 60 (PyStr.split "aaa bb cccccccc d e f"))
            (_wrap_text "aaa bb cccccccc d e f" Samples.fixed_pitch 60).
Proof.
  split; [reflexivity|].
  apply (X8_wrap_text_lines_fit "aaa bb cccccccc d e f" Samples.fixed_pitch 60).
  discriminate.
Defined.

(** The calls of [draw_lines]. *)
Lemma draw_lines_spec (self : generator) (quote_font : font) (text_color : rgb)
    (line_spacing : Z) (quote_lines : list string) :
  forall y_pos,
    exists ops,
      draw_lines self quote_lines quote_font text_color line_spacing y_pos
      = (ops, y_pos + Z.of_nat (List.length quote_lines) * line_spacing)
      /\ texts_of ops = quote_lines
      /\ List.length ops = List.length quote_lines
      /\ forall (i : nat) (line : string),
           quote_lines !! i = Some line ->
           exists x,
             ops !! i = Some (DrawText (x, y_pos + Z.of_nat i * line_spacing)
                                       line quote_font text_color)
             /\ 0 <= (size self).1 - text_width quote_font line - 2 * x <= 1.
Proof.
  induction quote_lines as [|line rest IH]; intros y_pos.
  - exists []. split; [cbn; f_equal; lia|]. split; [reflexivity|].
    split; [reflexivity|]. intros i l Hi. discriminate Hi.
  - cbn [draw_lines].
    destruct (IH (y_pos + line_spacing)) as (ops & E & Ht & Hl & Hi).
    rewrite E.
    eexists. split.
    { f_equal. cbn [List.length]. lia. }
    split; [cbn [texts_of flat_map app]; f_equal; exact Ht|].
    split; [cbn [List.length]; f_equal; exact Hl|].
    intros i l Hlook. destruct i as [|i].
    + injection Hlook as <-. eexists. split.
      { replace (y_pos + Z.of_nat 0 * line_spacing) with y_pos by lia. reflexivity. }
      pose proof (Z.div_mod ((size self).1 - text_width quote_font line) 2 ltac:(lia)).
      pose proof (Z.mod_pos_bound ((size self).1 - text_width quote_font line) 2
                    ltac:(lia)).
      lia.
    + destruct (Hi i l Hlook) as (x & Ex & Hx).
      exists x. split; [|exact Hx].
      rewrite lookup_cons. rewrite Ex.
      replace (y_pos + Z.of_nat (S i) * line_spacing)
        with (y_pos + line_spacing + Z.of_nat i * line_spacing) by lia.
      reflexivity.
Qed.

(** X9: the quote lines are drawn once each, in order, with the quote font
    and the text colour; line [i] is drawn [i] line spacings below the
    first, and is centred: its left and right margins differ by at most
    one pixel. *)
Theorem X9_lines_centred_and_stacked (self : generator) (quote_font : font)
    (text_color : rgb) (line_spacing y_pos : Z) (quote_lines : list string) :
  exists ops,
    draw_lines self quote_lines quote_font text_color line_spacing y_pos
    = (ops, y_pos + Z.of_nat (List.length quote_lines) * line_spacing)
    /\ texts_of ops = quote_lines
    /\ List.length ops = List.length quote_lines
    /\ forall (i : nat) (line : string),
         quote_lines !! i = Some line ->
         exists x,
           ops !! i = Some (DrawText (x, y_pos + Z.of_nat i * line_spacing)
                                     line quote_font text_color)
           /\ 0 <= (size self).1 - text_width quote_font line - 2 * x <= 1.
Proof. apply draw_lines_spec. Qed.

End LayoutMoreFacts.

(** ** Rendering, continued *)

Module RenderMoreFacts.

Import ImageGenerator LayoutAux MoreAux MoreVocabulary.

Lemma texts_of_app (a b : list draw_op) : texts_of (a ++ b) = texts_of a ++ texts_of b.
Proof. unfold texts_of. apply flat_map_app. Qed.

Lemma minimal_texts (self : generator) (quote_lines : list string) (author : string)
    (quote_font author_font : font) (text_color : rgb) (line_spacing : Z) :
  texts_of (_render_minimal_style self quote_lines author quote_font author_font
                                  text_color line_spacing)
  = quote_lines ++ ["— " +:+ author].
Proof.
  unfold _render_minimal_style.
  destruct (LayoutMoreFacts.draw_lines_spec self quote_font text_color line_spacing
              quote_lines
              (((size self).2 - (Z.of_nat (List.length quote_lines) * line_spacing + 80)) / 2))
    as (ops & E & Ht & _).
  rewrite E. rewrite texts_of_app, Ht. reflexivity.
Qed.

Lemma moderne_texts (self : generator) (quote_lines : list string) (author : string)
    (quote_font author_font : font) (text_color accent_color : rgb)
    (line_spacing padding : Z) :
  texts_of (_render_moderne_style self quote_lines author quote_font author_font
                                  text_color accent_color line_spacing padding)
  = [quote_glyph] ++ quote_lines ++ [quote_glyph; "— " +:+ author].
Proof.
  unfold _render_moderne_style.
  destruct (LayoutMoreFacts.draw_lines_spec self quote_font text_color line_spacing
              quote_lines
              (((size self).2 - (Z.of_nat (List.length quote_lines) * line_spacing + 80)) / 2))
    as (ops & E & Ht & _).
  rewrite E. rewrite !texts_of_app, Ht. reflexivity.
Qed.

Lemma elegant_texts (self : generator) (quote_lines : list string) (author : string)
    (quote_font author_font : font) (text_color accent_color : rgb)
    (line_spacing padding : Z) :
  texts_of (_render_elegant_style self quote_lines author quote_font author_font
                                  text_color accent_color line_spacing padding)
  = [quote_glyph] ++ quote_lines ++ [quote_glyph; "— " +:+ author +:+ " —"].
Proof.
  unfold _render_elegant_style.
  destruct (LayoutMoreFacts.draw_lines_spec self quote_font text_color line_spacing
              quote_lines
              (((size self).2 - (Z.of_nat (List.length quote_lines) * line_spacing + 80)) / 2))
    as (ops & E & Ht & _).
  rewrite E. rewrite !texts_of_app, Ht. reflexivity.
Qed.

(** The colours [create_image] reads from a palette of at least two
    entries whose first three are valid. *)
Lemma palette_colours (bg text : string) (rest : list string) :
  Forall (fun c => ColorPalette.is_hex_color c = true) (take 3 (bg :: text :: rest)) ->
  exists fill tc ac,
    _hex_to_rgb bg = Some fill
    /\ (c ← (if (1 <? List.length (bg :: text :: rest))%nat
             then (bg :: text :: rest) !! 1%nat else Some "#FFFFFF"%string);
        _hex_to_rgb c) = Some tc
    /\ (c ← (if (2 <? List.length (bg :: text :: rest))%nat
             then (bg :: text :: rest) !! 2%nat else (bg :: text :: rest) !! 1%nat);
        _hex_to_rgb c) = Some ac.
Proof.
  intros Hcols. cbn [take] in Hcols.
  inversion Hcols as [|? ? Hbg Hcols']; subst.
  inversion Hcols' as [|? ? Htext Hrest]; subst.
  destruct (RenderFacts.hex_color_parses bg Hbg) as (fill & Efill).
  destruct (RenderFacts.hex_color_parses text Htext) as (tc & Etc).
  exists fill, tc.
  destruct rest as [|accent rest].
  - exists tc. split; [exact Efill|]. split; cbn; rewrite Etc; reflexivity.
  - cbn [take] in Hrest. inversion Hrest as [|? ? Hacc _]; subst.
    destruct (RenderFacts.hex_color_parses accent Hacc) as (ac & Eac).
    exists ac. split; [exact Efill|].
    split; cbn; [rewrite Etc|rewrite Eac]; reflexivity.
Qed.

(** With such a palette [create_image] returns an image for every style;
    its canvas is the gradient for the three bordered styles and the plain
    fill otherwise, and the texts drawn are the wrapped lines framed by
    what the style adds. *)
Lemma create_image_rendered (self : generator)
    (quote_text author bg text style font_family : string) (rest : list string) :
  Forall (fun c => ColorPalette.is_hex_color c = true) (take 3 (bg :: text :: rest)) ->
  exists img fill,
    create_image self quote_text author (bg :: text :: rest) style font_family = Some img
    /\ _hex_to_rgb bg = Some fill
    /\ base img
       = (if style_in style ["moderne"; "elegant"; "élégant"]
          then GradientFill (size self) fill fill
          else SolidFill (size self) fill)
    /\ texts_of (drawn img)
       = (let lines := layout_lines self quote_text style font_family in
          if String.eqb style "minimal" then lines ++ ["— " +:+ author]
          else if String.eqb style "moderne"
               then [quote_glyph] ++ lines ++ [quote_glyph; "— " +:+ author]
          else if style_in style ["elegant"; "élégant"]
               then [quote_glyph] ++ lines ++ [quote_glyph; "— " +:+ author +:+ " —"]
          else []).
Proof.
  intros Hcols.
  destruct (palette_colours bg text rest Hcols) as (fill & tc & ac & Efill & Etc & Eac).
  unfold create_image. rewrite Etc, Eac.
  assert (Hbase :
    (if style_in style ["moderne"; "elegant"; "élégant"]
        && (2 <=? List.length (bg :: text :: rest))%nat
     then c0 ← (bg :: text :: rest) !! 0%nat; _create_gradient_background self c0 c0
     else c0 ← (bg :: text :: rest) !! 0%nat;
          fill0 ← _hex_to_rgb c0; Some (SolidFill (size self) fill0))
    = Some (if style_in style ["moderne"; "elegant"; "élégant"]
            then GradientFill (size self) fill fill
            else SolidFill (size self) fill)).
  { change (2 <=? List.length (bg :: text :: rest))%nat with true.
    rewrite andb_true_r.
    destruct (style_in style ["moderne"; "elegant"; "élégant"]); cbn.
    - unfold _create_gradient_background. rewrite Efill. reflexivity.
    - rewrite Efill. reflexivity. }
  rewrite Hbase. cbn [mbind option_bind].
  eexists. exists fill. split; [reflexivity|]. split; [exact Efill|].
  split; [reflexivity|]. cbn [drawn]. cbv zeta.
  destruct (String.eqb style "minimal"); [apply minimal_texts|].
  destruct (String.eqb style "moderne"); [apply moderne_texts|].
  destruct (style_in style ["elegant"; "élégant"]); [apply elegant_texts|reflexivity].
Qed.

(** X10: for every style name and every palette of at least two colours
    whose first three are valid, [create_image] raises nothing; the canvas
    is the gradient for moderne, elegant and its accented spelling and the
    plain background otherwise; and the texts drawn are, in order, the
    wrapped lines of the quote followed by the author line for minimal,
    the same between two quotation glyphs for moderne and elegant (the
    author between dashes for elegant), and nothing for any other style. *)
Theorem X10_create_image_texts (self : generator)
    (quote_text author bg text style font_family : string) (rest : list string) :
  Forall (fun c => ColorPalette.is_hex_color c = true) (take 3 (bg :: text :: rest)) ->
  exists img fill,
    create_image self quote_text author (bg :: text :: rest) style font_family = Some img
    /\ _hex_to_rgb bg = Some fill
    /\ base img
       = (if style_in style ["moderne"; "elegant"; "élégant"]
          then GradientFill (size self) fill fill
          else SolidFill (size self) fill)
    /\ texts_of (drawn img)
       = (let lines := layout_lines self quote_text style font_family in
          if String.eqb style "minimal" then lines ++ ["— " +:+ author]
          else if String.eqb style "moderne"
               then [quote_glyph] ++ lines ++ [quote_glyph; "— " +:+ author]
          else if style_in style ["elegant"; "élégant"]
               then [quote_glyph] ++ lines ++ [quote_glyph; "— " +:+ author +:+ " —"]
          else []).
Proof. apply create_image_rendered. Qed.

Lemma X10_create_image_texts_witness :
  exists img,
    create_image Samples.sample_generator "Soyez le changement" "Gandhi"
                 ["#FFD93D"; "#2C2C2C"; "#FF6B6B"] "minimal" "DejaVu Sans" = Some img
    /\ texts_of (drawn img) = ["Soyez le changement"; "— Gandhi"]%string.
Proof.
  destruct (X10_create_image_texts Samples.sample_generator "Soyez le changement"
              "Gandhi" "#FFD93D" "#2C2C2C" "minimal" "DejaVu Sans" ["#FF6B6B"%string])
    as (img & fill & E & _ & _ & Ht); [repeat constructor|].
  exists img. split; [exact E|]. rewrite Ht. reflexivity.
Defined.

(** X11: a palette of fewer than two colours makes [create_image] raise
    for every style, whatever the colour: the default text colour does not
    help, because the accent then falls back to the missing second
    entry. *)
Theorem X11_create_image_needs_two_colours (self : generator)
    (quote_text author style font_family : string) (colors : list string) :
  (List.length colors < 2)%nat ->
  create_image self quote_text author colors style font_family = None.
Proof.
  intros Hlen. unfold create_image.
  destruct colors as [|c [|c' colors]]; [| |cbn in Hlen; lia].
  - rewrite andb_false_r. reflexivity.
  - rewrite andb_false_r. cbn [lookup list_lookup mbind option_bind].
    destruct (_hex_to_rgb c) as [fill|]; [|reflexivity].
    cbn [mbind option_bind]. reflexivity.
Qed.

Lemma X11_create_image_needs_two_colours_witness :
  create_image Samples.sample_generator "Soyez le changement" "Gandhi"
               ["#FFD93D"] "minimal" "DejaVu Sans" = None.
Proof.
  apply (X11_create_image_needs_two_colours Samples.sample_generator
           "Soyez le changement" "Gandhi" "minimal" "DejaVu Sans" ["#FFD93D"%string]).
  cbn. lia.
Defined.

(** X12: the palette [get_intelligent_palette] selects, on a memo table
    whose entries are valid, is always accepted by [create_image], for
    every style. *)
Theorem X12_selected_palette_renders (r : nat) (emotion : string)
    (time_period : option string) (prefer_dark : bool)
    (c : gmap string (list string)) (self : generator)
    (quote_text author style font_family : string) :
  cache_ok c ->
  exists p c' img,
    ColorSchemes.get_intelligent_palette r emotion time_period prefer_dark c
    = Some (p, c')
    /\ create_image self quote_text author p style font_family = Some img.
Proof.
  intros Hc.
  destruct (PaletteFacts.palette_selected r emotion time_period prefer_dark c Hc)
    as (p & c' & E & (bg & tx & ac & -> & Hbg & Htx & Hac) & _).
  destruct (create_image_rendered self quote_text author bg tx style font_family [ac])
    as (img & fill & Ei & _); [repeat constructor; assumption|].
  exists [bg; tx; ac], c', img. split; [exact E|exact Ei].
Qed.

Lemma X12_selected_palette_renders_witness :
  exists p c' img,
    ColorSchemes.get_intelligent_palette 2 "fear" None true ∅ = Some (p, c')
    /\ create_image Samples.sample_generator "Soyez le changement" "Gandhi" p
                    "elegant" "DejaVu Sans" = Some img.
Proof.
  apply (X12_selected_palette_renders 2 "fear" None true ∅ Samples.sample_generator
           "Soyez le changement" "Gandhi" "elegant" "DejaVu Sans").
  apply PaletteFacts.cache_ok_empty.
Defined.

End RenderMoreFacts.

(** ** Font discovery and loading *)

Module FontFacts.

Import ImageGenerator FontLoader MoreAux MoreVocabulary.

Lemma of_weight_usable (fs : font_files)
    (available_fonts : gmap string (gmap string (option string))) (family w : string)
    (rest : list string) :
  List.find (path_exists fs)
            (match (m ← available_fonts !! family; mjoin (m !! w)) with
             | Some p => if String.eqb p EmptyString then [] else [p]
             | None => []
             end ++ rest)
  = match usable fs (m ← available_fonts !! family; mjoin (m !! w)) with
    | Some p => Some p
    | None => List.find (path_exists fs) rest
    end.
Proof.
  unfold usable.
  destruct (m ← available_fonts !! family; mjoin (m !! w)) as [p|]; [|reflexivity].
  destruct (String.eqb p EmptyString); [reflexivity|].
  cbn [negb andb app List.find].
  destruct (path_exists fs p); reflexivity.
Qed.

(** The search of [_get_font] on a cache miss. *)
Lemma get_font_chain (fs : font_files)
    (available_fonts : gmap string (gmap string (option string)))
    (fonts_cache : gmap string font) (size : Z) (weight family : string) :
  fonts_cache !! font_cache_key size weight family = None ->
  _get_font fs available_fonts fonts_cache size weight family
  = font_from fs fonts_cache size weight family
      (List.find (path_exists fs) (font_candidates available_fonts weight family)).
Proof.
  intros Hmiss. unfold _get_font, font_candidates.
  change (family +:+ "_" +:+ weight +:+ "_" +:+ PyStr.str_of_Z size)
    with (font_cache_key size weight family).
  rewrite Hmiss. cbv zeta.
  rewrite of_weight_usable.
  destruct (usable fs (m ← available_fonts !! family; mjoin (m !! weight))) as [p|];
    [reflexivity|].
  destruct (String.eqb weight "bold").
  - rewrite of_weight_usable.
    destruct (usable fs (m ← available_fonts !! family; mjoin (m !! "regular"%string)))
      as [p|]; [reflexivity|].
    destruct (List.find (path_exists fs) (fallback_paths weight)); reflexivity.
  - cbn [app].
    destruct (List.find (path_exists fs) (fallback_paths weight)); reflexivity.
Qed.

(** X13: on a cache miss [_get_font] takes the first path that exists among,
    in this order, the file of the requested family and weight, the
    regular file of the family when bold was asked, the DejaVu Sans file
    of the capitalised weight and the DejaVu Sans regular file; it returns
    that file loaded at the size, and the built-in font when no candidate
    exists. *)
Theorem X13_get_font_fallback_chain (fs : font_files)
    (available_fonts : gmap string (gmap string (option string)))
    (fonts_cache : gmap string font) (size : Z) (weight family : string) :
  fonts_cache !! font_cache_key size weight family = None ->
  _get_font fs available_fonts fonts_cache size weight family
  = font_from fs fonts_cache size weight family
      (List.find (path_exists fs) (font_candidates available_fonts weight family)).
Proof. apply get_font_chain. Qed.

Lemma X13_get_font_fallback_chain_witness :
  font_candidates (_discover_system_fonts dejavu_only) "bold" "Ubuntu"
  = ["/usr/share/fonts/truetype/dejavu/DejaVuSans-Bold.ttf";
     "/usr/share/fonts/truetype/dejavu/DejaVuSans.ttf"]%string
  /\ (_get_font dejavu_only (_discover_system_fonts dejavu_only) ∅ 48 "bold" "Ubuntu").2
       !! "Ubuntu_bold_48"%string
     = Some Samples.fixed_pitch.
Proof.
  split; [vm_compute; reflexivity|].
  rewrite (X13_get_font_fallback_chain dejavu_only (_discover_system_fonts dejavu_only)
             ∅ 48 "bold" "Ubuntu" (lookup_empty _)).
  vm_compute. reflexivity.
Defined.

(** X14: a font loaded from a file is memoised: the same request then
    returns it from the cache whatever has become of the font files.  A
    file that exists and fails to load ends the search: the built-in font
    is returned, later candidates are not tried, and nothing is
    memoised. *)
Theorem X14_get_font_memo_and_failure (fs fs' : font_files)
    (available_fonts available_fonts' : gmap string (gmap string (option string)))
    (fonts_cache : gmap string font) (size : Z) (weight family path : string) :
  fonts_cache !! font_cache_key size weight family = None ->
  List.find (path_exists fs) (font_candidates available_fonts weight family) = Some path ->
  match truetype fs path size with
  | Some f =>
      _get_font fs available_fonts fonts_cache size weight family
      = (f, <[font_cache_key size weight family := f]> fonts_cache)
      /\ _get_font fs' available_fonts'
                   (<[font_cache_key size weight family := f]> fonts_cache)
                   size weight family
         = (f, <[font_cache_key size weight family := f]> fonts_cache)
  | None =>
      _get_font fs available_fonts fonts_cache size weight family
      = (load_default fs, fonts_cache)
  end.
Proof.
  intros Hmiss Hfind.
  rewrite (get_font_chain fs available_fonts fonts_cache size weight family Hmiss), Hfind.
  unfold font_from.
  destruct (truetype fs path size) as [f|]; [|reflexivity].
  split; [reflexivity|].
  unfold _get_font.
  change (family +:+ "_" +:+ weight +:+ "_" +:+ PyStr.str_of_Z size)
    with (font_cache_key size weight family).
  rewrite lookup_insert_eq. reflexivity.
Qed.

Lemma X14_get_font_memo_and_failure_witness :
  _get_font dejavu_only (_discover_system_fonts dejavu_only) ∅ 48 "bold" "DejaVu Sans"
  = (Samples.fixed_pitch, <["DejaVu Sans_bold_48"%string := Samples.fixed_pitch]> ∅).
Proof.
  pose proof (X14_get_font_memo_and_failure dejavu_only dejavu_only
                (_discover_system_fonts dejavu_only) ∅ ∅ 48 "bold" "DejaVu Sans"
                "/usr/share/fonts/truetype/dejavu/DejaVuSans-Bold.ttf"
                (lookup_empty _)) as H.
  apply H. vm_compute. reflexivity.
Defined.

Lemma discover_fold_sound (fs : font_files) (rows : list (string * string * string)) :
  forall fonts,
    (forall row, In row rows -> In row font_paths) ->
    sound_table fs fonts ->
    sound_table fs
      (fold_left
         (fun (fonts : gmap string (gmap string (option string))) '(path, family, weight) =>
            if path_exists fs path then
              <[family := <[weight := Some path]> (default ∅ (fonts !! family))]> fonts
            else fonts)
         rows fonts).
Proof.
  induction rows as [|[[path fam] w] rows IH]; intros fonts Hsub Hs; [exact Hs|].
  cbn [fold_left]. apply IH.
  - intros row Hrow. apply Hsub. right. exact Hrow.
  - destruct (path_exists fs path) eqn:Hex; [|exact Hs].
    intros family weight m p Hm Hp.
    apply lookup_insert_Some in Hm as [[<- <-]|[Hne Hm]].
    + apply lookup_insert_Some in Hp as [[<- Heq]|[Hnw Hp]].
      * injection Heq as <-. split; [exact Hex|]. apply Hsub. left. reflexivity.
      * destruct (fonts !! fam) as [m0|] eqn:E0.
        -- eapply Hs; [exact E0|exact Hp].
        -- cbn in Hp. rewrite lookup_empty in Hp. discriminate Hp.
    + eapply Hs; eassumption.
Qed.

(** X15: the table of [_discover_system_fonts] is never empty, and every
    path it records is a path of the built-in list, under its family and
    weight, that exists on the machine. *)
Theorem X15_discovered_fonts_exist (fs : font_files) :
  _discover_system_fonts fs <> ∅
  /\ forall family weight (m : gmap string (option string)) (p : string),
       _discover_system_fonts fs !! family = Some m ->
       m !! weight = Some (Some p) ->
       path_exists fs p = true /\ In (p, family, weight) font_paths.
Proof.
  unfold _discover_system_fonts. cbv zeta.
  match goal with
  | |- context [decide (?t = ∅)] => set (fonts := t)
  end.
  assert (Hs : sound_table fs fonts).
  { apply discover_fold_sound; [intros row H; exact H|].
    intros family weight m p Hm. rewrite lookup_empty in Hm. discriminate Hm. }
  destruct (decide (fonts = ∅)) as [He|Hne].
  - split.
    + intros Hc. apply (f_equal (fun t => t !! "DejaVu Sans"%string)) in Hc.
      rewrite lookup_singleton_eq, lookup_empty in Hc. discriminate Hc.
    + intros family weight m p Hm Hp.
      apply lookup_singleton_Some in Hm as [<- <-].
      apply lookup_insert_Some in Hp as [[_ Hp]|[_ Hp]]; [discriminate Hp|].
      apply lookup_insert_Some in Hp as [[_ Hp]|[_ Hp]]; [discriminate Hp|].
      rewrite lookup_empty in Hp. discriminate Hp.
  - split; [exact Hne|exact Hs].
Qed.

End FontFacts.

(** ** The local pool, continued *)

Module PoolMoreFacts.

Import QuoteRecord LocalQuotes Samples MoreAux MoreVocabulary.




End PoolMoreFacts.

(** ** The recent-set, continued *)

Module RecentSetMoreFacts.

Import QuoteRecord CacheUtils Samples MoreAux MoreVocabulary.

Lemma all_bytes_hex_ok : forallb byte_hex_ok (map Z.of_nat (seq 0 256)) = true.
Proof. vm_compute. reflexivity. Qed.

Lemma byte_hex (v : Z) :
  0 <= v < 256 ->
  exists a b,
    PyStr.format_02x v = String a (String b EmptyString)
    /\ ColorPalette.is_hex_digit a = true /\ ColorPalette.is_hex_digit b = true
    /\ PyStr.lower_char a = a /\ PyStr.lower_char b = b.
Proof.
  intros Hv. pose proof all_bytes_hex_ok as Hall.
  rewrite forallb_forall in Hall.
  assert (Hin : In v (map Z.of_nat (seq 0 256))).
  { apply in_map_iff. exists (Z.to_nat v). split; [lia|]. apply in_seq. lia. }
  specialize (Hall v Hin). unfold byte_hex_ok in Hall.
  destruct (PyStr.format_02x v) as [|a [|b [|c r]]]; try discriminate Hall.
  repeat (apply andb_prop in Hall as [Hall ?]).
  exists a, b. repeat split; try assumption; apply Ascii.eqb_eq; assumption.
Qed.

Lemma le_bytes_range (k : nat) (n : Z) :
  List.length (MD5.le_bytes k n) = k
  /\ Forall (fun b => 0 <= b < 256) (MD5.le_bytes k n).
Proof.
  revert n. induction k as [|k IH]; intros n; cbn [MD5.le_bytes].
  - split; [reflexivity|constructor].
  - destruct (IH (n / 256)) as [Hl Hf]. split; [cbn; f_equal; exact Hl|].
    constructor; [apply Z.mod_pos_bound; lia|exact Hf].
Qed.

Lemma hex_of_bytes (bs : list Z) :
  Forall (fun b => 0 <= b < 256) bs ->
  let s := fold_right (fun b acc => PyStr.format_02x b +:+ acc) EmptyString bs in
  String.length s = (2 * List.length bs)%nat
  /\ forallb ColorPalette.is_hex_digit (list_ascii_of_string s) = true
  /\ PyStr.lower s = s.
Proof.
  induction 1 as [|b bs Hb Hbs IH]; cbn [fold_right].
  - repeat split.
  - destruct IH as (Hl & Hh & Hlow).
    destruct (byte_hex b Hb) as (x & y & -> & Hx & Hy & Lx & Ly).
    rewrite !StrFacts.append_cons, StrFacts.append_nil_l.
    cbn [String.length list_ascii_of_string forallb PyStr.lower List.length].
    rewrite Hl, Hh, Hx, Hy, Lx, Ly, Hlow. repeat split. lia.
Qed.

(** X17: the hash of a quote is, for every content, a string of exactly 32
    hexadecimal digits, all in lower case. *)
Theorem X17_quote_hash_shape (quote_content : string) :
  String.length (get_quote_hash quote_content) = 32%nat
  /\ forallb ColorPalette.is_hex_digit
             (list_ascii_of_string (get_quote_hash quote_content)) = true
  /\ PyStr.lower (get_quote_hash quote_content) = get_quote_hash quote_content.
Proof.
  unfold get_quote_hash, MD5.hexdigest.
  assert (Hd : List.length (MD5.digest (MD5.bytes_of_string quote_content)) = 16%nat
               /\ Forall (fun b => 0 <= b < 256)
                         (MD5.digest (MD5.bytes_of_string quote_content))).
  { unfold MD5.digest.
    destruct (MD5.blocks _ _ _) as [[[a b] c] d].
    destruct (le_bytes_range 4 a) as [La Fa]. destruct (le_bytes_range 4 b) as [Lb Fb].
    destruct (le_bytes_range 4 c) as [Lc Fc]. destruct (le_bytes_range 4 d) as [Ld Fd].
    split.
    - rewrite !length_app, La, Lb, Lc, Ld. reflexivity.
    - repeat (apply Forall_app; split); assumption. }
  destruct Hd as [Hl Hf].
  pose proof (hex_of_bytes _ Hf) as Hs. cbv zeta in Hs.
  rewrite Hl in Hs. exact Hs.
Qed.

Section AnyOrder.

Variable place : string -> list string -> nat.

Lemma set_mem_app (x : string) (a b : list string) :
  set_mem x (a ++ b) = set_mem x a || set_mem x b.
Proof. unfold set_mem. apply existsb_app. Qed.

Lemma set_mem_add (x y : string) (s : pyset) :
  set_mem x (set_add place y s) = String.eqb x y || set_mem x s.
Proof.
  unfold set_add. destruct (set_mem y s) eqn:Hy.
  - destruct (String.eqb_spec x y) as [->|Hne]; [rewrite Hy; reflexivity|reflexivity].
  - rewrite set_mem_app.
    change (set_mem x (y :: drop (place y s) s))
      with (String.eqb x y || set_mem x (drop (place y s) s)).
    assert (Hs : set_mem x s
                 = set_mem x (take (place y s) s) || set_mem x (drop (place y s) s)).
    { rewrite <- set_mem_app, take_drop. reflexivity. }
    rewrite Hs.
    destruct (set_mem x (take (place y s) s)), (String.eqb x y),
             (set_mem x (drop (place y s) s)); reflexivity.
Qed.

Lemma set_mem_of_list (x : string) (l : list string) :
  set_mem x (set_of_list place l) = set_mem x l.
Proof.
  unfold set_of_list.
  assert (H : forall acc,
             set_mem x (fold_left (fun s y => set_add place y s) l acc)
             = set_mem x acc || set_mem x l).
  { induction l as [|y l IH]; intros acc; cbn [fold_left].
    - unfold set_mem at 3. cbn. now rewrite orb_false_r.
    - rewrite IH, set_mem_add.
      change (set_mem x (y :: l)) with (String.eqb x y || set_mem x l).
      destruct (String.eqb x y), (set_mem x acc), (set_mem x l); reflexivity. }
  rewrite H. reflexivity.
Qed.

Lemma set_mem_tail (x : string) (s : pyset) :
  set_mem x (tail s) = true -> set_mem x s = true.
Proof.
  destruct s as [|h t]; [exact (fun H => H)|].
  cbn [tail]. intros H. change (set_mem x (h :: t)) with (String.eqb x h || set_mem x t).
  rewrite H. apply orb_true_r.
Qed.

Context {F : Type}.
Variable fetch : string -> F -> QuoteFetcher.outcome (option quote) * F.

(** What a return from inside the loop does to the set. *)
Lemma unique_loop_returned (theme : string) (n : nat) :
  forall (fetcher fetcher' : F) (quote_cache quote_cache' : pyset) (q : quote),
    unique_loop place fetch theme n fetcher quote_cache = (Some q, fetcher', quote_cache') ->
    set_mem (get_quote_hash (content q)) quote_cache = false
    /\ (forall h, set_mem h quote_cache' = true ->
          set_mem h quote_cache = true \/ h = get_quote_hash (content q))
    /\ ((List.length quote_cache < 30)%nat ->
        forall h, set_mem h quote_cache'
                  = String.eqb h (get_quote_hash (content q)) || set_mem h quote_cache).
Proof.
  induction n as [|n IH]; intros fetcher fetcher' qc qc' q H; cbn [unique_loop] in H.
  - discriminate H.
  - destruct (fetch theme fetcher) as [[[q0|]|e] f1]; try (eapply IH; exact H).
    destruct (set_mem (get_quote_hash (content q0)) qc) eqn:Hmem; cbn [negb] in H;
      [eapply IH; exact H|].
    injection H as -> _ <-.
    split; [exact Hmem|].
    pose proof (RecentSetFacts.set_add_length place (get_quote_hash (content q)) qc) as Hadd.
    split.
    + intros h Hh.
      assert (Hin : set_mem h (set_add place (get_quote_hash (content q)) qc) = true).
      { destruct (30 <? _)%nat; [|exact Hh].
        unfold list_of_set in Hh. rewrite set_mem_of_list in Hh.
        apply set_mem_tail. exact Hh. }
      rewrite set_mem_add in Hin. apply orb_prop in Hin as [Heq|Hold].
      * right. apply String.eqb_eq. exact Heq.
      * left. exact Hold.
    + intros Hlen h.
      destruct (Nat.ltb_spec 30
                  (List.length (set_add place (get_quote_hash (content q)) qc)));
        [lia|]. apply set_mem_add.
Qed.

(** X18: starting from a recent-set of at most 30 hashes, whatever order
    the set is iterated in, a call of [fetch_unique_quote] leaves at most
    30 hashes; either it ends with the set emptied (the attempts were
    exhausted), or it returns a quote whose hash was not in the set, every
    hash of the new set is an old one or the hash of that quote, and, when
    fewer than 30 hashes were held, the new set is exactly the old one
    with that hash added. *)
Theorem X18_fetch_unique_quote_effect (fetcher fetcher' : F) (theme : string)
    (max_attempts : Z) (quote_cache quote_cache' : pyset) (r : option quote) :
  (List.length quote_cache <= 30)%nat ->
  fetch_unique_quote place fetch fetcher theme max_attempts quote_cache
  = (r, fetcher', quote_cache') ->
  (List.length quote_cache' <= 30)%nat
  /\ (quote_cache' = []
      \/ exists q,
           r = Some q
           /\ set_mem (get_quote_hash (content q)) quote_cache = false
           /\ (forall h, set_mem h quote_cache' = true ->
                 set_mem h quote_cache = true \/ h = get_quote_hash (content q))
           /\ ((List.length quote_cache < 30)%nat ->
               forall h, set_mem h quote_cache'
                         = String.eqb h (get_quote_hash (content q))
                           || set_mem h quote_cache)).
Proof.
  intros Hlen H.
  pose proof (RecentSetFacts.fetch_unique_quote_bounded place fetch fetcher theme
                max_attempts quote_cache Hlen) as Hb.
  rewrite H in Hb. split; [exact Hb|].
  unfold fetch_unique_quote in H.
  destruct (unique_loop place fetch theme (Z.to_nat max_attempts) fetcher quote_cache)
    as [[[q|] f1] qc1] eqn:Hloop.
  - injection H as <- <- <-. right. exists q. split; [reflexivity|].
    eapply unique_loop_returned. exact Hloop.
  - left. destruct (fetch theme f1) as [[r0|e] f2]; injection H as _ _ <-; reflexivity.
Qed.

(** When every result is already in the set, the loop is exhausted. *)
Lemma unique_loop_all_seen (theme : string) (quote_cache : pyset) (n : nat) :
  always_seen fetch theme quote_cache ->
  forall fetcher,
    exists fetcher',
      unique_loop place fetch theme n fetcher quote_cache = (None, fetcher', quote_cache).
Proof.
  intros Hseen. induction n as [|n IH]; intros fetcher; cbn [unique_loop].
  - exists fetcher. reflexivity.
  - destruct (Hseen fetcher) as (q & f1 & E & Hmem). rewrite E.
    change (set_mem (get_quote_hash (content q)) quote_cache) with
      (existsb (String.eqb (get_quote_hash (content q))) quote_cache).
    rewrite Hmem. cbn [negb]. apply IH.
Qed.

(** X19: when the fetcher only returns quotes whose hash is in the
    recent-set, [fetch_unique_quote] gives up after its attempts, for any
    number of attempts: it returns a quote that was in the set, and leaves
    the set empty, so that this quote is not remembered either. *)
Theorem X19_exhaustion_forgets_everything (fetcher : F) (theme : string)
    (max_attempts : Z) (quote_cache : pyset) :
  always_seen fetch theme quote_cache ->
  exists q fetcher',
    fetch_unique_quote place fetch fetcher theme max_attempts quote_cache
    = (Some q, fetcher', [])
    /\ set_mem (get_quote_hash (content q)) quote_cache = true.
Proof.
  intros Hseen.
  destruct (unique_loop_all_seen theme quote_cache (Z.to_nat max_attempts) Hseen fetcher)
    as [f1 Hloop].
  unfold fetch_unique_quote. rewrite Hloop.
  destruct (Hseen f1) as (q & f2 & E & Hmem). rewrite E.
  exists q, f2. split; [reflexivity|exact Hmem].
Qed.

End AnyOrder.

Lemma X18_fetch_unique_quote_effect_witness :
  exists r calls quote_cache',
    fetch_unique_quote sorted_place numbered_fetcher 0%nat "auto" 10 [] 
    = (r, calls, quote_cache')
    /\ quote_cache' = [hash_of 0].
Proof.
  eexists. eexists. eexists. split; [reflexivity|].
  destruct (X18_fetch_unique_quote_effect sorted_place numbered_fetcher 0%nat _ "auto" 10
              [] _ _ ltac:(cbn; lia) eq_refl) as [_ [Hnil|(q & _ & _ & _ & _)]];
    vm_compute; reflexivity.
Defined.

Lemma constant_fetcher_always_seen :
  always_seen constant_fetcher "auto" [hash_of 0].
Proof.
  intros calls. exists (numbered_quote 0), (S calls).
  split; [reflexivity|]. vm_compute. reflexivity.
Qed.

Lemma X19_exhaustion_forgets_everything_witness :
  exists q calls,
    fetch_unique_quote sorted_place constant_fetcher 0%nat "auto" 10 [hash_of 0]
    = (Some q, calls, []).
Proof.
  destruct (X19_exhaustion_forgets_everything sorted_place constant_fetcher 0%nat "auto"
              10 [hash_of 0] constant_fetcher_always_seen) as (q & calls & E & _).
  exists q, calls. exact E.
Defined.

End RecentSetMoreFacts.

(** ** The fetcher, continued *)

Module FetcherMoreFacts.

Import QuoteRecord QuoteFetcher FetcherAux Samples MoreAux MoreVocabulary.

Lemma requests_in_app (a b : list event) :
  requests_in (a ++ b) = requests_in a ++ requests_in b.
Proof. apply flat_map_app. Qed.

Lemma fetched_in_app (a b : list event) :
  fetched_in (a ++ b) = fetched_in a ++ fetched_in b.
Proof. apply flat_map_app. Qed.

Lemma cache_append_holds (c : option (list quote)) (q : quote) :
  cache_append c q <> [] /\ In q (cache_append c q).
Proof.
  unfold cache_append. split.
  - intros H. apply app_eq_nil in H as [_ H]. discriminate H.
  - apply in_or_app. right. left. reflexivity.
Qed.

Lemma bind_assoc {A B C : Type} (m : M A) (f : A -> M B) (g : B -> M C) (s : state) :
  bind m (fun x => bind (f x) g) s = bind (bind m f) g s.
Proof. unfold bind. destruct (m s) as [[a|e] s']; reflexivity. Qed.

Section Runs.

Variable E : env.

Lemma build_quote_remote (data : json) (q : quote) :
  build_quote E data = Some q -> remote_record q.
Proof.
  unfold build_quote. destruct data as [| b | n | t | [|item l] | fields]; try discriminate.
  destruct (json_get "q" (JStr "") item) as [jq|]; [|discriminate].
  cbn [mbind option_bind].
  destruct (json_get "a" (JStr "Unknown") item) as [ja|]; [|discriminate].
  cbn [mbind option_bind].
  destruct jq as [| b | n | t | items | fields]; try discriminate.
  destruct (json_get "h" (JStr ("zen_" +:+ PyStr.str_of_Z (pyhash E t))) item) as [jh|];
    [|discriminate].
  cbn [mbind option_bind]. intros [= <-]. repeat split.
Qed.

Lemma response_record_remote (r : response) (q : quote) :
  response_record E r = Some q -> remote_record q.
Proof.
  unfold response_record. destruct r as [|status [data|]]; try discriminate.
  - destruct ((400 <=? status) && (status <? 600)); [discriminate|].
    apply build_quote_remote.
  - destruct ((400 <=? status) && (status <? 600)); discriminate.
Qed.

(** One exchange. *)
Lemma fetch_single_exact (s : state) :
  exists s',
    _fetch_single_quote E s = (Return (response_record E (net E (step s)).2), s')
    /\ trace s' = trace s ++ Requested (clock s)
                    :: match response_record E (net E (step s)).2 with
                       | Some q => [Fetched q]
                       | None => []
                       end
    /\ cache s' = cache s /\ disk s' = disk s /\ pool s' = pool s
    /\ last_request_time s' = last_request_time s
    /\ clock s' = (clock s + (net E (step s)).1)%Q.
Proof.
  unfold _fetch_single_quote, bind, requests_get, modify, ret.
  destruct (net E (step s)) as [duration r]. cbn [fst snd].
  change (match r with
          | ConnectionFailed => None
          | Http status body =>
              if (400 <=? status) && (status <? 600) then None
              else match body with
                   | Some data => build_quote E data
                   | None => None
                   end
          end) with (response_record E r).
  destruct (response_record E r) as [q|].
  - eexists. split; [reflexivity|]. cbn. rewrite <- app_assoc. repeat split.
  - eexists. split; [reflexivity|]. cbn. repeat split.
Qed.

(** Storing one record. *)
Lemma store_exact (theme : string) (q : quote) (s : state) :
  exists o s',
    store_and_check E theme q s = (o, s')
    /\ cache s' = {| quotes := Some (cache_append (quotes (cache s)) q);
                     timestamp := Some (clock s) |}
    /\ clock s' = clock s /\ trace s' = trace s /\ pool s' = pool s
    /\ last_request_time s' = last_request_time s
    /\ (disk_works E -> disk s' = Stored (cache s'))
    /\ (forall r, o = Return (Some r) -> r = q /\ _matches_theme q theme = true)
    /\ (o = Return None -> String.eqb theme "auto" = false).
Proof.
  unfold store_and_check, _save_cache, bind, get_state, time_time, modify, raise, ret.
  cbn [step set_cache next_step].
  destruct (mkdir_fails E (step s)) eqn:Hm.
  - eexists _, _. split; [reflexivity|]. cbn.
    repeat split; try discriminate.
    intros [Hd _]. rewrite Hd in Hm. discriminate Hm.
  - destruct (write E (step s)) eqn:Hw; cbn.
    all: destruct (String.eqb theme "auto") eqn:Ha; cbn [negb andb].
    all: try destruct (_matches_theme q theme) eqn:Hq.
    all: eexists _, _; (split; [reflexivity|]); cbn.
    all: repeat split; try reflexivity; try discriminate.
    all: try (intros [_ Hd]; rewrite Hd in Hw; discriminate Hw).
    all: try match goal with
             | H : Return (Some _) = Return (Some _) |- _ => injection H as <-
             end.
    all: try reflexivity.
    all: try exact Hq.
    all: try (exfalso; unfold _matches_theme in Hq; rewrite Ha in Hq; discriminate Hq).
Qed.

Lemma sleep_exact (s : state) :
  exists s',
    time_sleep E 1 s = (Return tt, s')
    /\ cache s' = cache s /\ disk s' = disk s /\ trace s' = trace s
    /\ pool s' = pool s /\ last_request_time s' = last_request_time s
    /\ (well_timed E -> (clock s <= clock s')%Q).
Proof.
  unfold time_sleep. change (Qle_bool 0 1) with true. cbv iota.
  eexists. split; [reflexivity|]. cbn. repeat split.
  intros [Hs _]. specialize (Hs (step s)). lra.
Qed.

Lemma summary_idle (theme : string) (s s' : state) :
  cache s' = cache s -> disk s' = disk s -> trace s' = trace s ->
  pool s' = pool s -> last_request_time s' = last_request_time s ->
  (well_timed E -> (clock s <= clock s')%Q) ->
  attempts_summary E theme 0 s (Return None) s'.
Proof.
  intros Hc Hd Ht Hp Hl Hk. exists []. rewrite app_nil_r.
  split; [exact Ht|]. split; [exact Hp|]. split; [exact Hl|].
  cbn [requests_in fetched_in flat_map List.length].
  split; [lia|]. split; [lia|]. split; [constructor|].
  split; [intros _; split; assumption|].
  split; [intros H; destruct (H eq_refl)|].
  split; [intros _ H; destruct (H eq_refl)|].
  split; [reflexivity|].
  split; [intros q Hq; discriminate Hq|].
  split; [intros _; split; reflexivity|exact Hk].
Qed.

Lemma summary_seq (theme : string) (k1 k2 : nat) (s s1 s2 : state)
    (o : outcome (option quote)) :
  attempts_summary E theme k1 s (Return None) s1 ->
  attempts_summary E theme k2 s1 o s2 ->
  attempts_summary E theme (k1 + k2) s o s2.
Proof.
  intros (e1 & T1 & P1 & L1 & N1 & F1 & Z1 & U1 & C1 & D1 & K1 & _ & R1 & W1)
         (e2 & T2 & P2 & L2 & N2 & F2 & Z2 & U2 & C2 & D2 & K2 & Q2 & R2 & W2).
  exists (e1 ++ e2).
  rewrite requests_in_app, fetched_in_app, !length_app.
  specialize (K1 eq_refl).
  split; [rewrite T2, T1, app_assoc; reflexivity|].
  split; [congruence|]. split; [congruence|].
  split; [lia|]. split; [lia|].
  split; [apply Forall_app; split; assumption|].
  split.
  { intros H. apply app_eq_nil in H as [H1 H2].
    destruct (U1 H1) as [Hc1 Hd1]. destruct (U2 H2) as [Hc2 Hd2].
    split; congruence. }
  split.
  { intros H. destruct (fetched_in e2) as [|q2 l2] eqn:E2.
    - destruct (U2 eq_refl) as [Hc _]. rewrite Hc.
      rewrite app_nil_r in H. exact (C1 H).
    - destruct (C2 ltac:(discriminate)) as [Hh (t & Ht & Hw)].
      split; [exact Hh|]. exists t. split; [exact Ht|].
      intros HW. specialize (Hw HW). specialize (W1 HW). lra. }
  split.
  { intros HD H. destruct (fetched_in e2) as [|q2 l2] eqn:E2.
    - destruct (U2 eq_refl) as [Hc Hd]. rewrite Hc, Hd.
      rewrite app_nil_r in H. exact (D1 HD H).
    - apply (D2 HD). discriminate. }
  split; [intros H; rewrite (K2 H); lia|].
  split; [exact Q2|].
  split.
  { intros HR. destruct (R1 HR) as [_ ->]. destruct (R2 HR) as [-> ->].
    split; reflexivity. }
  intros HW. specialize (W1 HW). specialize (W2 HW). lra.
Qed.

(** One remote attempt together with the storing of its record. *)
Lemma attempt_run (theme : string) (s : state) :
  exists o s',
    bind (_fetch_single_quote E)
         (fun fetched =>
            match fetched with
            | Some q => store_and_check E theme q
            | None => ret None
            end) s = (o, s')
    /\ attempts_summary E theme 1 s o s'.
Proof.
  destruct (fetch_single_exact s) as (s1 & E1 & T1 & C1 & D1 & P1 & L1 & K1).
  rewrite (FetcherFacts.bind_return _ _ _ _ _ E1).
  assert (Hnet : well_timed E -> (clock s <= clock s1)%Q).
  { intros [_ Hn]. specialize (Hn (step s)). rewrite K1. lra. }
  destruct (response_record E (net E (step s)).2) as [q|] eqn:Er.
  - destruct (store_exact theme q s1) as (o & s2 & E2 & C2 & K2 & T2 & P2 & L2 & D2 & Q2 & N2).
    exists o, s2. split; [exact E2|].
    exists [Requested (clock s); Fetched q].
    cbn [requests_in fetched_in flat_map app List.length].
    split; [rewrite T2, T1; reflexivity|].
    split; [congruence|]. split; [congruence|].
    split; [lia|]. split; [lia|].
    split; [constructor; [eapply response_record_remote; exact Er|constructor]|].
    split; [intros H; discriminate H|].
    assert (Hheld : held (cache s2) = cache_append (quotes (cache s1)) q).
    { rewrite C2. reflexivity. }
    split.
    { intros _. split.
      - rewrite Hheld. apply cache_append_holds.
      - exists (clock s1). split; [rewrite C2; reflexivity|exact Hnet]. }
    split; [intros HD _; exact (D2 HD)|].
    split; [intros _; reflexivity|].
    split.
    { intros r Hr. destruct (Q2 r Hr) as [-> Hm]. split; [exact Hm|].
      rewrite Hheld. apply cache_append_holds. }
    split.
    { intros HR. specialize (HR (step s)). rewrite HR in Er. discriminate Er. }
    intros HW. rewrite K2. exact (Hnet HW).
  - exists (Return None), s1. split; [reflexivity|].
    exists [Requested (clock s)].
    cbn [requests_in fetched_in flat_map app List.length].
    split; [exact T1|]. split; [exact P1|]. split; [exact L1|].
    split; [lia|]. split; [lia|]. split; [constructor|].
    split; [intros _; split; assumption|].
    split; [intros H; destruct (H eq_refl)|].
    split; [intros _ H; destruct (H eq_refl)|].
    split; [reflexivity|].
    split; [intros q Hq; discriminate Hq|].
    split; [intros _; split; reflexivity|exact Hnet].
Qed.

(** The loop of remote attempts. *)
Lemma attempts_run (theme : string) (todo : list Z) :
  forall s,
    exists o s',
      attempts E theme todo s = (o, s')
      /\ attempts_summary E theme (List.length todo) s o s'.
Proof.
  induction todo as [|attempt todo IH]; intros s.
  - exists (Return None), s. split; [reflexivity|].
    apply summary_idle; try reflexivity. intros _. apply Qle_refl.
  - cbn [attempts List.length].
    destruct (attempt_run theme s) as (o1 & s1 & E1 & S1).
    rewrite (bind_assoc (_fetch_single_quote E)
               (fun fetched =>
                  match fetched with
                  | Some q => store_and_check E theme q
                  | None => ret None
                  end)).
    unfold bind at 1. rewrite E1. destruct o1 as [[q|]|e].
      + exists (Return (Some q)), s1. split; [reflexivity|].
        destruct S1 as (evs & H). exists evs.
        destruct H as (T & P & L & N & F & Z & U & C & D & K & Q & R & W).
        repeat (split; [first [assumption | lia]|]).
        split; [intros H; discriminate H|]. split; [exact Q|]. split; assumption.
      + assert (Hs : exists s2,
                   (if attempt <? 2 then time_sleep E 1 else ret tt) s1 = (Return tt, s2)
                   /\ attempts_summary E theme 0 s1 (Return None) s2).
        { destruct (attempt <? 2).
          - destruct (sleep_exact s1) as (s2 & Es & Hc & Hd & Ht & Hp & Hl & Hk).
            exists s2. split; [exact Es|]. apply summary_idle; assumption.
          - exists s1. split; [reflexivity|].
            apply summary_idle; try reflexivity. intros _. apply Qle_refl. }
        destruct Hs as (s2 & Es & S2).
        destruct (IH s2) as (o & s3 & E3 & S3).
        exists o, s3. split.
        { unfold bind. rewrite Es. exact E3. }
        change (S (List.length todo)) with (1 + (0 + List.length todo))%nat.
        eapply summary_seq; [exact S1|]. eapply summary_seq; [exact S2|exact S3].
      + exists (Raise e), s1. split; [reflexivity|].
        destruct S1 as (evs & H). exists evs.
        destruct H as (T & P & L & N & F & Z & U & C & D & K & Q & R & W).
        repeat (split; [first [assumption | lia]|]).
        split; [intros H; discriminate H|].
        split; [intros q H; discriminate H|]. split; assumption.
Qed.

(** Reading the cache. *)
Lemma get_from_cache_exact (theme : string) (s : state) :
  exists o s',
    _get_from_cache E theme s = (Return o, s')
    /\ untouched s s'
    /\ (held (cache s) = [] -> o = None)
    /\ (held (cache s) <> [] ->
        exists q,
          o = Some q /\ In q (held (cache s))
          /\ (theme <> "auto"%string -> known_theme theme = true ->
              (exists c, In c (held (cache s)) /\ _matches_theme c theme = true) ->
              _matches_theme q theme = true)).
Proof.
  unfold _get_from_cache, bind, get_state, ret, held.
  destruct (quotes (cache s)) as [[|c l]|]; cbn [default].
  - exists None, s. repeat split. intros H. destruct (H eq_refl).
  - destruct (negb (String.eqb theme "auto") && known_theme theme) eqn:Hsel.
    + destruct (filter (fun q0 => _matches_theme q0 theme) (c :: l)) as [|m ms] eqn:Ef.
      * destruct (FetcherFacts.random_choice_cons E c l s) as [a Ha].
        pose proof Ha as Hin. unfold random_choice in Hin.
        destruct (LocalQuotes.choice (draw E (step s)) (c :: l)) as [a'|] eqn:Ec;
          [|discriminate Hin].
        injection Hin as ->.
        apply PoolFacts.choice_elem in Ec. apply list_elem_of_In in Ec.
        rewrite Ha. exists (Some a), (next_step s).
        split; [reflexivity|]. split; [repeat split|].
        split; [intros H; discriminate H|].
        intros _. exists a. split; [reflexivity|]. split; [exact Ec|].
        intros _ _ (c0 & Hc0 & Hm0). exfalso.
        assert (Hc : c0 ∈ filter (fun q0 => _matches_theme q0 theme) (c :: l)).
        { apply list_elem_of_filter. split; [rewrite Hm0; exact I|].
          apply list_elem_of_In. exact Hc0. }
        rewrite Ef in Hc. apply elem_of_nil in Hc. exact Hc.
      * destruct (FetcherFacts.random_choice_cons E m ms s) as [a Ha].
        pose proof Ha as Hin. unfold random_choice in Hin.
        destruct (LocalQuotes.choice (draw E (step s)) (m :: ms)) as [a'|] eqn:Ec;
          [|discriminate Hin].
        injection Hin as ->.
        apply PoolFacts.choice_elem in Ec. rewrite <- Ef in Ec.
        apply list_elem_of_filter in Ec as [Hm Hc].
        rewrite Ha. exists (Some a), (next_step s).
        split; [reflexivity|]. split; [repeat split|].
        split; [intros H; discriminate H|].
        intros _. exists a. split; [reflexivity|].
        split; [apply list_elem_of_In; exact Hc|].
        intros _ _ _. destruct (_matches_theme a theme); [reflexivity|destruct Hm].
    + destruct (FetcherFacts.random_choice_cons E c l s) as [a Ha].
      pose proof Ha as Hin. unfold random_choice in Hin.
      destruct (LocalQuotes.choice (draw E (step s)) (c :: l)) as [a'|] eqn:Ec;
        [|discriminate Hin].
      injection Hin as ->.
      apply PoolFacts.choice_elem in Ec. apply list_elem_of_In in Ec.
      rewrite Ha. exists (Some a), (next_step s).
      split; [reflexivity|]. split; [repeat split|].
      split; [intros H; discriminate H|].
      intros _. exists a. split; [reflexivity|]. split; [exact Ec|].
      intros Hne Hk _. exfalso.
      apply String.eqb_neq in Hne. rewrite Hne, Hk in Hsel. discriminate Hsel.
  - exists None, s. repeat split. intros H. destruct (H eq_refl).
Qed.

(** The local pool as the last resort. *)
Lemma get_local_exact (theme : string) (s : state) :
  exists o s',
    get_local_quote E theme s = (o, s')
    /\ cache s' = cache s /\ disk s' = disk s /\ trace s' = trace s
    /\ (forall q, o = Return q ->
          exists i entry,
            pool s !! i = Some entry /\ q = LocalQuotes.stamp (pyhash E) entry)
    /\ (pool s <> [] -> exists q, o = Return q).
Proof.
  unfold get_local_quote.
  destruct (LocalQuotes.get_random_quote (pyhash E) (draw E (step s)) (Some theme) (pool s))
    as [[ref pool']|] eqn:Eg.
  - pose proof (PoolFacts.get_random_quote_alter _ _ _ _ _ _ Eg) as Hp.
    pose proof (PoolFacts.get_random_quote_ref_lt _ _ _ _ _ _ Eg) as Hlt.
    destruct (lookup_lt_is_Some_2 (pool s) ref Hlt) as [q0 E0].
    subst pool'. rewrite list_lookup_alter_eq, E0. cbn [fmap option_fmap option_map].
    eexists _, _. split; [reflexivity|]. cbn. repeat split.
    + intros q [= <-]. exists ref, q0. split; [exact E0|reflexivity].
    + intros _. eexists. reflexivity.
  - eexists _, _. split; [reflexivity|]. repeat split.
    + intros q H. discriminate H.
    + intros Hp.
      destruct (PoolFacts.get_random_quote_total (pyhash E) (draw E (step s))
                  (Some theme) (pool s) Hp) as (ref & q & Hg & _).
      rewrite Hg in Eg. discriminate Eg.
Qed.

Lemma wait_exact (s : state) :
  exists s',
    _wait_for_rate_limit E s = (Return tt, s')
    /\ trace s' = trace s /\ cache s' = cache s /\ pool s' = pool s
    /\ disk s' = disk s
    /\ (well_timed E -> (clock s <= clock s')%Q).
Proof.
  unfold _wait_for_rate_limit, bind, time_time, get_state, modify, ret.
  destruct (Qle_bool MIN_REQUEST_DELAY (clock s - last_request_time s)) eqn:Hel;
    cbn [negb].
  - eexists. split; [reflexivity|]. cbn. repeat split. intros _. apply Qle_refl.
  - assert (Hlt : ~ (MIN_REQUEST_DELAY <= clock s - last_request_time s)%Q).
    { intros Hc. apply Qle_bool_iff in Hc. congruence. }
    unfold time_sleep.
    assert (Hpos : Qle_bool 0 (MIN_REQUEST_DELAY - (clock s - last_request_time s)) = true).
    { apply Qle_bool_iff. unfold MIN_REQUEST_DELAY in *. lra. }
    rewrite Hpos. eexists. split; [reflexivity|]. cbn.
    unfold MIN_REQUEST_DELAY in *. repeat split.
    intros [Hs _]. specialize (Hs (step s)). lra.
Qed.

(** Steps 2 to 4 of a fetch. *)
Lemma remote_phase_run (theme : string) (s : state) :
  exists o s' evs,
    remote_phase E theme s = (o, s')
    /\ trace s' = trace s ++ evs
    /\ (List.length (requests_in evs) <= 3)%nat
    /\ (List.length (fetched_in evs) <= List.length (requests_in evs))%nat
    /\ Forall remote_record (fetched_in evs)
    /\ (fetched_in evs = [] -> cache s' = cache s /\ disk s' = disk s)
    /\ (fetched_in evs <> [] ->
        held (cache s') <> []
        /\ exists t, timestamp (cache s') = Some t
                     /\ (well_timed E -> (clock s <= t)%Q))
    /\ (disk_works E -> fetched_in evs <> [] -> disk s' = Stored (cache s'))
    /\ (forall q, o = Return q ->
          In q (held (cache s'))
          \/ (held (cache s') = []
              /\ List.length (requests_in evs) = 3%nat
              /\ from_pool_or_fallback E s q))
    /\ (remote_down E -> (LOCAL_OK E = true -> pool s <> []) ->
        (exists q, o = Return q)
        /\ fetched_in evs = []
        /\ List.length (requests_in evs) = 3%nat).
Proof.
  unfold remote_phase.
  destruct (wait_exact s) as (s0 & E0 & T0 & C0 & P0 & D0 & W0).
  rewrite (FetcherFacts.bind_return _ _ _ _ _ E0).
  destruct (attempts_run theme [0; 1; 2] s0) as (oa & s1 & Ea & Sa).
  destruct Sa as (evs & T & P & L & N & F & Z & U & C & D & K & Q & R & W).
  cbn [List.length] in N, K.
  assert (Hstamp : fetched_in evs <> [] ->
            held (cache s1) <> []
            /\ exists t, timestamp (cache s1) = Some t
                         /\ (well_timed E -> (clock s <= t)%Q)).
  { intros H. destruct (C H) as [Hh (t & Ht & Hw)]. split; [exact Hh|].
    exists t. split; [exact Ht|]. intros HW. specialize (Hw HW). specialize (W0 HW). lra. }
  assert (Hsame : fetched_in evs = [] -> cache s1 = cache s /\ disk s1 = disk s).
  { intros H. destruct (U H) as [-> ->]. split; assumption. }
  unfold bind at 1. rewrite Ea.
  destruct oa as [[q|]|e].
  - exists (Return q), s1, evs. split; [reflexivity|].
    split; [rewrite T, T0; reflexivity|].
    repeat (split; [assumption|]).
    split.
    { intros q' [= <-]. left. apply (Q q eq_refl). }
    intros HR _. destruct (R HR) as [HN _]. discriminate HN.
  - specialize (K eq_refl).
    destruct (get_from_cache_exact theme s1) as (oc & s2 & Ec & Hu & Hnone & Hsome).
    destruct Hu as (Uc & Ud & Ut & Up & _ & _).
    rewrite (FetcherFacts.bind_return _ _ _ _ _ Ec).
    destruct (list_eq_nil_dec (held (cache s1))) as [Hempty|Hfull].
    + rewrite (Hnone Hempty).
      assert (Hnf : fetched_in evs = []).
      { destruct (fetched_in evs) eqn:Ef; [reflexivity|].
        destruct (C ltac:(discriminate)) as [Hh _]. contradiction. }
      destruct (LOCAL_OK E) eqn:Hlocal.
      * destruct (get_local_exact theme s2) as (o & s3 & El & Lc & Ld & Lt & Lq & Lp).
        exists o, s3, evs. split; [exact El|].
        split; [rewrite Lt, Ut, T, T0; reflexivity|].
        split; [lia|]. split; [exact F|]. split; [exact Z|].
        split; [intros H; rewrite Lc, Ld, Uc, Ud; exact (Hsame H)|].
        split; [intros H; contradiction|].
        split; [intros _ H; contradiction|].
        split.
        { intros q Hq. right. rewrite Lc, Uc. split; [exact Hempty|].
          split; [exact K|]. unfold from_pool_or_fallback. rewrite Hlocal.
          destruct (Lq q Hq) as (i & entry & Hi & Hst).
          exists i, entry. rewrite Up, P, P0 in Hi. split; assumption. }
        intros _ Hpool. split; [|split; [exact Hnf|exact K]].
        apply Lp. rewrite Up, P, P0. apply Hpool. reflexivity.
      * exists (Return _get_fallback_quote), s2, evs. split; [reflexivity|].
        split; [rewrite Ut, T, T0; reflexivity|].
        split; [lia|]. split; [exact F|]. split; [exact Z|].
        split; [intros H; rewrite Uc, Ud; exact (Hsame H)|].
        split; [intros H; contradiction|].
        split; [intros _ H; contradiction|].
        split.
        { intros q [= <-]. right. rewrite Uc. split; [exact Hempty|].
          split; [exact K|]. unfold from_pool_or_fallback. rewrite Hlocal. reflexivity. }
        intros _ _. split; [eexists; reflexivity|]. split; [exact Hnf|exact K].
    + destruct (Hsome Hfull) as (q & -> & Hin & _).
      exists (Return q), s2, evs. split; [reflexivity|].
      split; [rewrite Ut, T, T0; reflexivity|].
      split; [lia|]. split; [exact F|]. split; [exact Z|].
      split; [intros H; rewrite Uc, Ud; exact (Hsame H)|].
      split; [intros H; rewrite Uc; exact (Hstamp H)|].
      split; [intros HD H; rewrite Uc, Ud; exact (D HD H)|].
      split.
      { intros q' [= <-]. left. rewrite Uc. exact Hin. }
      intros HR _. destruct (R HR) as [_ Hnf].
      split; [eexists; reflexivity|]. split; [exact Hnf|exact K].
  - exists (Raise e), s1, evs. split; [reflexivity|].
    split; [rewrite T, T0; reflexivity|].
    repeat (split; [assumption|]).
    split; [intros q H; discriminate H|].
    intros HR _. destruct (R HR) as [HN _]. discriminate HN.
Qed.

(** A fetch served by the cache. *)
Lemma fetch_fresh (theme : string) (s : state) :
  fresh s ->
  exists q s',
    fetch_random_quote E theme s = (Return q, s')
    /\ In q (held (cache s))
    /\ untouched s s'
    /\ (theme <> "auto"%string -> known_theme theme = true ->
        (exists c, In c (held (cache s)) /\ _matches_theme c theme = true) ->
        _matches_theme q theme = true).
Proof.
  intros [Hage Hheld].
  unfold fetch_random_quote, bind at 1, time_time at 1, bind at 1, get_state at 1.
  assert (Hb : Qle_bool 300 (clock s - default 0%Q (timestamp (cache s))) = false).
  { destruct (Qle_bool 300 _) eqn:Hq; [|reflexivity].
    apply Qle_bool_iff in Hq. lra. }
  rewrite Hb. cbn [negb].
  destruct (get_from_cache_exact theme s) as (o & s' & Ec & Hu & _ & Hsome).
  destruct (Hsome Hheld) as (q & -> & Hin & Hm).
  rewrite (FetcherFacts.bind_return _ _ _ _ _ Ec).
  exists q, s'. split; [reflexivity|]. split; [exact Hin|]. split; assumption.
Qed.

(** Every fetch. *)
Lemma fetch_run (theme : string) (s : state) :
  exists o s',
    fetch_random_quote E theme s = (o, s') /\ fetch_summary E theme s o s'.
Proof.
  assert (Hremote : ~ fresh s ->
            forall o s', remote_phase E theme s = (o, s') ->
                         fetch_summary E theme s o s').
  { intros Hnf o s' Er.
    destruct (remote_phase_run theme s)
      as (o0 & s0 & evs & Er0 & T & N & F & Z & U & C & D & Q & R).
    rewrite Er in Er0. injection Er0 as <- <-.
    exists evs. repeat (split; [assumption|]).
    intros HR Hp. destruct (R HR Hp) as (Hq & Hf & Hn).
    split; [exact Hq|]. split; [exact Hf|]. split; [intros H; contradiction|].
    intros _. exact Hn. }
  destruct (Qle_bool 300 (clock s - default 0%Q (timestamp (cache s)))) eqn:Hage.
  - assert (Hnf : ~ fresh s).
    { intros [Hlt _]. apply Qle_bool_iff in Hage. lra. }
    destruct (remote_phase E theme s) as [o s'] eqn:Er.
    exists o, s'. split; [|exact (Hremote Hnf o s' eq_refl)].
    unfold fetch_random_quote, bind, time_time, get_state, ret.
    rewrite Hage. cbn [negb]. exact Er.
  - destruct (list_eq_nil_dec (held (cache s))) as [Hempty|Hfull].
    + assert (Hnf : ~ fresh s).
      { intros [_ Hh]. contradiction. }
      destruct (remote_phase E theme s) as [o s'] eqn:Er.
      exists o, s'. split; [|exact (Hremote Hnf o s' eq_refl)].
      unfold fetch_random_quote, bind at 1, time_time at 1, bind at 1, get_state at 1.
      rewrite Hage. cbn [negb].
      destruct (get_from_cache_exact theme s) as (oc & s1 & Ec & Hu & Hnone & _).
      rewrite (FetcherFacts.bind_return _ _ _ _ _ Ec), (Hnone Hempty).
      destruct Hu as (Uc & Ud & Ut & Up & Ul & Uk).
      assert (Hs1 : remote_phase E theme s1 = remote_phase E theme s).
      { unfold _get_from_cache, bind, get_state, ret in Ec.
        unfold held in Hempty.
        destruct (quotes (cache s)) as [[|c l]|]; try discriminate Hempty;
          injection Ec as _ <-; reflexivity. }
      rewrite Hs1. exact Er.
    + assert (Hf : fresh s).
      { split; [|exact Hfull].
        destruct (Qlt_le_dec (clock s - default 0%Q (timestamp (cache s))) 300)
          as [Hlt|Hle]; [exact Hlt|].
        apply Qle_bool_iff in Hle. congruence. }
      destruct (fetch_fresh theme s Hf) as (q & s' & Ef & Hin & Hu & _).
      destruct Hu as (Uc & Ud & Ut & Up & Ul & Uk).
      exists (Return q), s'. split; [exact Ef|].
      exists []. rewrite app_nil_r.
      cbn [requests_in fetched_in flat_map List.length].
      split; [exact Ut|]. split; [lia|]. split; [lia|]. split; [constructor|].
      split; [intros _; split; assumption|].
      split; [intros H; destruct (H eq_refl)|].
      split; [intros _ H; destruct (H eq_refl)|].
      split; [intros q' [= <-]; left; rewrite Uc; exact Hin|].
      intros _ _. split; [eexists; reflexivity|]. split; [reflexivity|].
      split; [reflexivity|]. intros H. contradiction.
Qed.

End Runs.

(** X20: a cache less than 300 time units old that holds a record answers
    the fetch by itself: the call returns one of the cached records, issues
    no remote request, and leaves the cache, the cache file, the clock and
    the stamp of the last request as they were; for a theme of the table
    other than ['auto'], the record matches the theme whenever some cached
    record does. *)
Theorem X20_fresh_cache_served_without_request (E : env) (theme : string) (s : state) :
  fresh s ->
  exists q s',
    fetch_random_quote E theme s = (Return q, s')
    /\ In q (held (cache s))
    /\ new_events s s' = []
    /\ cache s' = cache s /\ disk s' = disk s /\ clock s' = clock s
    /\ last_request_time s' = last_request_time s
    /\ (theme <> "auto"%string -> known_theme theme = true ->
        (exists c, In c (held (cache s)) /\ _matches_theme c theme = true) ->
        _matches_theme q theme = true).
Proof.
  intros Hf.
  destruct (fetch_fresh E theme s Hf) as (q & s' & Ef & Hin & Hu & Hm).
  destruct Hu as (Uc & Ud & Ut & Up & Ul & Uk).
  exists q, s'. split; [exact Ef|]. split; [exact Hin|].
  split; [apply FetcherFacts.new_events_app; rewrite Ut, app_nil_r; reflexivity|].
  repeat (split; [assumption|]). exact Hm.
Qed.

Lemma X20_fresh_cache_served_without_request_witness :
  exists q s',
    fetch_random_quote offline_env "auto" warm_state = (Return q, s')
    /\ q = numbered_quote 0
    /\ trace s' = [].
Proof.
  assert (Hf : fresh warm_state).
  { split; [vm_compute; reflexivity|cbn; discriminate]. }
  destruct (X20_fresh_cache_served_without_request offline_env "auto" warm_state Hf)
    as (q & s' & Ef & Hin & Hev & _).
  exists q, s'. split; [exact Ef|].
  vm_compute in Ef. injection Ef as <- <-. split; reflexivity.
Defined.

(** X21: whatever the surroundings do, one call of [fetch_random_quote]
    issues at most three remote requests and obtains at most one record
    per request; every record obtained has the source ['zenquotes'], no
    tags and the length of its content; and a call that obtained no record
    leaves the cache and the cache file as they were. *)
Theorem X21_at_most_three_requests (E : env) (theme : string) (s : state) :
  let s' := (fetch_random_quote E theme s).2 in
  let evs := new_events s s' in
  trace s' = trace s ++ evs
  /\ (List.length (requests_in evs) <= 3)%nat
  /\ (List.length (fetched_in evs) <= List.length (requests_in evs))%nat
  /\ Forall remote_record (fetched_in evs)
  /\ (fetched_in evs = [] -> cache s' = cache s /\ disk s' = disk s).
Proof.
  destruct (fetch_run E theme s) as (o & s' & Ef & evs & T & N & F & Z & U & _).
  rewrite Ef. cbn [snd]. cbv zeta.
  rewrite (FetcherFacts.new_events_app _ _ _ T).
  repeat (split; [assumption|]). exact U.
Qed.

(** X22: a record returned by [fetch_random_quote] is held by the cache
    when the call returns, or else the cache holds nothing, three remote
    requests were made, and the record is a pool entry with the three
    assignments of [get_random_quote] when the local pool was imported,
    the built-in fallback record when it was not. *)
Theorem X22_returned_record_provenance (E : env) (theme : string) (s s' : state)
    (q : quote) :
  fetch_random_quote E theme s = (Return q, s') ->
  In q (held (cache s'))
  \/ (held (cache s') = []
      /\ List.length (requests_in (new_events s s')) = 3%nat
      /\ from_pool_or_fallback E s q).
Proof.
  intros Ef.
  destruct (fetch_run E theme s) as (o & s0 & Ef0 & evs & T & _ & _ & _ & _ & _ & _ & Q & _).
  rewrite Ef in Ef0. injection Ef0 as <- <-.
  rewrite (FetcherFacts.new_events_app _ _ _ T). apply Q. reflexivity.
Qed.

Lemma X22_returned_record_provenance_witness :
  exists q s',
    fetch_random_quote offline_env "auto" (init 0 Missing) = (Return q, s')
    /\ held (cache s') = []
    /\ source q = Some "local"%string.
Proof.
  destruct (fetch_random_quote offline_env "auto" (init 0 Missing)) as [[q|e] s'] eqn:Ef;
    [|vm_compute in Ef; discriminate Ef].
  exists q, s'. split; [reflexivity|].
  destruct (X22_returned_record_provenance offline_env "auto" _ _ _ Ef)
    as [Hin|(He & _ & Hfrom)].
  - exfalso. vm_compute in Ef. injection Ef as <- <-. exact Hin.
  - split; [exact He|].
    unfold from_pool_or_fallback in Hfrom. cbn [LOCAL_OK offline_env] in Hfrom.
    destruct Hfrom as (i & entry & _ & ->). reflexivity.
Defined.

(** X23: when no exchange with the remote source yields a record, and the
    local pool, if imported, is not empty, [fetch_random_quote] returns a
    record, whatever the disk does: it leaves the cache and the cache file
    as they were, makes no request when the cache is fresh and exactly
    three otherwise, and the record comes from the cache when it holds
    one, from the pool or the fallback when it holds none. *)
Theorem X23_offline_fetch (E : env) (theme : string) (s : state) :
  remote_down E ->
  (LOCAL_OK E = true -> pool s <> []) ->
  exists q s',
    fetch_random_quote E theme s = (Return q, s')
    /\ cache s' = cache s /\ disk s' = disk s
    /\ fetched_in (new_events s s') = []
    /\ (fresh s -> requests_in (new_events s s') = [])
    /\ (~ fresh s -> List.length (requests_in (new_events s s')) = 3%nat)
    /\ (held (cache s) <> [] -> In q (held (cache s)))
    /\ (held (cache s) = [] -> from_pool_or_fallback E s q).
Proof.
  intros HR Hp.
  destruct (fetch_run E theme s) as (o & s' & Ef & evs & T & _ & _ & _ & U & _ & _ & Q & R).
  destruct (R HR Hp) as ((q & ->) & Hnf & Hfresh & Hstale).
  destruct (U Hnf) as [Uc Ud].
  exists q, s'. split; [exact Ef|].
  rewrite (FetcherFacts.new_events_app _ _ _ T).
  repeat (split; [assumption|]).
  destruct (Q q eq_refl) as [Hin|(Hempty & _ & Hfrom)]; rewrite Uc in *.
  - split; [intros _; exact Hin|]. intros He. rewrite He in Hin. destruct Hin.
  - split; [intros Hne; contradiction|]. intros _. exact Hfrom.
Qed.

Lemma offline_env_remote_down : remote_down offline_env.
Proof. intros i. reflexivity. Qed.

Lemma X23_offline_fetch_witness :
  exists q s',
    fetch_random_quote offline_env "courage" (init 0 Missing) = (Return q, s')
    /\ List.length (requests_in (trace s')) = 3%nat
    /\ disk s' = Missing.
Proof.
  destruct (X23_offline_fetch offline_env "courage" (init 0 Missing)
              offline_env_remote_down ltac:(intros _; discriminate))
    as (q & s' & Ef & _).
  exists q, s'. split; [exact Ef|].
  vm_compute in Ef. injection Ef as <- <-. split; reflexivity.
Defined.

(** X24: when the cache directory can be created and the file written, a
    call that obtained a record leaves on disk exactly the cache the
    fetcher holds, so that a fetcher created afterwards starts with that
    cache, which is not empty. *)
Theorem X24_saved_cache_reloads (E : env) (theme : string) (s s' : state)
    (o : outcome quote) (now : Q) :
  disk_works E ->
  fetch_random_quote E theme s = (o, s') ->
  fetched_in (new_events s s') <> [] ->
  disk s' = Stored (cache s')
  /\ cache (init now (disk s')) = cache s'
  /\ held (cache s') <> [].
Proof.
  intros HD Ef Hne.
  destruct (fetch_run E theme s) as (o0 & s0 & Ef0 & evs & T & _ & _ & _ & _ & C & D & _).
  rewrite Ef in Ef0. injection Ef0 as <- <-.
  rewrite (FetcherFacts.new_events_app _ _ _ T) in Hne.
  pose proof (D HD Hne) as Hd. destruct (C Hne) as [Hh _].
  split; [exact Hd|]. split; [rewrite Hd; reflexivity|exact Hh].
Qed.

Lemma online_env_disk_works : disk_works online_env.
Proof. split; intros i; reflexivity. Qed.

Lemma X24_saved_cache_reloads_witness :
  exists o s',
    fetch_random_quote online_env "auto" (init 0 Missing) = (o, s')
    /\ cache_size (cache (init 1000 (disk s'))) = 1%nat.
Proof.
  destruct (fetch_random_quote online_env "auto" (init 0 Missing)) as [o s'] eqn:Ef.
  exists o, s'. split; [reflexivity|].
  assert (Hne : fetched_in (new_events (init 0 Missing) s') <> []).
  { vm_compute in Ef. injection Ef as <- <-. vm_compute. discriminate. }
  destruct (X24_saved_cache_reloads online_env "auto" _ _ _ 1000%Q
              online_env_disk_works Ef Hne) as (_ & -> & _).
  vm_compute in Ef. injection Ef as <- <-. reflexivity.
Defined.

(** X25: when no sleep returns early and no exchange takes negative
    time, a call that obtained a record is followed by a window of 300
    time units, counted from its start, in which any further call, for any
    theme, is answered from the cache without a remote request. *)
Theorem X25_next_call_within_window (E : env) (theme theme' : string) (s s1 : state)
    (o : outcome quote) (t : Q) :
  well_timed E ->
  fetch_random_quote E theme s = (o, s1) ->
  fetched_in (new_events s s1) <> [] ->
  (t < clock s + 300)%Q ->
  exists q s2,
    fetch_random_quote E theme' (set_clock t s1) = (Return q, s2)
    /\ new_events (set_clock t s1) s2 = []
    /\ In q (held (cache s1))
    /\ cache s2 = cache s1 /\ disk s2 = disk s1.
Proof.
  intros HW Ef Hne Ht.
  destruct (fetch_run E theme s) as (o0 & s0 & Ef0 & evs & T & _ & _ & _ & _ & C & _).
  rewrite Ef in Ef0. injection Ef0 as <- <-.
  rewrite (FetcherFacts.new_events_app _ _ _ T) in Hne.
  destruct (C Hne) as [Hh (t0 & Hstamp & Hle)]. specialize (Hle HW).
  assert (Hf : fresh (set_clock t s1)).
  { split; [|exact Hh]. cbn [clock cache set_clock]. rewrite Hstamp. cbn [default]. unfold Datatypes.id. lra. }
  destruct (fetch_fresh E theme' _ Hf) as (q & s2 & Ef2 & Hin & Hu & _).
  destruct Hu as (Uc & Ud & Ut & _).
  exists q, s2. split; [exact Ef2|].
  split; [apply FetcherFacts.new_events_app; rewrite Ut, app_nil_r; reflexivity|].
  split; [exact Hin|]. split; assumption.
Qed.

Lemma online_env_well_timed : well_timed online_env.
Proof. split; intros i; cbn; lra. Qed.

Lemma X25_next_call_within_window_witness :
  exists o s1 q s2,
    fetch_random_quote online_env "auto" (init 0 Missing) = (o, s1)
    /\ fetch_random_quote online_env "courage" (set_clock 200 s1) = (Return q, s2)
    /\ trace s2 = trace s1.
Proof.
  destruct (fetch_random_quote online_env "auto" (init 0 Missing)) as [o s1] eqn:Ef.
  assert (Hne : fetched_in (new_events (init 0 Missing) s1) <> []).
  { vm_compute in Ef. injection Ef as <- <-. vm_compute. discriminate. }
  destruct (X25_next_call_within_window online_env "auto" "courage" _ _ _ 200%Q
              online_env_well_timed Ef Hne ltac:(vm_compute; reflexivity))
    as (q & s2 & Ef2 & Hev & _ & _ & _).
  exists o, s1, q, s2. split; [reflexivity|]. split; [exact Ef2|].
  unfold new_events in Hev. cbn [trace set_clock] in Hev.
  vm_compute in Ef. injection Ef as <- <-.
  vm_compute in Ef2. injection Ef2 as <- <-. reflexivity.
Defined.

End FetcherMoreFacts.
